(** * Site-data and sitemap generators of the documentation portal

    A shallow embedding of [generate.py] and [scripts/generate_sitemap.py]
    together with the properties of the portal specification that concern
    them.

    Conventions of the embedding.
    - A Python [str] is the list of its code points ([list N]).  Literals are
      written [py "..."], which decodes the UTF-8 bytes of a string literal.
    - Character classes of the Unicode database ([str.isspace] and [\s],
      [\d], [str.lower], case-insensitive regex matching) are Python's on the
      ASCII range; outside it they are the fields of the class [Unicode],
      which every definition takes as a parameter.
    - A Python value that may be [None] is an [option]; a dict key that may
      be missing is an [option] around the type of its value.
    - The remote hosts, the HTML tokenizer and the XML parser are not part of
      the repository: they are the fields of a [World] record.
    - Network requests are logged: effectful functions live in the monad
      [Net], a writer of requested URLs over an uncaught-exception option.
    - [print] calls are omitted: no property below is about standard output. *)

From Stdlib Require Import NArith ZArith String Ascii.
From stdpp Require Import base option list gmap sets.

Local Open Scope N_scope.
Local Set Warnings "-register-all".

(* ===================================================================== *)
(** * Python strings                                                       *)
(* ===================================================================== *)

Module Py.

Abbreviation char := N (only parsing).
Abbreviation str := (list N) (only parsing).

(** UTF-8 decoding of a literal (well-formed input of up to four bytes per
    code point; other bytes are passed through). *)
Fixpoint utf8_decode (bs : list N) : str :=
  match bs with
  | [] => []
  | b :: r =>
    if b <? 128 then b :: utf8_decode r
    else if b <? 224 then
      match r with
      | b1 :: r1 => ((b - 192) * 64 + (b1 - 128)) :: utf8_decode r1
      | [] => [b]
      end
    else if b <? 240 then
      match r with
      | b1 :: b2 :: r2 =>
        ((b - 224) * 4096 + (b1 - 128) * 64 + (b2 - 128)) :: utf8_decode r2
      | _ => b :: r
      end
    else
      match r with
      | b1 :: b2 :: b3 :: r3 =>
        ((b - 240) * 262144 + (b1 - 128) * 4096 + (b2 - 128) * 64 + (b3 - 128))
          :: utf8_decode r3
      | _ => b :: r
      end
  end.

Definition py (s : string) : str :=
  utf8_decode (map N_of_ascii (list_ascii_of_string s)).
Arguments py s : simpl never.

(** ** Character classes *)

Definition is_ascii (c : char) : bool := c <? 128.

(** [str.isspace] on the ASCII range: TAB, LF, VT, FF, CR, FS, GS, RS, US
    and SPACE. *)
Definition ascii_isspace (c : char) : bool :=
  ((9 <=? c) && (c <=? 13)) || ((28 <=? c) && (c <=? 31)) || (c =? 32).

Definition ascii_isdigit (c : char) : bool := (48 <=? c) && (c <=? 57).

Definition ascii_lower (c : char) : char :=
  if (65 <=? c) && (c <=? 90) then c + 32 else c.

(** The Unicode database outside the ASCII range. *)
Class Unicode := {
  ext_isspace : char -> bool;
  ext_isdecimal : char -> bool;
  ext_lower : str -> str;
  ext_caseless_eq : char -> char -> bool
}.

Section Classes.
Context `{U : Unicode}.

Definition isspace (c : char) : bool :=
  if is_ascii c then ascii_isspace c else ext_isspace c.

Definition isdecimal (c : char) : bool :=
  if is_ascii c then ascii_isdigit c else ext_isdecimal c.

(** Case-insensitive match of the subject character [c] against the pattern
    character [l] under [re.IGNORECASE]. *)
Definition caseless_eq (l c : char) : bool :=
  if is_ascii c && is_ascii l then ascii_lower c =? ascii_lower l
  else ext_caseless_eq l c.

(** [s.lower()] *)
Definition lower (s : str) : str :=
  if forallb is_ascii s then map ascii_lower s else ext_lower s.

End Classes.

(** ** String operations *)

Definition str_eqb (a b : str) : bool := bool_decide (a = b).

(** Truthiness of a string or list: [bool(s)]. *)
Definition nonempty {A} (s : list A) : bool :=
  match s with [] => false | _ => true end.

Fixpoint lstrip_by (p : char -> bool) (s : str) : str :=
  match s with
  | [] => []
  | c :: r => if p c then lstrip_by p r else s
  end.

Fixpoint rstrip_by (p : char -> bool) (s : str) : str :=
  match s with
  | [] => []
  | c :: r =>
    match rstrip_by p r with
    | [] => if p c then [] else [c]
    | r' => c :: r'
    end
  end.

(** [s.strip()] *)
Definition strip `{U : Unicode} (s : str) : str :=
  rstrip_by isspace (lstrip_by isspace s).

(** [s.rstrip("/")] *)
Definition rstrip_slash (s : str) : str := rstrip_by (N.eqb 47) s.

(** [s.startswith(p)] *)
Fixpoint startswith (p s : str) : bool :=
  match p, s with
  | [], _ => true
  | a :: p', b :: s' => (a =? b) && startswith p' s'
  | _ :: _, [] => false
  end.

(** [needle in hay] *)
Fixpoint contains (needle hay : str) : bool :=
  startswith needle hay ||
  match hay with
  | [] => false
  | _ :: r => contains needle r
  end.

(** [s.split(sep, 1)] for a non-empty separator: one or two parts. *)
Fixpoint split1 (sep s : str) : list str :=
  if startswith sep s then [[]; drop (length sep) s]
  else
    match s with
    | [] => [[]]
    | c :: r =>
      match split1 sep r with
      | [a; b] => [c :: a; b]
      | _ => [s]
      end
    end.

(** [s.replace(old, new)] for a non-empty [old].  [skip] counts the
    characters of the current occurrence still to be passed over. *)
Fixpoint replace_go (old new s : str) (skip : nat) : str :=
  match s with
  | [] => []
  | c :: r =>
    match skip with
    | S k => replace_go old new r k
    | O =>
      if startswith old s then new ++ replace_go old new r (length old - 1)%nat
      else c :: replace_go old new r O
    end
  end.

Definition replace (old new s : str) : str := replace_go old new s O.

(** ** Regular expressions

    The fragment of [re] the sources use: character classes, greedy
    repetition of a class, concatenation, ordered alternation and [$].
    Matching is by backtracking, as in [re]: [rmatch r s k] tries the ways
    [r] can match a prefix of [s] in priority order and returns the first
    for which the continuation [k] accepts the rest. *)

Inductive regex :=
| Eps
| Cls (p : char -> bool)
| Star (p : char -> bool)
| Seq (a b : regex)
| Alt (a b : regex)
| Eos.

Fixpoint star_k (p : char -> bool) (s : str) (k : str -> option str)
  : option str :=
  match s with
  | [] => k []
  | c :: s' =>
    if p c then
      match star_k p s' k with
      | Some x => Some x
      | None => k s
      end
    else k s
  end.

Fixpoint rmatch (r : regex) (s : str) (k : str -> option str) : option str :=
  match r with
  | Eps => k s
  | Cls p =>
    match s with
    | c :: s' => if p c then k s' else None
    | [] => None
    end
  | Star p => star_k p s k
  | Seq a b => rmatch a s (fun s' => rmatch b s' k)
  | Alt a b =>
    match rmatch a s k with
    | Some x => Some x
    | None => rmatch b s k
    end
  | Eos =>
    match s with
    | [] => k []
    | [10] => k s
    | _ => None
    end
  end.

(** [pattern.match(s)]: the rest of [s] after the match, if any. *)
Definition re_match (r : regex) (s : str) : option str := rmatch r s Some.

Definition Plus (p : char -> bool) : regex := Seq (Cls p) (Star p).
Definition Opt (r : regex) : regex := Alt r Eps.
Definition Chr (c : char) : regex := Cls (N.eqb c).

Fixpoint Lit (s : str) : regex :=
  match s with
  | [] => Eps
  | c :: r => Seq (Chr c) (Lit r)
  end.

(** A literal under [re.IGNORECASE]. *)
Fixpoint LitI `{U : Unicode} (s : str) : regex :=
  match s with
  | [] => Eps
  | c :: r => Seq (Cls (caseless_eq c)) (LitI r)
  end.

(** [re.sub(r, repl, s, count)] for a constant replacement; [count = None]
    is Python's [count=0] (replace every match).  Matches are searched from
    left to right and do not overlap; [skip] counts the characters of the
    current match still to be passed over.  An empty match is replaced and
    the character after it copied. *)
Fixpoint sub_go (r : regex) (repl : str) (count : option nat) (s : str)
  (skip : nat) : str :=
  match s with
  | [] =>
    match skip, count, re_match r [] with
    | O, Some O, _ => []
    | O, _, Some _ => repl
    | _, _, _ => []
    end
  | c :: s' =>
    match skip with
    | S k => sub_go r repl count s' k
    | O =>
      match count with
      | Some O => s
      | _ =>
        match re_match r s with
        | Some rest =>
          let n := (length s - length rest)%nat in
          let count' := (fun k => pred k) <$> count in
          match n with
          | O => repl ++ c :: sub_go r repl count' s' O
          | S m => repl ++ sub_go r repl count' s' m
          end
        | None => c :: sub_go r repl count s' O
        end
      end
    end
  end.

Definition re_sub (r : regex) (repl : str) (s : str) (count : option nat)
  : str :=
  sub_go r repl count s O.

End Py.

Import Py.

(* ===================================================================== *)
(** * Library data: XML trees, HTML events, JSON values                    *)
(* ===================================================================== *)

(** An [xml.etree.ElementTree.Element]: tag, text (possibly [None]) and
    children.  Attributes and tails are never read by the sources. *)
Inductive element :=
| Element (tag : str) (text : option str) (children : list element).

Definition tag (e : element) : str :=
  match e with Element t _ _ => t end.
Definition text (e : element) : option str :=
  match e with Element _ x _ => x end.
Definition children (e : element) : list element :=
  match e with Element _ _ cs => cs end.

(** Document order: the element itself, then its subtrees. *)
Fixpoint iter_all (e : element) : list element :=
  match e with
  | Element _ _ cs =>
    e :: (fix go (l : list element) : list element :=
            match l with
            | [] => []
            | c :: r => iter_all c ++ go r
            end) cs
  end.

(** [e.iter(t)] *)
Definition iter (t : str) (e : element) : list element :=
  filter (fun x => tag x = t) (iter_all e).

(** [e.findall(".//" + t)]: the proper descendants with tag [t]. *)
Definition findall_desc (t : str) (e : element) : list element :=
  filter (fun x => tag x = t) (drop 1 (iter_all e)).

(** [e.findtext(t)]: the text of the first child with tag [t]; the empty
    string when that child has no text, [None] when there is no such child. *)
Definition findtext (t : str) (e : element) : option str :=
  match find (fun c => str_eqb (tag c) t) (children e) with
  | Some c => Some (default [] (text c))
  | None => None
  end.

(** [ET.SubElement(parent, t)] followed by [.text = x]: appends a leaf. *)
Definition sub_element (parent : element) (child : element) : element :=
  match parent with
  | Element t x cs => Element t x (cs ++ [child])
  end.

(** The callbacks [HTMLParser.feed] makes, in document order.  Tag and
    attribute names arrive lower-cased; an attribute without a value has the
    value [None]. *)
Inductive html_event :=
| StartTag (t : str) (attrs : list (str * option str))
| EndTag (t : str)
| Data (data : str).

(** The Python values [json.dump] receives from [generate]. *)
Inductive json :=
| JStr (s : str)
| JList (l : list json)
| JDict (l : list (str * json)).

(* ===================================================================== *)
(** * Requests and uncaught exceptions                                     *)
(* ===================================================================== *)

(** A computation that requests URLs, in order, and then either returns or
    ends in an exception nobody catches ([None]). *)
Definition Net (A : Type) : Type := list str * option A.

Definition ret {A} (a : A) : Net A := ([], Some a).
Definition raise {A} : Net A := ([], None).
Definition bind {A B} (m : Net A) (f : A -> Net B) : Net B :=
  match m with
  | (l, Some a) => let '(l', r) := f a in (l ++ l', r)
  | (l, None) => (l, None)
  end.
Arguments bind {A B} m f : simpl never.
Definition requests {A} (m : Net A) : list str := fst m.
Definition result {A} (m : Net A) : option A := snd m.

Notation "x <- m ;; k" := (bind m (fun x => k))
  (at level 90, m at next level, right associativity).

(* ===================================================================== *)
(** * The project registry ([projects.yaml])                               *)
(* ===================================================================== *)

(** A record of the [pages] list. *)
Record manual_page := {
  mp_title : str;
  mp_url : str;
  mp_content : option str          (* key may be missing *)
}.

(** A registry entry.  [sitemap] distinguishes the missing key ([None]),
    the key set to null ([Some None]) and the key set to a URL. *)
Record project := {
  p_id : str;
  p_title : str;
  p_repo : str;
  p_docs : option str;
  p_sitemap : option (option str);
  p_keywords : option str;
  p_category : option str;
  p_description : option str;
  p_pages : option (list manual_page)
}.

(* ===================================================================== *)
(** * [generate.py]                                                        *)
(* ===================================================================== *)

Module Generate.

(** What [generate.py] takes from outside the repository. *)
Record World := {
  (** [urlopen(req, timeout=TIMEOUT)] then [resp.status] and the decoded
      [resp.read()]; [None] when any of this raises. *)
  urlopen : str -> option (N * str);
  (** the callbacks of [HTMLParser.feed(body)] *)
  html_events : str -> list html_event;
  (** [ET.fromstring]; [None] is [ET.ParseError] *)
  xml_fromstring : str -> option element;
  (** [json.dump(v, f, indent=2)]: the text written *)
  json_dump : json -> str
}.

Definition GITHUB_ORG : str := py "meta-pytorch".

Section WithWorld.
Context `{U : Unicode} (w : World).

(** ** [_MetaExtractor] *)

Record MetaExtractor := {
  title : str;
  description : option str;
  in_title : bool
}.

(** [__init__] *)
Definition MetaExtractor_init : MetaExtractor :=
  {| title := []; description := Some []; in_title := false |}.

(** [dict(attrs)]: a later pair replaces an earlier one with the same key. *)
Definition dict_of_attrs (attrs : list (str * option str))
  : gmap str (option str) :=
  foldl (fun d kv => <[kv.1 := kv.2]> d) ∅ attrs.

(** [d.get(k, '')]: the value under [k], the empty string when the key is
    missing. *)
Definition get_or_empty (d : gmap str (option str)) (k : str) : option str :=
  default (Some []) (d !! k).

(** [handle_starttag]; [None] when [.lower()] is called on [None]. *)
Definition handle_starttag (self : MetaExtractor) (t : str)
  (attrs : list (str * option str)) : option MetaExtractor :=
  let self1 :=
    if str_eqb t (py "title")
    then {| title := title self; description := description self;
            in_title := true |}
    else self in
  if str_eqb t (py "meta") then
    let d := dict_of_attrs attrs in
    match get_or_empty d (py "name") with
    | None => None
    | Some name =>
      if str_eqb (lower name) (py "description")
      then Some {| title := title self1;
                   description := get_or_empty d (py "content");
                   in_title := in_title self1 |}
      else Some self1
    end
  else Some self1.

(** [handle_data] *)
Definition handle_data (self : MetaExtractor) (data : str) : MetaExtractor :=
  if in_title self
  then {| title := title self ++ data; description := description self;
          in_title := in_title self |}
  else self.

(** [handle_endtag] *)
Definition handle_endtag (self : MetaExtractor) (t : str) : MetaExtractor :=
  if str_eqb t (py "title")
  then {| title := title self; description := description self;
          in_title := false |}
  else self.

Definition handle (self : MetaExtractor) (e : html_event)
  : option MetaExtractor :=
  match e with
  | StartTag t attrs => handle_starttag self t attrs
  | EndTag t => Some (handle_endtag self t)
  | Data d => Some (handle_data self d)
  end.

(** [try: parser.feed(body) / except Exception: pass]: the callbacks run in
    order until one raises; the parser keeps what it has accumulated. *)
Fixpoint feed (self : MetaExtractor) (evs : list html_event) : MetaExtractor :=
  match evs with
  | [] => self
  | e :: rest =>
    match handle self e with
    | Some self' => feed self' rest
    | None => self
    end
  end.

(** ** [_fetch] *)

Definition _fetch (url : str) : Net (N * str) :=
  ([url], Some (match urlopen w url with
                | Some (status, body) => (status, body)
                | None => (0, [])
                end)).
Arguments _fetch url : simpl never.

(** ** [_fetch_sitemap_urls] *)

Definition sitemap_paths : list str :=
  [ py "/sitemap.xml"; py "/stable/sitemap.xml"; py "/main/sitemap.xml";
    py "/latest/sitemap.xml"; py "/en/stable/sitemap.xml";
    py "/en/latest/sitemap.xml"; py "/sitemap_index.xml" ].

(** The pattern of the namespace declaration: [\s+xmlns\s*=\s*], then a
    double-quoted value without double quotes inside. *)
Definition xmlns_re : regex :=
  Seq (Plus isspace) (Seq (Lit (py "xmlns")) (Seq (Star isspace)
    (Seq (Chr 61) (Seq (Star isspace) (Seq (Chr 34)
      (Seq (Star (fun c => negb (c =? 34))) (Chr 34))))))).

Definition strip_xmlns (body : str) : str :=
  re_sub xmlns_re [] body (Some 1%nat).

(** [for url_el in root.iter("url"): loc = url_el.findtext("loc");
     if loc: urls.append(loc)]: the locations appended. *)
Definition url_locs (root : element) : list str :=
  flat_map (fun url_el =>
              match findtext (py "loc") url_el with
              | Some loc => if nonempty loc then [loc] else []
              | None => []
              end) (iter (py "url") root).

(** The loop over [root.iter("sitemap")]. *)
Fixpoint sitemap_index_loop (els : list element) (urls : list str)
  : Net (list str) :=
  match els with
  | [] => ret urls
  | sitemap_el :: rest =>
    match findtext (py "loc") sitemap_el with
    | Some loc =>
      if nonempty loc then
        r <- _fetch loc ;;
        let '(sub_status, sub_body) := r in
        if (sub_status =? 200) && nonempty sub_body then
          match xml_fromstring w (strip_xmlns sub_body) with
          | Some sub_root => sitemap_index_loop rest (urls ++ url_locs sub_root)
          | None => sitemap_index_loop rest urls
          end
        else sitemap_index_loop rest urls
      else sitemap_index_loop rest urls
    | None => sitemap_index_loop rest urls
    end
  end.

(** The loop over [sitemap_paths]. *)
Fixpoint sitemap_paths_loop (base : str) (paths : list str) (urls : list str)
  : Net (list str) :=
  match paths with
  | [] => ret urls
  | sitemap_path :: rest =>
    r <- _fetch (base ++ sitemap_path) ;;
    let '(status, body) := r in
    if negb (status =? 200) || negb (nonempty (strip body))
    then sitemap_paths_loop base rest urls
    else
      match xml_fromstring w (strip_xmlns body) with
      | None => sitemap_paths_loop base rest urls
      | Some root =>
        urls1 <- sitemap_index_loop (iter (py "sitemap") root) urls ;;
        let urls2 := urls1 ++ url_locs root in
        if nonempty urls2 then ret urls2
        else sitemap_paths_loop base rest urls2
      end
  end.

Definition _fetch_sitemap_urls (docs_url : str) : Net (list str) :=
  sitemap_paths_loop (rstrip_slash docs_url) sitemap_paths [].

(** ** [_extract_page_info] *)

Definition title_sep : str := py " — ".

(** [\s+v?\d[\d.]*\s*] *)
Definition version_re : regex :=
  Seq (Plus isspace) (Seq (Opt (Chr 118)) (Seq (Cls isdecimal)
    (Seq (Star (fun c => isdecimal c || (c =? 46))) (Star isspace)))).

(** [\s*(documentation|docs)\s*$] under [re.IGNORECASE] *)
Definition docs_re : regex :=
  Seq (Star isspace)
    (Seq (Alt (LitI (py "documentation")) (LitI (py "docs")))
      (Seq (Star isspace) Eos)).

(** The clean-up of Sphinx title patterns (the [if] on the separator). *)
Definition clean_title (title : str) : str :=
  if contains title_sep title then
    let parts := split1 title_sep title in
    let page_part := strip (default [] (parts !! 0%nat)) in
    let suffix :=
      if (1 <? length parts)%nat then strip (default [] (parts !! 1%nat))
      else [] in
    let suffix := re_sub version_re (py " ") suffix None in
    let suffix := re_sub docs_re [] suffix None in
    let suffix := strip suffix in
    if nonempty suffix && negb (str_eqb (lower suffix) (lower page_part))
    then page_part ++ py " - " ++ suffix
    else page_part
  else title.

(** [s or None] *)
Definition or_None (s : str) : option str :=
  if nonempty s then Some s else None.

Definition _extract_page_info (url : str) : Net (option str * option str) :=
  r <- _fetch url ;;
  let '(status, body) := r in
  if negb (status =? 200) then ret (None, None)
  else
    let parser := feed MetaExtractor_init (html_events w body) in
    let title := strip (title parser) in
    match description parser with
    | None => raise                      (* [None.strip()] *)
    | Some d =>
      let desc := strip d in
      let title := clean_title title in
      ret (or_None title, or_None desc)
    end.

(** ** Crawl filters *)

Definition _is_crawlable (url : str) : bool :=
  negb (existsb (fun host => contains host url)
          [py "github.com"; py "huggingface.co"; py "gitlab.com"]).

Definition _SKIP_PATTERNS : list str :=
  [ py "/_sources/"; py "/_source/"; py "/_static/"; py "/_modules/";
    py "/_downloads/"; py "/_images/"; py "/genindex"; py "/py-modindex";
    py "/search.html"; py "/404.html"; py "/sg_execution_times";
    py "/objects.inv" ].

Definition _should_skip_url (url : str) : bool :=
  existsb (fun pat => contains pat url) _SKIP_PATTERNS.

(** ** [generate] *)

(** An entry of a search entry's [pages]. *)
Record page := {
  pg_title : str;
  pg_url : str;
  pg_content : str
}.

(** An entry of [projects_out]. *)
Record card := {
  c_id : str;
  c_title : str;
  c_repo : str;
  c_category : str;
  c_description : str;
  c_docs : str;
  c_github : str
}.

(** An entry of [search_index]. *)
Record search_entry := {
  s_id : str;
  s_title : str;
  s_category : str;
  s_description : str;
  s_keywords : str;
  s_url : str;
  s_pages : list page
}.

(** The loop over [proj.get("pages", [])]: fills [pages] and [manual_urls]. *)
Fixpoint manual_loop (pgs : list manual_page) (pages : list page)
  (manual_urls : gset str) : list page * gset str :=
  match pgs with
  | [] => (pages, manual_urls)
  | pg :: rest =>
    manual_loop rest
      (pages ++ [ {| pg_title := mp_title pg; pg_url := mp_url pg;
                     pg_content := default [] (mp_content pg) |} ])
      ({[ rstrip_slash (mp_url pg) ]} ∪ manual_urls)
  end.

(** The loop over [sitemap_urls]. *)
Fixpoint crawl_loop (proj : project) (manual_urls : gset str)
  (sitemap_urls : list str) (pages : list page) : Net (list page) :=
  match sitemap_urls with
  | [] => ret pages
  | page_url :: rest =>
    if bool_decide (rstrip_slash page_url ∈ manual_urls)
    then crawl_loop proj manual_urls rest pages
    else if _should_skip_url page_url
    then crawl_loop proj manual_urls rest pages
    else
      r <- _extract_page_info page_url ;;
      let '(title, desc) := r in
      match title with
      | None => crawl_loop proj manual_urls rest pages
      | Some title =>
        let proj_title := p_title proj in
        let title :=
          if negb (contains (lower proj_title) (lower title))
          then title ++ py " - " ++ proj_title
          else title in
        crawl_loop proj manual_urls rest
          (pages ++ [ {| pg_title := title; pg_url := page_url;
                         pg_content := default [] desc |} ])
      end
  end.

(** The deduplication loop. *)
Fixpoint dedup_loop (pages : list page) (seen : gset str)
  (deduped : list page) : list page :=
  match pages with
  | [] => deduped
  | pg :: rest =>
    let key := rstrip_slash (pg_url pg) in
    if bool_decide (key ∈ seen) then dedup_loop rest seen deduped
    else dedup_loop rest ({[ key ]} ∪ seen) (deduped ++ [pg])
  end.

(** One iteration of [for proj in projects]: the card and the search
    entry appended. *)
Definition generate_project (offline : bool) (proj : project)
  : Net (card * search_entry) :=
  let pid := p_id proj in
  let repo := p_repo proj in
  let docs_url :=
    default (py "https://meta-pytorch.org/" ++ repo ++ py "/") (p_docs proj) in
  let github_url := py "https://github.com/" ++ GITHUB_ORG ++ py "/" ++ repo in
  let keywords := default [] (p_keywords proj) in
  let category := default [] (p_category proj) in
  let description := default [] (p_description proj) in
  let out :=
    {| c_id := pid; c_title := p_title proj; c_repo := repo;
       c_category := category; c_description := description;
       c_docs := docs_url; c_github := github_url |} in
  let '(pages, manual_urls) :=
    manual_loop (default [] (p_pages proj)) [] ∅ in
  pages <-
    (if negb offline && _is_crawlable docs_url then
       sitemap_urls <- _fetch_sitemap_urls docs_url ;;
       pages <- crawl_loop proj manual_urls sitemap_urls pages ;;
       ret (dedup_loop pages ∅ [])
     else ret pages) ;;
  ret (out,
       {| s_id := pid; s_title := p_title proj; s_category := category;
          s_description := description; s_keywords := keywords;
          s_url := docs_url; s_pages := pages |}).

Fixpoint projects_loop (offline : bool) (projects : list project)
  (search_index : list search_entry) (projects_out : list card)
  : Net (list search_entry * list card) :=
  match projects with
  | [] => ret (search_index, projects_out)
  | proj :: rest =>
    r <- generate_project offline proj ;;
    let '(out, search_entry) := r in
    projects_loop offline rest (search_index ++ [search_entry])
      (projects_out ++ [out])
  end.





(** [generate(offline)] on the loaded registry: the search index, the
    project cards and the two files written from them. *)
Definition generate_data (offline : bool) (projects : list project)
  : Net (list search_entry * list card) :=
  projects_loop offline projects [] [].


(** ** Notions used to state the properties *)

(** The description a [meta] start tag makes [handle_starttag] store, if
    the tag is one whose [name] is [description] in any letter case. *)
Definition meta_description (e : html_event) : option (option str) :=
  match e with
  | StartTag t attrs =>
    if str_eqb t (py "meta") then
      match get_or_empty (dict_of_attrs attrs) (py "name") with
      | Some name =>
        if str_eqb (lower name) (py "description")
        then Some (get_or_empty (dict_of_attrs attrs) (py "content"))
        else None
      | None => None
      end
    else None
  | _ => None
  end.

(** The callback for [e] raises: a [meta] tag whose [name] has no value. *)
Definition raises (e : html_event) : bool :=
  match e with
  | StartTag t attrs =>
    str_eqb t (py "meta") &&
    bool_decide (get_or_empty (dict_of_attrs attrs) (py "name") = None)
  | _ => false
  end.

(** The events whose callbacks complete. *)
Fixpoint processed (evs : list html_event) : list html_event :=
  match evs with
  | [] => []
  | e :: rest => if raises e then [] else e :: processed rest
  end.

(** The description as the specification words it: that of the first
    matching tag. *)
Definition first_description (evs : list html_event) : option str :=
  default (Some []) (head (omap meta_description evs)).

(** The description of the last matching tag. *)
Definition last_description (evs : list html_event) : option str :=
  default (Some []) (last (omap meta_description evs)).

(** What [_fetch] returns for [url]. *)
Definition fetched (url : str) : N * str :=
  match urlopen w url with
  | Some (status, body) => (status, body)
  | None => (0, [])
  end.

(** The candidate sitemap at [url] is not fetched: bad status or blank
    body. *)
Definition candidate_unfetched (url : str) : Prop :=
  negb ((fetched url).1 =? 200) || negb (nonempty (strip (fetched url).2)) = true.

(** The candidate at [url] is fetched and its body is not XML. *)
Definition candidate_unparseable (url : str) : Prop :=
  (fetched url).1 = 200 /\ nonempty (strip (fetched url).2) = true /\
  xml_fromstring w (strip_xmlns (fetched url).2) = None.

(** The candidate at [url] is fetched and parsed and lists no URL, neither
    through nested sitemaps nor directly. *)
Definition candidate_empty (url : str) : Prop :=
  (fetched url).1 = 200 /\ nonempty (strip (fetched url).2) = true /\
  exists root,
    xml_fromstring w (strip_xmlns (fetched url).2) = Some root /\
    result (sitemap_index_loop (iter (py "sitemap") root) []) = Some [] /\
    url_locs root = [].

(** The normalized URL of a page: trailing slashes stripped. *)
Definition norm_url (pg : page) : str := rstrip_slash (pg_url pg).

(** The page entry of a manual page record. *)
Definition manual_entry (pg : manual_page) : page :=
  {| pg_title := mp_title pg; pg_url := mp_url pg;
     pg_content := default [] (mp_content pg) |}.

Definition docs_url_of (proj : project) : str :=
  default (py "https://meta-pytorch.org/" ++ p_repo proj ++ py "/")
    (p_docs proj).

(** The crawl branch of [generate] is taken for [proj]. *)
Definition crawls (offline : bool) (proj : project) : bool :=
  negb offline && _is_crawlable (docs_url_of proj).

End WithWorld.

(** The hosts of [w], except that the request for [url] fails. *)
Definition fail_at (w : World) (url : str) : World :=
  {| urlopen := fun x => if str_eqb x url then None else urlopen w x;
     html_events := html_events w;
     xml_fromstring := xml_fromstring w;
     json_dump := json_dump w |}.


(** ** Sample inputs *)

(** A Unicode database without spaces, digits or cased letters beyond
    ASCII.  The samples below are ASCII, so nothing depends on it. *)
Definition ascii_unicode : Unicode :=
  {| ext_isspace := fun _ => false;
     ext_isdecimal := fun _ => false;
     ext_lower := fun s => s;
     ext_caseless_eq := N.eqb |}.

(** Hosts that are all down. *)
Definition down_world : World :=
  {| urlopen := fun _ => None;
     html_events := fun _ => [];
     xml_fromstring := fun _ => None;
     json_dump := fun _ => [] |}.

(** A documentation host.  Its [/sitemap.xml] is not XML; its
    [/stable/sitemap.xml] lists a guide page twice (with and without a
    trailing slash), a manual page of [dup_project] and a build artifact.
    The bodies are tokens that the sample parsers recognise. *)
Definition sample_sitemap : element :=
  Element (py "urlset") None
    [ Element (py "url") None
        [Element (py "loc") (Some (py "https://docs.example/guide")) []];
      Element (py "url") None
        [Element (py "loc") (Some (py "https://docs.example/_static/logo/")) []];
      Element (py "url") None
        [Element (py "loc") (Some (py "https://docs.example/_static/app.js")) []];
      Element (py "url") None
        [Element (py "loc") (Some (py "https://docs.example/guide/")) []] ].

Definition sample_world : World :=
  {| urlopen := fun u =>
       if str_eqb u (py "https://docs.example/sitemap.xml")
       then Some (200, py "oops")
       else if str_eqb u (py "https://docs.example/stable/sitemap.xml")
       then Some (200, py "SITEMAP")
       else if str_eqb u (py "https://docs.example/guide")
               || str_eqb u (py "https://docs.example/guide/")
       then Some (200, py "GUIDE")
       else None;
     html_events := fun b =>
       if str_eqb b (py "GUIDE")
       then [ StartTag (py "title") []; Data (py "User ");
              Data (py "Guide — Torchy 2.1 documentation");
              EndTag (py "title");
              StartTag (py "meta")
                [(py "name", Some (py "description"));
                 (py "content", Some (py " How to use it. "))] ]
       else [];
     xml_fromstring := fun b =>
       if str_eqb b (py "SITEMAP") then Some sample_sitemap else None;
     json_dump := fun _ => [] |}.

(** Two [meta] description tags in one document. *)
Definition two_metas : list html_event :=
  [ StartTag (py "meta")
      [(py "name", Some (py "description")); (py "content", Some (py "first"))];
    StartTag (py "meta")
      [(py "name", Some (py "Description")); (py "content", Some (py "second"))] ].

Definition page_a : manual_page :=
  {| mp_title := py "Logo"; mp_url := py "https://docs.example/_static/logo";
     mp_content := None |}.
Definition page_b : manual_page :=
  {| mp_title := []; mp_url := py "https://docs.example/_static/logo/";
     mp_content := Some (py "again") |}.

(** A project declaring two manual pages whose URLs differ by a trailing
    slash only. *)
Definition dup_project : project :=
  {| p_id := py "demo"; p_title := py "Demo"; p_repo := py "demo";
     p_docs := Some (py "https://docs.example/"); p_sitemap := None;
     p_keywords := None; p_category := None; p_description := None;
     p_pages := Some [page_a; page_b] |}.

End Generate.

(* ===================================================================== *)
(** * [scripts/generate_sitemap.py]                                        *)
(* ===================================================================== *)

Module GenerateSitemap.

(** [urllib.request.urlopen(url, timeout=timeout)] and [response.read()]. *)
Inductive urlopen_result :=
| Content (content : list N)      (* the bytes read *)
| UrlError                        (* [URLError] or [HTTPError] *)
| OtherError.                     (* any other exception *)

(** [ET.fromstring(content)] on the bytes read. *)
Inductive fromstring_result :=
| Parsed (root : element)
| ParseError                      (* [ET.ParseError] *)
| OtherParseError.                (* any other exception, such as the
                                     [ValueError] or [LookupError] of an
                                     unsupported encoding *)

(** What [generate_sitemap.py] takes from outside the repository. *)
Record World := {
  urlopen : str -> urlopen_result;
  xml_fromstring : list N -> fromstring_result;
  (** [datetime.now().strftime(...)] *)
  today : str;
  (** [ET.tostring], [minidom.parseString] and [toprettyxml] *)
  prettify_xml : element -> str
}.

Definition BASE_URL : str := py "https://meta-pytorch.org".
Definition SITEMAP_OUTPUT_PATH : str := py "sitemap.xml".
Definition UNIFIED_SITEMAP_PATH : str := py "sitemap-unified.xml".
Definition MAIN_SITEMAP_PATH : str := py "sitemap-main.xml".
Definition SITEMAP_NS : str := py "http://www.sitemaps.org/schemas/sitemap/0.9".

Section WithWorld.
Context (w : World).

(** A leaf [ET.SubElement(parent, t)] with [.text = x]. *)
Definition leaf (t : str) (x : str) : element := Element t (Some x) [].

Definition fetch_sitemap (url : str) : Net (option element) :=
  ([url],
   match urlopen w url with
   | Content content =>
     match xml_fromstring w content with
     | Parsed root => Some (Some root)
     | ParseError => Some None
     | OtherParseError => None
     end
   | UrlError => Some None
   | OtherError => None
   end).

Definition get_project_sitemap_url (project : project) : option str :=
  match p_sitemap project with
  | Some v => v
  | None =>
    let docs_url := rstrip_slash (default [] (p_docs project)) in
    Some (docs_url ++ py "/sitemap.xml")
  end.

(** ** [generate_sitemap_index]

    An element is built bottom-up here: the source attaches the empty
    [sitemap] element to the root and then fills it, which yields the same
    tree. *)

Definition sitemap_entry (loc : str) : element :=
  Element (py "sitemap") None [leaf (py "loc") loc; leaf (py "lastmod") (today w)].

Fixpoint index_loop (projects : list project) (root : element) : element :=
  match projects with
  | [] => root
  | project :: rest =>
    match get_project_sitemap_url project with
    | None => index_loop rest root
    | Some sitemap_url => index_loop rest (sub_element root (sitemap_entry sitemap_url))
    end
  end.

Definition sitemap_index_root (projects : list project) (include_main : bool)
  : element :=
  let root := Element (py "sitemapindex") None [] in
  let root :=
    if include_main
    then sub_element root
           (sitemap_entry (BASE_URL ++ py "/" ++ MAIN_SITEMAP_PATH))
    else root in
  index_loop projects root.

Definition generate_sitemap_index (projects : list project)
  (include_main : bool) : str :=
  prettify_xml w (sitemap_index_root projects include_main).

(** ** [generate_unified_sitemap] *)

(** The entry for a project without a usable sitemap. *)
Definition docs_root_entry (project : project) : element :=
  Element (py "url") None
    [ leaf (py "loc") (rstrip_slash (default [] (p_docs project)) ++ py "/");
      leaf (py "lastmod") (today w);
      leaf (py "priority") (py "0.8") ].

(** The loop over the children of a copied [url] entry. *)
Fixpoint clone_children (cs : list element) (new_url : element)
  (has_lastmod : bool) : element * bool :=
  match cs with
  | [] => (new_url, has_lastmod)
  | child :: rest =>
    let tag_name := replace (py "{" ++ SITEMAP_NS ++ py "}") [] (tag child) in
    let new_url := sub_element new_url (Element tag_name (text child) []) in
    clone_children rest new_url
      (if str_eqb tag_name (py "lastmod") then true else has_lastmod)
  end.

Definition clone_entry (url_entry : element) : element :=
  let '(new_url, has_lastmod) :=
    clone_children (children url_entry) (Element (py "url") None []) false in
  if negb has_lastmod
  then sub_element new_url (leaf (py "lastmod") (today w))
  else new_url.

(** The loop over [sitemap_root.findall(...)]. *)
Fixpoint clone_loop (entries : list element) (root : element) : element :=
  match entries with
  | [] => root
  | url_entry :: rest => clone_loop rest (sub_element root (clone_entry url_entry))
  end.

Fixpoint unified_loop (projects : list project) (root : element)
  : Net element :=
  match projects with
  | [] => ret root
  | project :: rest =>
    match get_project_sitemap_url project with
    | None => unified_loop rest (sub_element root (docs_root_entry project))
    | Some sitemap_url =>
      sitemap_root <- fetch_sitemap sitemap_url ;;
      match sitemap_root with
      | None => unified_loop rest (sub_element root (docs_root_entry project))
      | Some sitemap_root =>
        unified_loop rest
          (clone_loop
             (findall_desc (py "{" ++ SITEMAP_NS ++ py "}url") sitemap_root)
             root)
      end
    end
  end.

Definition main_url_entry : element :=
  Element (py "url") None
    [ leaf (py "loc") (BASE_URL ++ py "/");
      leaf (py "lastmod") (today w);
      leaf (py "priority") (py "1.0");
      leaf (py "changefreq") (py "weekly") ].

Definition unified_root (projects : list project) : Net element :=
  unified_loop projects
    (sub_element (Element (py "urlset") None []) main_url_entry).

Definition generate_unified_sitemap (projects : list project) : Net str :=
  root <- unified_root projects ;;
  ret (prettify_xml w root).

(** ** [validate_sitemaps] *)

Fixpoint validate_loop (projects : list project) (all_valid : bool)
  : Net bool :=
  match projects with
  | [] => ret all_valid
  | project :: rest =>
    match get_project_sitemap_url project with
    | None => validate_loop rest all_valid
    | Some sitemap_url =>
      r <- fetch_sitemap sitemap_url ;;
      match r with
      | Some _ => validate_loop rest all_valid
      | None => validate_loop rest false
      end
    end
  end.

Definition validate_sitemaps (projects : list project) : Net bool :=
  validate_loop projects true.

(** ** [main] *)

Record args := {
  a_unified : bool;
  a_validate : bool;
  a_output_dir : str
}.

(** A run of the script: the URLs requested, the files written (directory,
    file name, text) and the exit status of the process.  An uncaught
    exception ends the interpreter with status 1. *)
Record run := {
  requested : list str;
  written : list (str * str * str);
  exit_code : N
}.

(** [main()] after the registry has been loaded into [projects]. *)
Definition main (a : args) (projects : list project) : run :=
  if a_validate a then
    match validate_sitemaps projects with
    | (l, Some true) => {| requested := l; written := []; exit_code := 0 |}
    | (l, Some false) => {| requested := l; written := []; exit_code := 1 |}
    | (l, None) => {| requested := l; written := []; exit_code := 1 |}
    end
  else
    let index_file :=
      (a_output_dir a, SITEMAP_OUTPUT_PATH,
       generate_sitemap_index projects true) in
    if a_unified a then
      match generate_unified_sitemap projects with
      | (l, Some unified_sitemap) =>
        {| requested := l;
           written := [index_file;
                       (a_output_dir a, UNIFIED_SITEMAP_PATH, unified_sitemap)];
           exit_code := 0 |}
      | (l, None) =>
        {| requested := l; written := [index_file]; exit_code := 1 |}
      end
    else {| requested := []; written := [index_file]; exit_code := 0 |}.

(** ** Notions used to state the properties *)

(** The sitemap at [url] is fetched and parses as XML. *)
Definition fetch_ok (url : str) : Prop :=
  exists content root,
    urlopen w url = Content content /\ xml_fromstring w content = Parsed root.

(** The entries one project contributes to the sitemap index. *)
Definition index_entries (project : project) : list element :=
  match get_project_sitemap_url project with
  | None => []
  | Some sitemap_url => [sitemap_entry sitemap_url]
  end.

(** The entries one project contributes to the unified sitemap when its
    sitemap request does not end in an uncaught exception. *)
Definition unified_entries (project : project) : list element :=
  match get_project_sitemap_url project with
  | None => [docs_root_entry project]
  | Some sitemap_url =>
    match urlopen w sitemap_url with
    | Content content =>
      match xml_fromstring w content with
      | Parsed sitemap_root =>
        map clone_entry
          (findall_desc (py "{" ++ SITEMAP_NS ++ py "}url") sitemap_root)
      | _ => [docs_root_entry project]
      end
    | _ => [docs_root_entry project]
    end
  end.

End WithWorld.

(** ** Sample registry and hosts *)

Definition sample_project (id : string) (docs : string)
  (sitemap : option (option str)) : project :=
  {| p_id := py id; p_title := py id; p_repo := py id;
     p_docs := Some (py docs); p_sitemap := sitemap;
     p_keywords := None; p_category := None; p_description := None;
     p_pages := None |}.

(** A project with the default sitemap location, one with an explicit
    location and one whose [sitemap] key is null. *)
Definition proj_default : project :=
  sample_project "alpha" "https://alpha.example/docs/" None.
Definition proj_explicit : project :=
  sample_project "beta" "https://beta.example/"
    (Some (Some (py "https://beta.example/map.xml"))).
Definition proj_null : project :=
  sample_project "gamma" "https://gamma.example/docs" (Some None).

(** Hosts on which every sitemap is served and parses to an empty
    [urlset]. *)
Definition sample_world : World :=
  {| urlopen := fun _ => Content [];
     xml_fromstring := fun _ => Parsed (Element (py "urlset") None []);
     today := py "2024-01-01";
     prettify_xml := fun _ => [] |}.

(** Hosts that refuse every request. *)
Definition down_world : World :=
  {| urlopen := fun _ => UrlError;
     xml_fromstring := fun _ => ParseError;
     today := py "2024-01-01";
     prettify_xml := fun _ => [] |}.

Definition validate_args : args :=
  {| a_unified := false; a_validate := true; a_output_dir := py "." |}.

End GenerateSitemap.

(* ===================================================================== *)
(** * Further notions and samples                                          *)
(* ===================================================================== *)

Module GenerateNotions.
Import Generate.

Section WithWorld.
Context `{U : Unicode} (w : World).

(** The card [generate] emits for a registry entry. *)
Definition card_of (proj : project) : card :=
  {| c_id := p_id proj; c_title := p_title proj; c_repo := p_repo proj;
     c_category := default [] (p_category proj);
     c_description := default [] (p_description proj);
     c_docs := docs_url_of proj;
     c_github := py "https://github.com/meta-pytorch/" ++ p_repo proj |}.


(** [s] begins with what the namespace pattern matches: whitespace, the
    word [xmlns], an equals sign with optional whitespace around it and a
    double-quoted value. *)
Definition declaration_at (s : str) : Prop :=
  exists ws ws1 ws2 v post,
    s = ws ++ py "xmlns" ++ ws1 ++ py "=" ++ ws2 ++ [34] ++ v ++ [34] ++ post /\
    ws <> [] /\ forallb isspace ws = true /\
    forallb isspace ws1 = true /\ forallb isspace ws2 = true /\
    forallb (fun c => negb (c =? 34)) v = true.

(** The location a [sitemap] element of an index names, if it is not
    empty. *)
Definition nested_loc (sitemap_el : element) : option str :=
  match findtext (py "loc") sitemap_el with
  | Some loc => if nonempty loc then Some loc else None
  | None => None
  end.

(** The page URLs the nested sitemap at [loc] yields: none unless it is
    fetched with status 200 and a non-empty body that parses. *)
Definition nested_urls (loc : str) : list str :=
  if ((fetched w loc).1 =? 200) && nonempty (fetched w loc).2 then
    match xml_fromstring w (strip_xmlns (fetched w loc).2) with
    | Some sub_root => url_locs sub_root
    | None => []
    end
  else [].

End WithWorld.

(** The non-empty suffixes of a string, longest first. *)
Fixpoint tails (s : str) : list str :=
  match s with
  | [] => []
  | _ :: r => s :: tails r
  end.

(** The start of a root tag that declares a prefixed namespace. *)
Definition xsi_header : str :=
  py "<urlset xmlns:xsi=" ++ [34]
  ++ py "http://www.w3.org/2001/XMLSchema-instance" ++ [34].

(** A host with three pages: the title of the first carries two version
    numbers in a row, the second has the sample title of the
    specification, the third names a project of two words. *)
Definition versions_world : World :=
  {| urlopen := fun u =>
       if str_eqb u (py "https://docs.example/guide") then Some (200, py "GUIDE")
       else if str_eqb u (py "https://docs.example/api") then Some (200, py "API")
       else if str_eqb u (py "https://docs.example/install")
       then Some (200, py "INSTALL")
       else None;
     html_events := fun b =>
       if str_eqb b (py "GUIDE")
       then [ StartTag (py "title") [];
              Data (py "Guide — Torchy 2.1 3.0 documentation");
              EndTag (py "title") ]
       else if str_eqb b (py "API")
       then [ StartTag (py "title") [];
              Data (py "API Reference — Torchy 2.1 documentation");
              EndTag (py "title") ]
       else [ StartTag (py "title") [];
              Data (py " Install — Torch Comms v0.1 Docs ");
              EndTag (py "title") ];
     xml_fromstring := fun _ => None;
     json_dump := fun _ => [] |}.

(** [s] begins with a version number: a digit, or the letter [v] and a
    digit. *)
Definition starts_version (s : str) : bool :=
  match s with
  | d :: rest =>
    ascii_isdigit d ||
    ((d =? 118) && match rest with d2 :: _ => ascii_isdigit d2 | [] => false end)
  | [] => false
  end.

(** No whitespace of [s] is followed by a version number. *)
Fixpoint version_free (s : str) : bool :=
  match s with
  | [] => true
  | x :: b => negb (ascii_isspace x && starts_version b) && version_free b
  end.

(** A project name: ASCII text of one or more words that neither begins
    nor ends with whitespace and holds no version number after
    whitespace. *)
Definition project_name (s : str) : bool :=
  forallb is_ascii s &&
  match s with c :: _ => negb (ascii_isspace c) | [] => false end &&
  match last s with Some c => negb (ascii_isspace c) | None => false end &&
  version_free s.

(** A word the documentation pattern matches: [documentation] or [docs]
    in any ASCII letter case. *)
Definition doc_word (word : str) : Prop :=
  forallb is_ascii word = true /\
  (map ascii_lower word = py "documentation" \/ map ascii_lower word = py "docs").

(** The page [generate] derives from the guide of the sample host. *)
Definition guide_page : page :=
  {| pg_title := py "User Guide - Torchy - Demo";
     pg_url := py "https://docs.example/guide";
     pg_content := py "How to use it." |}.

(** The events of a document whose title holds two text fragments. *)
Definition titled_document : list html_event :=
  [] ++ StartTag (py "title") []
     :: [Data (py "User "); StartTag (py "b") []; Data (py "Guide"); EndTag (py "b")]
     ++ EndTag (py "title")
     :: [StartTag (py "meta") [(py "charset", Some (py "utf-8"))]; Data (py "body")].

End GenerateNotions.

Module SitemapNotions.
Import GenerateSitemap.

(** The namespace prefix of a qualified tag. *)
Definition NS_PREFIX : str := py "{" ++ SITEMAP_NS ++ py "}".

(** The copy [generate_unified_sitemap] makes of a child of a [url] entry. *)
Definition copied_child (child : element) : element :=
  Element (replace NS_PREFIX [] (tag child)) (text child) [].

(** Some child is a [lastmod] once the namespace prefix is removed. *)
Definition has_lastmod_child (url_entry : element) : bool :=
  existsb (fun child => str_eqb (replace NS_PREFIX [] (tag child)) (py "lastmod"))
    (children url_entry).

(** A registry entry without [docs] key: with the default sitemap location
    and with a null [sitemap]. *)
Definition proj_nodocs : project :=
  {| p_id := py "delta"; p_title := py "Delta"; p_repo := py "delta";
     p_docs := None; p_sitemap := None;
     p_keywords := None; p_category := None; p_description := None;
     p_pages := None |}.
Definition proj_nodocs_null : project :=
  {| p_id := py "delta"; p_title := py "Delta"; p_repo := py "delta";
     p_docs := None; p_sitemap := Some None;
     p_keywords := None; p_category := None; p_description := None;
     p_pages := None |}.

(** Hosts on which every request ends in an exception that [fetch_sitemap]
    does not catch. *)
Definition broken_world : World :=
  {| urlopen := fun _ => OtherError;
     xml_fromstring := fun _ => ParseError;
     today := py "2024-01-01";
     prettify_xml := fun _ => [] |}.

Definition unified_args : args :=
  {| a_unified := true; a_validate := false; a_output_dir := py "." |}.

End SitemapNotions.

(* ===================================================================== *)
(** * Properties                                                           *)
(* ===================================================================== *)

(** ** The request monad and string helpers *)

Lemma bind_result {A B} (m : Net A) (f : A -> Net B) :
  result (bind m f) = match result m with Some a => result (f a) | None => None end.
Proof.
  unfold bind. destruct m as [l [a|]]; simpl; [|reflexivity].
  destruct (f a); reflexivity.
Qed.

Lemma bind_requests {A B} (m : Net A) (f : A -> Net B) :
  requests (bind m f) =
  requests m ++ match result m with Some a => requests (f a) | None => [] end.
Proof.
  unfold bind. destruct m as [l [a|]]; simpl; [|by rewrite app_nil_r].
  destruct (f a); reflexivity.
Qed.

Lemma bind_ret_l {A B} (a : A) (f : A -> Net B) : bind (ret a) f = f a.
Proof. unfold bind, ret. destruct (f a); reflexivity. Qed.

Lemma bind_congr {A B} (m : Net A) (f g : A -> Net B) :
  (forall a, result m = Some a -> f a = g a) -> bind m f = bind m g.
Proof.
  unfold bind. destruct m as [l [a|]]; simpl; [|done].
  intros H. by rewrite (H a eq_refl).
Qed.

Lemma elem_of_map {A B} (f : A -> B) (l : list A) (y : B) :
  y ∈ map f l <-> exists x, y = f x /\ x ∈ l.
Proof. change (map f l) with (f <$> l). apply list_elem_of_fmap. Qed.

Lemma rstrip_by_spec p s :
  exists t, s = rstrip_by p s ++ t /\ forallb p t = true /\
            (forall c, last (rstrip_by p s) = Some c -> p c = false).
Proof.
  induction s as [|c r IH]; simpl.
  - exists []. split; [done|]. split; [done|]. intros c H; discriminate.
  - destruct IH as (t & Hr & Ht & Hl).
    destruct (rstrip_by p r) as [|x r'] eqn:E.
    + destruct (p c) eqn:Hc.
      * exists (c :: t). simpl in *. rewrite Hc, Ht.
        split; [by rewrite Hr|]. split; [done|]. intros ? ?; discriminate.
      * exists t. simpl in *. split; [by rewrite Hr|]. split; [done|].
        intros c' [= <-]. done.
    + exists t. split; [by rewrite Hr at 1|]. split; [done|].
      intros c' Hc'. apply Hl. exact Hc'.
Qed.

(* ===================================================================== *)
(** ** [scripts/generate_sitemap.py]                                       *)
(* ===================================================================== *)

Module SitemapProps.
Import GenerateSitemap SitemapNotions.

Section Props.
Context (w : World).

(** C5.  For a registry entry without [docs] key and without [sitemap]
    key the script resolves the sitemap URL to [/sitemap.xml]: it reads the
    docs URL with the empty string as default, where [generate.py] derives
    it from the repository name. *)
Theorem sitemap_url_without_docs :
  get_project_sitemap_url proj_nodocs = Some (py "/sitemap.xml") /\
  Generate.docs_url_of proj_nodocs = py "https://meta-pytorch.org/delta/" /\
  get_project_sitemap_url proj_nodocs <>
    Some (rstrip_slash (Generate.docs_url_of proj_nodocs) ++ py "/sitemap.xml").
Proof.
  split; [reflexivity|]. split; [reflexivity|].
  vm_compute. discriminate.
Qed.

(** X26.  The resolved sitemap URL of a registry entry with a [docs] key is
    the value of its [sitemap] key when the key is present, the null value
    included (no default replaces it); when the key is missing it is the
    docs URL with its trailing slashes stripped followed by
    [/sitemap.xml]. *)
Theorem sitemap_url_of_docs (p : project) (docs : str) :
  p_docs p = Some docs ->
  (forall v, p_sitemap p = Some v -> get_project_sitemap_url p = v) /\
  (p_sitemap p = None ->
   exists stem slashes,
     docs = stem ++ slashes /\
     forallb (N.eqb 47) slashes = true /\
     (forall c, last stem = Some c -> c <> 47) /\
     get_project_sitemap_url p = Some (stem ++ py "/sitemap.xml")).
Proof.
  intros Hd. unfold get_project_sitemap_url. rewrite Hd. split.
  - intros v ->. reflexivity.
  - intros ->. cbn [default].
    destruct (rstrip_by_spec (N.eqb 47) docs) as (t & Hs & Ht & Hl).
    exists (rstrip_slash docs), t.
    split; [done|]. split; [done|]. split; [|done].
    intros c Hc ->. apply Hl in Hc. discriminate.
Qed.

Lemma validate_loop_true projects b :
  result (validate_loop w projects b) = Some true <->
  b = true /\
  Forall (fun p => forall u, get_project_sitemap_url p = Some u -> fetch_ok w u) projects.
Proof.
  revert b. induction projects as [|p ps IH]; intros b; simpl.
  - split; [intros [= ->]; split; [done|constructor] | intros [-> _]; done].
  - destruct (get_project_sitemap_url p) as [u|] eqn:Hu.
    + rewrite bind_result. unfold fetch_sitemap at 1. simpl.
      destruct (urlopen w u) as [content| |] eqn:Hopen.
      * destruct (xml_fromstring w content) as [root| |] eqn:Hx.
        -- rewrite IH. split; intros [Hb Hall]; split; try done.
           ++ constructor; [|done]. intros u' ?. simplify_eq. by exists content, root.
           ++ by inversion Hall.
        -- rewrite IH. split; [intros [? _]; done|].
           intros [_ Hall]. inversion Hall as [|? ? Hp _]; subst.
           destruct (Hp u) as (c' & r' & Hc' & Hr'); [done|]. congruence.
        -- split; [done|].
           intros [_ Hall]. inversion Hall as [|? ? Hp _]; subst.
           destruct (Hp u) as (c' & r' & Hc' & Hr'); [done|]. congruence.
      * rewrite IH. split; [intros [? _]; done|].
        intros [_ Hall]. inversion Hall as [|? ? Hp _]; subst.
        destruct (Hp u) as (c' & r' & Hc' & Hr'); [done|]. congruence.
      * split; [done|].
        intros [_ Hall]. inversion Hall as [|? ? Hp _]; subst.
        destruct (Hp u) as (c' & r' & Hc' & Hr'); [done|]. congruence.
    + rewrite IH. split; intros [Hb Hall]; split; try done.
      * constructor; [|done]. intros u' ?; congruence.
      * by inversion Hall.
Qed.

(** C6.  With [--validate] no file is written, and the exit status is 0
    exactly when every project with a resolved sitemap URL has its sitemap
    fetched and parsed; projects without one are skipped, and one project
    whose sitemap fails makes the status 1. *)
Theorem validate_exit_code (a : args) (projects : list project) :
  a_validate a = true ->
  written (main w a projects) = [] /\
  (exit_code (main w a projects) = 0 <->
   Forall (fun p => forall u, get_project_sitemap_url p = Some u -> fetch_ok w u)
          projects) /\
  (Exists (fun p => exists u, get_project_sitemap_url p = Some u /\ ~ fetch_ok w u)
          projects ->
   exit_code (main w a projects) = 1).
Proof.
  intros Ha. unfold main. rewrite Ha.
  pose proof (validate_loop_true projects true) as Hv.
  unfold validate_sitemaps.
  destruct (validate_loop w projects true) as [l [[|]|]] eqn:E; simpl in *.
  - split; [done|]. split.
    + split; [intros _; by apply Hv | done].
    + intros Hex. exfalso. destruct Hv as [Hv _]. destruct (Hv eq_refl) as [_ Hall].
      apply Exists_exists in Hex as (p & Hin & u & Hu & Hn).
      rewrite Forall_forall in Hall. eauto.
  - split; [done|]. split; [|done].
    split; [done|]. intros Hall. destruct Hv as [_ Hv]. by specialize (Hv (conj eq_refl Hall)).
  - split; [done|]. split; [|done].
    split; [done|]. intros Hall. destruct Hv as [_ Hv]. by specialize (Hv (conj eq_refl Hall)).
Qed.


Lemma children_sub_element parent child :
  children (sub_element parent child) = children parent ++ [child].
Proof. by destruct parent. Qed.

Lemma index_loop_children projects root :
  children (index_loop w projects root) =
  children root ++ flat_map (index_entries w) projects.
Proof.
  revert root. induction projects as [|p ps IH]; intros root; simpl.
  - by rewrite app_nil_r.
  - unfold index_entries at 1.
    destruct (get_project_sitemap_url p) as [u|]; simpl; rewrite IH; [|done].
    rewrite children_sub_element, <- app_assoc. done.
Qed.

Lemma clone_loop_children entries root :
  children (clone_loop w entries root) =
  children root ++ map (clone_entry w) entries.
Proof.
  revert root. induction entries as [|e es IH]; intros root; simpl.
  - by rewrite app_nil_r.
  - rewrite IH, children_sub_element, <- app_assoc. done.
Qed.

Lemma unified_loop_children projects root r :
  result (unified_loop w projects root) = Some r ->
  children r = children root ++ flat_map (unified_entries w) projects.
Proof.
  revert root. induction projects as [|p ps IH]; intros root; simpl.
  - intros [= <-]. by rewrite app_nil_r.
  - unfold unified_entries at 1.
    destruct (get_project_sitemap_url p) as [u|].
    + rewrite bind_result. unfold fetch_sitemap at 1. simpl.
      destruct (urlopen w u) as [content| |]; [| |done].
      * destruct (xml_fromstring w content) as [sroot| |]; [| |done];
          intros H; apply IH in H; rewrite H.
        -- rewrite clone_loop_children, <- app_assoc. done.
        -- rewrite children_sub_element, <- app_assoc. done.
      * intros H; apply IH in H. rewrite H, children_sub_element, <- app_assoc. done.
    + intros H; apply IH in H. rewrite H, children_sub_element, <- app_assoc. done.
Qed.

Lemma element_eta (e : element) : e = Element (tag e) (text e) (children e).
Proof. by destruct e. Qed.

Lemma sub_element_shape parent child :
  tag (sub_element parent child) = tag parent /\
  text (sub_element parent child) = text parent.
Proof. by destruct parent. Qed.

Lemma index_loop_shape projects root :
  tag (index_loop w projects root) = tag root /\
  text (index_loop w projects root) = text root.
Proof.
  revert root. induction projects as [|p ps IH]; intros root; simpl; [done|].
  destruct (get_project_sitemap_url p) as [u|]; [|apply IH].
  destruct (IH (sub_element root (sitemap_entry w u))) as [-> ->].
  apply sub_element_shape.
Qed.

Lemma clone_loop_shape entries root :
  tag (clone_loop w entries root) = tag root /\
  text (clone_loop w entries root) = text root.
Proof.
  revert root. induction entries as [|e es IH]; intros root; simpl; [done|].
  destruct (IH (sub_element root (clone_entry w e))) as [-> ->].
  apply sub_element_shape.
Qed.

Lemma unified_loop_shape projects root r :
  result (unified_loop w projects root) = Some r ->
  tag r = tag root /\ text r = text root.
Proof.
  revert root. induction projects as [|p ps IH]; intros root; simpl.
  - by intros [= <-].
  - destruct (get_project_sitemap_url p) as [u|].
    + rewrite bind_result.
      destruct (result (fetch_sitemap w u)) as [[sroot|]|]; [| |done];
        intros [-> ->]%IH.
      * apply clone_loop_shape.
      * apply sub_element_shape.
    + intros [-> ->]%IH. apply sub_element_shape.
Qed.

(** The document [generate_sitemap_index] returns. *)
Lemma sitemap_index_document projects include_main :
  generate_sitemap_index w projects include_main =
  prettify_xml w
    (Element (py "sitemapindex") None
       ((if include_main
         then [sitemap_entry w (BASE_URL ++ py "/" ++ MAIN_SITEMAP_PATH)] else [])
        ++ flat_map (index_entries w) projects)).
Proof.
  unfold generate_sitemap_index. f_equal.
  rewrite (element_eta (sitemap_index_root w projects include_main)).
  unfold sitemap_index_root.
  destruct (index_loop_shape projects
              (if include_main
               then sub_element (Element (py "sitemapindex") None [])
                      (sitemap_entry w (BASE_URL ++ py "/" ++ MAIN_SITEMAP_PATH))
               else Element (py "sitemapindex") None [])) as [-> ->].
  rewrite index_loop_children. by destruct include_main.
Qed.

(** The document [generate_unified_sitemap] returns when no request ends
    in an uncaught exception. *)
Lemma unified_document projects doc :
  result (generate_unified_sitemap w projects) = Some doc ->
  doc = prettify_xml w
          (Element (py "urlset") None
             (main_url_entry w :: flat_map (unified_entries w) projects)).
Proof.
  unfold generate_unified_sitemap. rewrite bind_result.
  destruct (result (unified_root w projects)) as [root|] eqn:Hr; [|done].
  simpl. intros [= <-]. f_equal. unfold unified_root in Hr.
  rewrite (element_eta root).
  destruct (unified_loop_shape _ _ _ Hr) as [-> ->].
  apply unified_loop_children in Hr. by rewrite Hr.
Qed.

(** C7.  A project without [docs] key whose [sitemap] key is null gets the
    [url] entry with the location [/] in the unified sitemap: the script
    reads the docs URL with the empty string as default, where
    [generate.py] derives it from the repository name. *)
Theorem null_sitemap_without_docs :
  generate_unified_sitemap w [proj_nodocs_null] =
    ([], Some (prettify_xml w
                 (Element (py "urlset") None
                    [ main_url_entry w;
                      Element (py "url") None
                        [ leaf (py "loc") (py "/");
                          leaf (py "lastmod") (today w);
                          leaf (py "priority") (py "0.8") ] ]))) /\
  Generate.docs_url_of proj_nodocs_null = py "https://meta-pytorch.org/delta/".
Proof. split; reflexivity. Qed.

(** X27.  A project with a [docs] key whose [sitemap] key is null
    contributes no entry to the sitemap index and exactly one [url] entry to
    the unified sitemap: its docs URL with one trailing slash, at priority
    0.8. *)
Theorem null_sitemap_entries (before after : list project) (p : project)
  (docs : str) (include_main : bool) :
  p_sitemap p = Some None -> p_docs p = Some docs ->
  generate_sitemap_index w (before ++ p :: after) include_main =
    prettify_xml w
      (Element (py "sitemapindex") None
         ((if include_main
           then [sitemap_entry w (BASE_URL ++ py "/" ++ MAIN_SITEMAP_PATH)] else [])
          ++ flat_map (index_entries w) before ++ flat_map (index_entries w) after))
  /\
  forall doc,
    result (generate_unified_sitemap w (before ++ p :: after)) = Some doc ->
    doc = prettify_xml w
            (Element (py "urlset") None
               (main_url_entry w :: flat_map (unified_entries w) before
                ++ [ Element (py "url") None
                       [ leaf (py "loc") (rstrip_slash docs ++ py "/");
                         leaf (py "lastmod") (today w);
                         leaf (py "priority") (py "0.8") ] ]
                ++ flat_map (unified_entries w) after)).
Proof.
  intros Hp Hd.
  assert (Hu : get_project_sitemap_url p = None)
    by (unfold get_project_sitemap_url; by rewrite Hp).
  split.
  - rewrite sitemap_index_document, flat_map_app. cbn [flat_map].
    unfold index_entries at 2. rewrite Hu. reflexivity.
  - intros doc H. apply unified_document in H. rewrite H, flat_map_app.
    cbn [flat_map]. unfold unified_entries at 2. rewrite Hu.
    unfold docs_root_entry. rewrite Hd. reflexivity.
Qed.

End Props.

(** X26 on the sample registry. *)
Lemma sitemap_url_of_docs_witness :
  get_project_sitemap_url proj_explicit = Some (py "https://beta.example/map.xml") /\
  get_project_sitemap_url proj_null = None /\
  exists stem slashes,
    py "https://alpha.example/docs/" = stem ++ slashes /\
    forallb (N.eqb 47) slashes = true /\
    (forall c, last stem = Some c -> c <> 47) /\
    get_project_sitemap_url proj_default = Some (stem ++ py "/sitemap.xml").
Proof.
  split; [|split].
  - apply (proj1 (sitemap_url_of_docs proj_explicit (py "https://beta.example/")
                    eq_refl)). reflexivity.
  - apply (proj1 (sitemap_url_of_docs proj_null (py "https://gamma.example/docs")
                    eq_refl)). reflexivity.
  - apply (proj2 (sitemap_url_of_docs proj_default (py "https://alpha.example/docs/")
                    eq_refl)). reflexivity.
Defined.

(** C6 on the sample registry, with the hosts up and down. *)
Lemma validate_exit_code_witness :
  written (main sample_world validate_args [proj_default; proj_null]) = [] /\
  exit_code (main down_world validate_args [proj_null; proj_explicit]) = 1.
Proof.
  split.
  - apply (validate_exit_code sample_world validate_args [proj_default; proj_null]).
    reflexivity.
  - apply (validate_exit_code down_world validate_args [proj_null; proj_explicit]).
    + reflexivity.
    + apply Exists_cons_tl, Exists_cons_hd.
      exists (py "https://beta.example/map.xml"). split; [reflexivity|].
      intros (c & r & Hc & _). discriminate Hc.
Defined.

(** X27 on the sample registry: the index and the unified sitemap. *)
Lemma null_sitemap_entries_witness :
  generate_sitemap_index sample_world
      ([proj_default] ++ proj_null :: [proj_explicit]) true =
    prettify_xml sample_world
      (Element (py "sitemapindex") None
         ([sitemap_entry sample_world (BASE_URL ++ py "/" ++ MAIN_SITEMAP_PATH)]
          ++ flat_map (index_entries sample_world) [proj_default]
          ++ flat_map (index_entries sample_world) [proj_explicit])) /\
  exists doc,
    result (generate_unified_sitemap sample_world
              ([proj_default] ++ proj_null :: [proj_explicit])) = Some doc /\
    doc = prettify_xml sample_world
            (Element (py "urlset") None
               (main_url_entry sample_world
                :: flat_map (unified_entries sample_world) [proj_default]
                ++ [ Element (py "url") None
                       [ leaf (py "loc")
                           (rstrip_slash (py "https://gamma.example/docs") ++ py "/");
                         leaf (py "lastmod") (today sample_world);
                         leaf (py "priority") (py "0.8") ] ]
                ++ flat_map (unified_entries sample_world) [proj_explicit])).
Proof.
  split.
  - apply (proj1 (null_sitemap_entries sample_world [proj_default] [proj_explicit]
                    proj_null (py "https://gamma.example/docs") true
                    eq_refl eq_refl)).
  - destruct (result (generate_unified_sitemap sample_world
                        ([proj_default] ++ proj_null :: [proj_explicit])))
      as [doc|] eqn:E; [|vm_compute in E; discriminate E].
    exists doc. split; [reflexivity|].
    apply (proj2 (null_sitemap_entries sample_world [proj_default] [proj_explicit]
                    proj_null (py "https://gamma.example/docs") true
                    eq_refl eq_refl) doc E).
Defined.

End SitemapProps.

(* ===================================================================== *)
(** ** [generate.py]                                                       *)
(* ===================================================================== *)

Module GenerateProps.
Import Generate GenerateNotions.

Section Props.
Context `{U : Unicode} (w : World).

Lemma handle_raises self e : handle self e = None <-> raises e = true.
Proof.
  destruct e as [t attrs| |]; simpl; [|done..].
  unfold handle_starttag. destruct (str_eqb t (py "meta")); [|done].
  rewrite andb_true_l, bool_decide_eq_true.
  destruct (get_or_empty (dict_of_attrs attrs) (py "name")) as [name|]; [|done].
  destruct (str_eqb (lower name) (py "description")); done.
Qed.

Lemma handle_description self e self' :
  handle self e = Some self' ->
  description self' = default (description self) (meta_description e).
Proof.
  destruct e as [t attrs|t|d]; simpl.
  - unfold handle_starttag. destruct (str_eqb t (py "meta")).
    + destruct (get_or_empty (dict_of_attrs attrs) (py "name")) as [name|]; [|done].
      destruct (str_eqb (lower name) (py "description")); intros [= <-]; simpl; [done|].
      by destruct (str_eqb t (py "title")).
    + intros [= <-]. by destruct (str_eqb t (py "title")).
  - intros [= <-]. unfold handle_endtag. by destruct (str_eqb t (py "title")).
  - intros [= <-]. unfold handle_data. by destruct (in_title self).
Qed.

Lemma feed_description self evs :
  description (feed self evs) =
  default (description self) (last (omap meta_description (processed evs))).
Proof.
  revert self. induction evs as [|e rest IH]; intros self; simpl; [done|].
  destruct (handle self e) as [self'|] eqn:He.
  - assert (raises e = false) as ->.
    { destruct (raises e) eqn:Hr; [|done]. apply handle_raises with (self:=self) in Hr. congruence. }
    rewrite IH. rewrite (handle_description _ _ _ He). simpl.
    destruct (meta_description e) as [d|]; simpl; [|done].
    rewrite last_cons. by destruct (last _).
  - apply handle_raises in He. by rewrite He.
Qed.

Lemma startswith_spec p s : startswith p s = true <-> exists t, s = p ++ t.
Proof.
  revert s. induction p as [|a p IH]; intros s; simpl.
  - split; [intros _; by exists s | done].
  - destruct s as [|b s].
    + split; [done | intros [t Ht]; discriminate].
    + rewrite andb_true_iff, N.eqb_eq, IH. split.
      * intros [-> [t ->]]. by exists t.
      * intros [t [= -> ->]]. eauto.
Qed.

Lemma split1_spec sep s :
  contains sep s = true ->
  exists a b,
    split1 sep s = [a; b] /\ s = a ++ sep ++ b /\
    (forall a' b', s = a' ++ sep ++ b' -> (length a <= length a')%nat).
Proof.
  induction s as [|c r IH].
  - simpl. rewrite orb_false_r. intros H. rewrite H.
    apply startswith_spec in H as [t Ht].
    exists [], (drop (length sep) []). split; [done|]. split.
    + symmetry in Ht. apply app_eq_nil in Ht as [-> ->]. done.
    + intros; simpl; lia.
  - intros H. cbn [split1]. cbn [contains] in H.
    destruct (startswith sep (c :: r)) eqn:Hs.
    + apply startswith_spec in Hs as [t Ht].
      exists [], (drop (length sep) (c :: r)). split; [done|]. split.
      * rewrite Ht, drop_app_length. done.
      * intros; simpl; lia.
    + simpl in H. destruct (IH H) as (a & b & Hsp & Hr & Hfirst).
      rewrite Hsp. exists (c :: a), b. split; [done|]. split.
      * by rewrite Hr.
      * intros a' b' Heq. destruct a' as [|c' a'].
        -- exfalso. assert (startswith sep (c :: r) = true); [|congruence].
           apply startswith_spec. by exists b'.
        -- simpl in Heq. injection Heq as -> Heq. apply Hfirst in Heq. simpl. lia.
Qed.

(** C4.  Of two version numbers in a row only the first is removed from
    the suffix: the title [Guide — Torchy 2.1 3.0 documentation] becomes
    [Guide - Torchy 3.0].  The sample title of the specification, with one
    version number, becomes [API Reference - Torchy]. *)
Theorem adjacent_version_kept :
  result (_extract_page_info versions_world (py "https://docs.example/guide"))
    = Some (Some (py "Guide - Torchy 3.0"), None) /\
  result (_extract_page_info versions_world (py "https://docs.example/api"))
    = Some (Some (py "API Reference - Torchy"), None).
Proof. split; vm_compute; reflexivity. Qed.

(** C2, amended.  The description the extractor holds after a document is
    that of the last matching [meta] tag among the tags whose callbacks
    complete (the empty string when there is none); a later matching tag
    replaces an earlier one.  For a page fetched with status 200,
    [_extract_page_info] returns it stripped, or nothing when it is blank;
    when that last tag has a [content] attribute without a value, the call
    ends in an exception instead. *)
Theorem description_is_last_match (url body : str) :
  description (feed MetaExtractor_init (html_events w body)) =
    last_description (processed (html_events w body)) /\
  (urlopen w url = Some (200, body) ->
   match last_description (processed (html_events w body)) with
   | Some d =>
     exists t, result (_extract_page_info w url) = Some (t, or_None (strip d))
   | None => result (_extract_page_info w url) = None
   end).
Proof.
  split; [apply feed_description|].
  intros Hopen. unfold _extract_page_info. rewrite bind_result.
  unfold _fetch. simpl. rewrite Hopen. simpl.
  rewrite feed_description. unfold last_description.
  change (description MetaExtractor_init) with (Some (@nil N)).
  destruct (default _ _); simpl; [eauto|done].
Qed.

(** *** Sitemap discovery *)

Lemma fetch_eq url : _fetch w url = ([url], Some (fetched w url)).
Proof. reflexivity. Qed.

Lemma bind_fetch {B} url (f : N * str -> Net B) :
  bind (_fetch w url) f = ((url :: requests (f (fetched w url))), result (f (fetched w url))).
Proof. rewrite fetch_eq. unfold bind. by destruct (f (fetched w url)). Qed.

Lemma sitemap_index_loop_total els urls :
  exists r, result (sitemap_index_loop w els urls) = Some r.
Proof.
  revert urls. induction els as [|el rest IH]; intros urls; simpl; [eauto|].
  destruct (findtext _ el) as [loc|]; [|apply IH].
  destruct (nonempty loc); [|apply IH].
  rewrite bind_fetch. simpl. destruct (fetched w loc) as [st body].
  destruct ((st =? 200) && nonempty body); [|apply IH].
  destruct (xml_fromstring w _); apply IH.
Qed.

Lemma sitemap_paths_loop_total base paths urls :
  exists r, result (sitemap_paths_loop w base paths urls) = Some r.
Proof.
  revert urls. induction paths as [|p rest IH]; intros urls; simpl; [eauto|].
  rewrite bind_fetch. simpl. destruct (fetched w (base ++ p)) as [st body].
  destruct (negb (st =? 200) || negb (nonempty (strip body))); [apply IH|].
  destruct (xml_fromstring w _) as [root|]; [|apply IH].
  rewrite bind_result.
  destruct (sitemap_index_loop_total (iter (py "sitemap") root) urls) as [u1 ->].
  destruct (nonempty (u1 ++ url_locs root)); [simpl; eauto|apply IH].
Qed.

Lemma paths_loop_unparseable base p rest urls :
  candidate_unparseable w (base ++ p) ->
  sitemap_paths_loop w base (p :: rest) urls =
  (r <- _fetch w (base ++ p) ;; sitemap_paths_loop w base rest urls).
Proof.
  unfold candidate_unparseable. simpl. rewrite !bind_fetch.
  destruct (fetched w (base ++ p)) as [st body]. simpl.
  intros (-> & Hbody & Hparse). rewrite Hbody, Hparse. done.
Qed.

Lemma paths_loop_unfetched base p rest urls :
  candidate_unfetched w (base ++ p) ->
  sitemap_paths_loop w base (p :: rest) urls =
  (r <- _fetch w (base ++ p) ;; sitemap_paths_loop w base rest urls).
Proof.
  unfold candidate_unfetched. simpl. rewrite !bind_fetch.
  destruct (fetched w (base ++ p)) as [st body]. simpl.
  intros H. by rewrite H.
Qed.

Lemma paths_loop_break base paths extra urls :
  result (sitemap_paths_loop w base paths []) = Some urls -> urls <> [] ->
  sitemap_paths_loop w base (paths ++ extra) [] =
  sitemap_paths_loop w base paths [].
Proof.
  intros Hres Hne. induction paths as [|p rest IH]; simpl in *.
  - by injection Hres as <-.
  - rewrite !bind_fetch. rewrite bind_fetch in Hres. simpl in Hres.
    destruct (fetched w (base ++ p)) as [st body].
    destruct (negb (st =? 200) || negb (nonempty (strip body)));
      [by rewrite IH|].
    destruct (xml_fromstring w _) as [root|]; [|by rewrite IH].
    match goal with
    | |- (_ :: requests ?X, _) = (_ :: requests ?Y, _) =>
      enough (X = Y) as -> by done
    end.
    apply bind_congr. intros u1 Hu1. rewrite bind_result, Hu1 in Hres.
    destruct (u1 ++ url_locs root) eqn:E; simpl in *; [by apply IH | done].
Qed.

Lemma paths_loop_nothing base paths :
  (forall p, p ∈ paths ->
     candidate_unfetched w (base ++ p) \/ candidate_unparseable w (base ++ p) \/
     candidate_empty w (base ++ p)) ->
  result (sitemap_paths_loop w base paths []) = Some [].
Proof.
  induction paths as [|p rest IH]; intros H; [done|].
  assert (IH' : result (sitemap_paths_loop w base rest []) = Some []).
  { apply IH. intros q Hq. apply H. by right. }
  destruct (H p) as [Hu|[Hu|(Hst & Hbody & root & Hparse & Hidx & Hlocs)]]; [by left|..].
  - rewrite paths_loop_unfetched, bind_result by done. done.
  - rewrite paths_loop_unparseable, bind_result by done. done.
  - simpl. rewrite bind_fetch. simpl.
    destruct (fetched w (base ++ p)) as [st body]. simpl in *. subst st.
    rewrite Hbody, Hparse. simpl. rewrite bind_result, Hidx, Hlocs. done.
Qed.

Lemma fetched_fail_at url x :
  fetched (fail_at w url) x = if str_eqb x url then (0, []) else fetched w x.
Proof. unfold fetched, fail_at. simpl. by destruct (str_eqb x url). Qed.

Lemma bind_fetch_congr {B} (w1 w2 : World) url (f g : N * str -> Net B) :
  f (fetched w1 url) = g (fetched w2 url) ->
  bind (_fetch w1 url) f = bind (_fetch w2 url) g.
Proof.
  intros H. change (_fetch w1 url) with ([url], Some (fetched w1 url)).
  change (_fetch w2 url) with ([url], Some (fetched w2 url)).
  unfold bind. by rewrite H.
Qed.

Lemma nonempty_strip (s : str) : nonempty (strip s) = true -> nonempty s = true.
Proof. by destruct s. Qed.

Section FailAt.
Context (url : str) (Hbad : candidate_unparseable w url).

Lemma sitemap_index_loop_fail_at els urls :
  sitemap_index_loop (fail_at w url) els urls = sitemap_index_loop w els urls.
Proof.
  destruct Hbad as (Hst & Hbody & Hparse).
  revert urls. induction els as [|el rest IH]; intros urls; simpl; [done|].
  destruct (findtext _ el) as [loc|]; [|apply IH].
  destruct (nonempty loc); [|apply IH].
  apply bind_fetch_congr. rewrite fetched_fail_at. unfold str_eqb.
  case_bool_decide as Heq.
  - subst loc. simpl. destruct (fetched w url) as [st body]. simpl in *. subst st.
    rewrite (nonempty_strip _ Hbody), Hparse. simpl. apply IH.
  - destruct (fetched w loc) as [st body].
    destruct ((st =? 200) && nonempty body); [|apply IH].
    destruct (xml_fromstring w (strip_xmlns body)); apply IH.
Qed.

Lemma sitemap_paths_loop_fail_at base paths urls :
  sitemap_paths_loop (fail_at w url) base paths urls =
  sitemap_paths_loop w base paths urls.
Proof.
  destruct Hbad as (Hst & Hbody & Hparse).
  revert urls. induction paths as [|p rest IH]; intros urls; simpl; [done|].
  apply bind_fetch_congr. rewrite fetched_fail_at. unfold str_eqb.
  case_bool_decide as Heq.
  - rewrite Heq. simpl. destruct (fetched w url) as [st body]. simpl in *. subst st.
    rewrite Hbody, Hparse. simpl. apply IH.
  - destruct (fetched w (base ++ p)) as [st body].
    destruct (negb (st =? 200) || negb (nonempty (strip body))); [apply IH|].
    destruct (xml_fromstring w (strip_xmlns body)) as [root|]; [|apply IH].
    rewrite sitemap_index_loop_fail_at. apply bind_congr. intros u1 _.
    destruct (nonempty (u1 ++ url_locs root)); [done|apply IH].
Qed.

End FailAt.

(** C3.  Sitemap discovery (a) treats a candidate whose body is not XML as
    it treats one that could not be fetched, going on to the next candidate;
    (b) tries no further candidate once the collected list is non-empty;
    (c) returns the empty list when every candidate is unfetched,
    unparseable or empty; and it never ends in an exception. *)
Theorem sitemap_discovery (docs_url : str) :
  let base := rstrip_slash docs_url in
  (forall p rest urls,
     candidate_unparseable w (base ++ p) ->
     sitemap_paths_loop w base (p :: rest) urls =
       (r <- _fetch w (base ++ p) ;; sitemap_paths_loop w base rest urls) /\
     _fetch_sitemap_urls (fail_at w (base ++ p)) docs_url =
       _fetch_sitemap_urls w docs_url) /\
  (forall tried extra urls,
     sitemap_paths = tried ++ extra ->
     result (sitemap_paths_loop w base tried []) = Some urls -> urls <> [] ->
     _fetch_sitemap_urls w docs_url = sitemap_paths_loop w base tried []) /\
  ((forall p, p ∈ sitemap_paths ->
      candidate_unfetched w (base ++ p) \/ candidate_unparseable w (base ++ p) \/
      candidate_empty w (base ++ p)) ->
   result (_fetch_sitemap_urls w docs_url) = Some []) /\
  (exists urls, result (_fetch_sitemap_urls w docs_url) = Some urls).
Proof.
  intros base. split; [|split; [|split]].
  - intros p rest urls Hbad. split; [by apply paths_loop_unparseable|].
    by apply sitemap_paths_loop_fail_at.
  - intros tried extra urls Hp Hres Hne. unfold _fetch_sitemap_urls.
    rewrite Hp. by eapply paths_loop_break.
  - apply paths_loop_nothing.
  - apply sitemap_paths_loop_total.
Qed.

(** *** Manual pages and deduplication *)

Lemma manual_loop_pages pgs pages urls :
  (manual_loop pgs pages urls).1 = pages ++ map manual_entry pgs.
Proof.
  revert pages urls. induction pgs as [|pg rest IH]; intros pages urls; simpl.
  - by rewrite app_nil_r.
  - rewrite IH, <- app_assoc. done.
Qed.

Lemma manual_loop_urls pgs pages urls k :
  k ∈ (manual_loop pgs pages urls).2 <->
  k ∈ urls \/ k ∈ map (fun pg => rstrip_slash (mp_url pg)) pgs.
Proof.
  revert pages urls. induction pgs as [|pg rest IH]; intros pages urls; simpl.
  - rewrite elem_of_nil. tauto.
  - rewrite IH, elem_of_union, elem_of_singleton, elem_of_cons. tauto.
Qed.

Lemma dedup_loop_acc pages seen acc :
  dedup_loop pages seen acc = acc ++ dedup_loop pages seen [].
Proof.
  revert seen acc. induction pages as [|pg rest IH]; intros seen acc; simpl.
  - by rewrite app_nil_r.
  - case_bool_decide.
    + apply IH.
    + rewrite IH, (IH _ ([] ++ [pg])), <- app_assoc. done.
Qed.

Lemma dedup_loop_cons pg rest seen :
  dedup_loop (pg :: rest) seen [] =
  if bool_decide (norm_url pg ∈ seen) then dedup_loop rest seen []
  else pg :: dedup_loop rest ({[ norm_url pg ]} ∪ seen) [].
Proof.
  simpl. fold (norm_url pg). case_bool_decide; [done|].
  rewrite dedup_loop_acc. done.
Qed.

Lemma dedup_loop_sublist pages seen :
  dedup_loop pages seen [] `sublist_of` pages.
Proof.
  revert seen. induction pages as [|pg rest IH]; intros seen.
  - constructor.
  - rewrite dedup_loop_cons. case_bool_decide.
    + by apply sublist_cons.
    + by apply sublist_skip.
Qed.

Lemma dedup_loop_elem pages seen pg :
  pg ∈ dedup_loop pages seen [] <->
  (norm_url pg ∉ seen) /\
  exists l1 l2, pages = l1 ++ pg :: l2 /\
                forall x, x ∈ l1 -> norm_url x <> norm_url pg.
Proof.
  revert seen. induction pages as [|p0 rest IH]; intros seen.
  - simpl. rewrite elem_of_nil. split; [done|].
    intros (_ & l1 & l2 & H & _). by destruct l1.
  - rewrite dedup_loop_cons. case_bool_decide as Hin.
    + rewrite IH. split.
      * intros (Hs & l1 & l2 & -> & Hl). split; [done|].
        exists (p0 :: l1), l2. split; [done|].
        intros x [->|Hx]%elem_of_cons; [|by apply Hl].
        intros Heq. rewrite Heq in Hin. done.
      * intros (Hs & l1 & l2 & Heq & Hl). split; [done|].
        destruct l1 as [|x l1]; simplify_eq/=; [done|].
        exists l1, l2. split; [done|]. intros y Hy. apply Hl. by right.
    + rewrite elem_of_cons, IH. split.
      * intros [->|(Hs & l1 & l2 & -> & Hl)].
        -- split; [done|]. exists [], rest. split; [done|].
           intros x Hx. by apply elem_of_nil in Hx.
        -- apply not_elem_of_union in Hs as [Hne%not_elem_of_singleton Hs].
           split; [done|]. exists (p0 :: l1), l2. split; [done|].
           intros x [->|Hx]%elem_of_cons; [congruence|by apply Hl].
      * intros (Hs & l1 & l2 & Heq & Hl).
        destruct l1 as [|x l1]; simplify_eq/=; [by left|]. right.
        split.
        -- apply not_elem_of_union. split; [|done].
           apply not_elem_of_singleton. intros Heq. symmetry in Heq.
           revert Heq. apply Hl. by left.
        -- exists l1, l2. split; [done|]. intros y Hy. apply Hl. by right.
Qed.

Lemma dedup_loop_NoDup pages seen :
  NoDup (map norm_url (dedup_loop pages seen [])).
Proof.
  revert seen. induction pages as [|p0 rest IH]; intros seen.
  - constructor.
  - rewrite dedup_loop_cons. case_bool_decide as Hin; [apply IH|].
    simpl. constructor; [|apply IH].
    rewrite elem_of_map. intros (y & Heq & Hy).
    apply dedup_loop_elem in Hy as [Hy _]. rewrite <- Heq in Hy.
    apply Hy, elem_of_union. left. by apply elem_of_singleton.
Qed.

Lemma or_None_Some s t : or_None s = Some t -> t = s /\ t <> [].
Proof. unfold or_None. destruct s; simpl; [done|]. intros [= <-]. done. Qed.

Lemma extract_title_nonempty url t d :
  result (_extract_page_info w url) = Some (Some t, d) -> t <> [].
Proof.
  unfold _extract_page_info. rewrite bind_result. simpl.
  destruct (urlopen w url) as [[status body]|]; simpl.
  - destruct (negb (status =? 200)); simpl; [done|].
    destruct (description _); simpl; [|done].
    intros [= H _]. by apply or_None_Some in H as [_ H].
  - done.
Qed.

Lemma crawl_loop_appends proj mu urls pages pages' :
  result (crawl_loop w proj mu urls pages) = Some pages' ->
  exists crawled,
    pages' = pages ++ crawled /\
    Forall (fun pg => (norm_url pg ∉ mu) /\ _should_skip_url (pg_url pg) = false /\
                      pg_title pg <> []) crawled.
Proof.
  revert pages. induction urls as [|u rest IH]; intros pages; simpl.
  - intros [= <-]. exists []. by rewrite app_nil_r.
  - case_bool_decide as Hm; [apply IH|].
    destruct (_should_skip_url u) eqn:Hskip; [apply IH|].
    rewrite bind_result.
    destruct (result (_extract_page_info w u)) as [[[t|] d]|] eqn:He; [| |done].
    + intros H. apply IH in H as (crawled & -> & Hall).
      eexists (_ :: crawled). rewrite <- app_assoc. split; [reflexivity|].
      constructor; [|done]. simpl. split; [done|]. split; [done|].
      apply extract_title_nonempty in He.
      destruct (negb _); [|done]. by destruct t.
    + apply IH.
Qed.

Lemma generate_project_pages offline proj c e :
  result (generate_project w offline proj) = Some (c, e) ->
  let manual := default [] (p_pages proj) in
  if crawls offline proj then
    exists sitemap_urls pages',
      result (_fetch_sitemap_urls w (docs_url_of proj)) = Some sitemap_urls /\
      result (crawl_loop w proj (manual_loop manual [] ∅).2 sitemap_urls
                (map manual_entry manual)) = Some pages' /\
      s_pages e = dedup_loop pages' ∅ []
  else s_pages e = map manual_entry manual.
Proof.
  unfold generate_project, crawls, docs_url_of.
  pose proof (manual_loop_pages (default [] (p_pages proj)) [] ∅) as Hp.
  destruct (manual_loop _ _ _) as [pages mu]. simpl in Hp. subst pages. simpl.
  destruct (negb offline && _is_crawlable _).
  - rewrite !bind_result.
    destruct (result (_fetch_sitemap_urls _ _)) as [sitemap_urls|]; [|done].
    rewrite bind_result.
    destruct (result (crawl_loop _ _ _ _ _)) as [pages'|] eqn:Hc; [|done].
    simpl. intros [= _ <-]. simpl. exists sitemap_urls, pages'. done.
  - rewrite bind_ret_l. simpl. intros [= _ <-]. done.
Qed.

Lemma manual_urls_spec (pgs : list manual_page) k :
  k ∈ (manual_loop pgs [] ∅).2 <-> k ∈ map norm_url (map manual_entry pgs).
Proof.
  rewrite manual_loop_urls, map_map. unfold norm_url. simpl.
  rewrite elem_of_empty. tauto.
Qed.

(** C1, amended.  When the project is crawled (online, crawlable docs URL)
    the page list has no two entries with the same normalized URL, keeps
    the first occurrence of each in the order manual pages then crawled
    pages, and a manual page wins over a crawled one; when it is not
    crawled the list is the declared manual pages, as they are. *)
Theorem crawl_pages_deduplicated offline proj c e :
  result (generate_project w offline proj) = Some (c, e) ->
  let manual := map manual_entry (default [] (p_pages proj)) in
  (crawls offline proj = false -> s_pages e = manual) /\
  (crawls offline proj = true ->
   NoDup (map norm_url (s_pages e)) /\
   exists crawled,
     s_pages e `sublist_of` (manual ++ crawled) /\
     (forall pg,
        pg ∈ s_pages e <->
        exists l1 l2, manual ++ crawled = l1 ++ pg :: l2 /\
                      forall x, x ∈ l1 -> norm_url x <> norm_url pg) /\
     (forall pg, pg ∈ crawled -> norm_url pg ∉ map norm_url manual) /\
     (forall pg, pg ∈ s_pages e -> norm_url pg ∈ map norm_url manual ->
                 pg ∈ manual)).
Proof.
  intros Hres manual. apply generate_project_pages in Hres.
  split; intros Hcrawl; rewrite Hcrawl in Hres; [done|].
  destruct Hres as (sitemap_urls & pages' & _ & Hloop & ->).
  split; [apply dedup_loop_NoDup|].
  apply crawl_loop_appends in Hloop as (crawled & -> & Hall).
  fold manual. exists crawled.
  assert (Hcr : forall pg, pg ∈ crawled -> norm_url pg ∉ map norm_url manual).
  { intros pg Hpg. rewrite Forall_forall in Hall. destruct (Hall pg Hpg) as [Hn _].
    intros Hin. apply Hn. by apply manual_urls_spec. }
  split; [apply dedup_loop_sublist|]. split; [|split; [done|]].
  - intros pg. rewrite dedup_loop_elem. split; [by intros [_ H]|].
    intros H. split; [apply not_elem_of_empty | done].
  - intros pg Hpg Hkey.
    assert (pg ∈ manual ++ crawled) as [H|H]%elem_of_app; [|done|].
    + eapply elem_of_sublist; [exact Hpg | apply dedup_loop_sublist].
    + by apply Hcr in H.
Qed.




(** C10, amended.  A manual page is emitted as declared, whatever its URL
    and title (no skip pattern and no title check applies to it), when the
    project is not crawled, or when no earlier manual page of the project
    has the same normalized URL. *)
Theorem manual_pages_kept offline proj c e before m after :
  result (generate_project w offline proj) = Some (c, e) ->
  default [] (p_pages proj) = before ++ m :: after ->
  crawls offline proj = false \/
  (forall x, x ∈ before -> rstrip_slash (mp_url x) <> rstrip_slash (mp_url m)) ->
  manual_entry m ∈ s_pages e.
Proof.
  intros Hres Hm Hcond. apply generate_project_pages in Hres. simpl in Hres.
  rewrite Hm in Hres.
  destruct (crawls offline proj) eqn:Hcrawl.
  - destruct Hcond as [?|Hfirst]; [done|].
    destruct Hres as (sitemap_urls & pages' & _ & Hloop & ->).
    apply crawl_loop_appends in Hloop as (crawled & -> & _).
    apply dedup_loop_elem. split; [apply not_elem_of_empty|].
    exists (map manual_entry before), (map manual_entry after ++ crawled).
    split.
    + rewrite map_app. simpl. rewrite <- app_assoc. done.
    + intros x (y & -> & Hy)%elem_of_map. by apply Hfirst.
  - rewrite Hres, map_app. simpl. apply elem_of_app. right. by left.
Qed.

End Props.

(** *** Determinism *)

Section SameResponses.
Context `{U : Unicode} (w1 w2 : World).
Context (Hhtml : forall b, html_events w1 b = html_events w2 b).
Context (Hxml : forall b, xml_fromstring w1 b = xml_fromstring w2 b).
Context (Hjson : forall v, json_dump w1 v = json_dump w2 v).

Local Abbreviation agree l := (forall u, u ∈ l -> urlopen w1 u = urlopen w2 u).









End SameResponses.


(** C1 as stated fails offline: two manual pages whose URLs differ by a
    trailing slash are both emitted. *)
Lemma offline_duplicates_counterexample :
  (s_pages ∘ snd) <$> result (@generate_project ascii_unicode down_world true dup_project)
    = Some [manual_entry page_a; manual_entry page_b] /\
  norm_url (manual_entry page_a) = norm_url (manual_entry page_b) /\
  ~ NoDup (map norm_url [manual_entry page_a; manual_entry page_b]).
Proof.
  split; [vm_compute; reflexivity|]. split; [vm_compute; reflexivity|].
  intros H. apply NoDup_cons in H as [H _]. apply H. vm_compute. by left.
Qed.

(** C10 as stated fails online: a manual page with a skip pattern in its
    URL and an empty title is dropped when an earlier manual page has the
    same normalized URL. *)
Lemma manual_duplicate_counterexample :
  _should_skip_url (mp_url page_b) = true /\
  mp_title page_b = [] /\
  crawls false dup_project = true /\
  (s_pages ∘ snd) <$> result (@generate_project ascii_unicode down_world false dup_project)
    = Some [manual_entry page_a] /\
  manual_entry page_b ∉ [manual_entry page_a].
Proof.
  split; [vm_compute; reflexivity|]. split; [reflexivity|].
  split; [vm_compute; reflexivity|]. split; [vm_compute; reflexivity|].
  intros H. apply list_elem_of_singleton in H. discriminate H.
Qed.

(** C2 as stated fails: with two matching [meta] tags the extractor holds
    the description of the second. *)
Lemma first_match_counterexample :
  description (@feed ascii_unicode MetaExtractor_init two_metas)
    = Some (py "second") /\
  @first_description ascii_unicode two_metas = Some (py "first") /\
  description (@feed ascii_unicode MetaExtractor_init two_metas)
    <> @first_description ascii_unicode two_metas.
Proof. vm_compute. split; [reflexivity|]. split; [reflexivity|]. discriminate. Qed.


(** C1, amended, on the sample host. *)
Lemma crawl_pages_deduplicated_witness :
  exists c e,
    result (@generate_project ascii_unicode sample_world false dup_project)
      = Some (c, e) /\
    NoDup (map norm_url (s_pages e)).
Proof.
  destruct (result (@generate_project ascii_unicode sample_world false dup_project))
    as [[c e]|] eqn:E; [|vm_compute in E; discriminate E].
  exists c, e. split; [reflexivity|].
  apply (proj2 (@crawl_pages_deduplicated ascii_unicode sample_world false
                  dup_project c e E)).
  vm_compute. reflexivity.
Defined.

(** C2, amended, on the guide page of the sample host. *)
Lemma description_is_last_match_witness :
  match @last_description ascii_unicode
          (processed (html_events sample_world (py "GUIDE"))) with
  | Some d =>
    exists t,
      result (@_extract_page_info ascii_unicode sample_world
                (py "https://docs.example/guide"))
        = Some (t, or_None (@strip ascii_unicode d))
  | None =>
    result (@_extract_page_info ascii_unicode sample_world
              (py "https://docs.example/guide")) = None
  end.
Proof.
  apply (proj2 (@description_is_last_match ascii_unicode sample_world
                  (py "https://docs.example/guide") (py "GUIDE"))).
  vm_compute. reflexivity.
Defined.

(** C3 on the sample host and on hosts that are down. *)
Lemma sitemap_discovery_witness :
  @_fetch_sitemap_urls ascii_unicode
      (fail_at sample_world
         (rstrip_slash (py "https://docs.example/") ++ py "/sitemap.xml"))
      (py "https://docs.example/")
    = @_fetch_sitemap_urls ascii_unicode sample_world (py "https://docs.example/") /\
  @_fetch_sitemap_urls ascii_unicode sample_world (py "https://docs.example/")
    = @sitemap_paths_loop ascii_unicode sample_world
        (rstrip_slash (py "https://docs.example/"))
        [py "/sitemap.xml"; py "/stable/sitemap.xml"] [] /\
  result (@_fetch_sitemap_urls ascii_unicode down_world (py "https://docs.example/"))
    = Some [].
Proof.
  split; [|split].
  - apply (proj1 (@sitemap_discovery ascii_unicode sample_world
                    (py "https://docs.example/")) (py "/sitemap.xml") [] []).
    unfold candidate_unparseable. vm_compute. split; [|split]; reflexivity.
  - apply (proj1 (proj2 (@sitemap_discovery ascii_unicode sample_world
                           (py "https://docs.example/")))
             [py "/sitemap.xml"; py "/stable/sitemap.xml"]
             (drop 2 sitemap_paths)
             [py "https://docs.example/guide";
              py "https://docs.example/_static/logo/";
              py "https://docs.example/_static/app.js";
              py "https://docs.example/guide/"]).
    + reflexivity.
    + vm_compute. reflexivity.
    + discriminate.
  - apply (proj1 (proj2 (proj2 (@sitemap_discovery ascii_unicode down_world
                                  (py "https://docs.example/"))))).
    intros p _. left. unfold candidate_unfetched. reflexivity.
Defined.


(** C10, amended, on the first manual page of the sample project. *)
Lemma manual_pages_kept_witness :
  exists c e,
    result (@generate_project ascii_unicode sample_world false dup_project)
      = Some (c, e) /\
    manual_entry page_a ∈ s_pages e.
Proof.
  destruct (result (@generate_project ascii_unicode sample_world false dup_project))
    as [[c e]|] eqn:E; [|vm_compute in E; discriminate E].
  exists c, e. split; [reflexivity|].
  apply (@manual_pages_kept ascii_unicode sample_world false dup_project c e
           [] page_a [page_b] E).
  - reflexivity.
  - right. intros x Hx. apply elem_of_nil in Hx. destruct Hx.
Defined.

End GenerateProps.

(* ===================================================================== *)
(** * Further properties                                                   *)
(* ===================================================================== *)

(** ** Lists and strings *)

Lemma omap_cons_match {A B} (f : A -> option B) (x : A) (l : list A) :
  omap f (x :: l) = match f x with Some y => y :: omap f l | None => omap f l end.
Proof. reflexivity. Qed.

Lemma bind_ret_l' {A B} (l : list str) (a : A) (f : A -> Net B) :
  result (bind (l, Some a) f) = result (f a).
Proof. by rewrite bind_result. Qed.

Lemma contains_cons n c s : contains n s = true -> contains n (c :: s) = true.
Proof. intros H. cbn [contains]. rewrite H. apply orb_true_r. Qed.

Lemma contains_infix n a b : contains n (a ++ n ++ b) = true.
Proof.
  induction a as [|c a IH].
  - simpl. assert (startswith n (n ++ b) = true) as H
      by (apply GenerateProps.startswith_spec; by exists b).
    destruct (n ++ b); simpl in *; rewrite H; done.
  - by apply contains_cons.
Qed.

Lemma contains_suffix n a : contains n (a ++ n) = true.
Proof. pose proof (contains_infix n a []) as H. by rewrite app_nil_r in H. Qed.

(* ===================================================================== *)
(** ** The matcher and [re.sub]                                            *)
(* ===================================================================== *)

Module RegexProps.

Lemma star_k_inv p s k r :
  star_k p s k = Some r ->
  exists a b, s = a ++ b /\ forallb p a = true /\ k b = Some r.
Proof.
  induction s as [|c s IH]; simpl.
  - intros H. by exists [], [].
  - destruct (p c) eqn:Hc.
    + destruct (star_k p s k) as [x|] eqn:Hs.
      * intros [= ->]. destruct (IH eq_refl) as (a & b & -> & Ha & Hk).
        exists (c :: a), b. simpl. by rewrite Hc, Ha.
      * intros H. by exists [], (c :: s).
    + intros H. by exists [], (c :: s).
Qed.

Lemma star_k_greedy p a b k r :
  forallb p a = true ->
  match b with [] => True | c :: _ => p c = false end ->
  k b = Some r ->
  star_k p (a ++ b) k = Some r.
Proof.
  intros Ha Hb Hk. induction a as [|x a IH]; simpl in *.
  - destruct b as [|c b]; simpl; [done|]. by rewrite Hb.
  - apply andb_true_iff in Ha as [-> Ha]. by rewrite IH.
Qed.

Lemma lit_inv l s k r :
  rmatch (Lit l) s k = Some r -> exists s', s = l ++ s' /\ k s' = Some r.
Proof.
  revert s. induction l as [|c l IH]; intros s; simpl.
  - intros H. by exists s.
  - destruct s as [|x s]; [done|]. destruct (c =? x) eqn:Hx; [|done].
    apply N.eqb_eq in Hx as ->. intros (s' & -> & Hk)%IH. by exists s'.
Qed.

Lemma lit_match l s k : rmatch (Lit l) (l ++ s) k = k s.
Proof.
  induction l as [|c l IH]; simpl; [done|]. by rewrite N.eqb_refl.
Qed.

(** Substitution leaves alone a string none of whose suffixes matches. *)
Lemma sub_go_no_match r repl count s :
  (forall a b, s = a ++ b -> re_match r b = None) ->
  sub_go r repl count s O = s.
Proof.
  induction s as [|c s IH]; intros H.
  - simpl. rewrite (H [] []) by done. by destruct count as [[|]|].
  - cbn [sub_go]. rewrite (H [] (c :: s)) by done.
    rewrite IH; [by destruct count as [[|]|]|].
    intros a b ->. by apply (H (c :: a)).
Qed.

Lemma sub_go_prefix r repl count p s :
  count <> Some O ->
  (forall p0 p', p = p0 ++ p' -> p' <> [] -> re_match r (p' ++ s) = None) ->
  sub_go r repl count (p ++ s) O = p ++ sub_go r repl count s O.
Proof.
  intros Hc. induction p as [|c p IH]; intros H; [done|].
  pose proof (H [] (c :: p) eq_refl) as Hm. cbn [app] in *.
  cbn [sub_go]. rewrite Hm by done.
  rewrite IH; [by destruct count as [[|]|]|].
  intros p0 p' -> Hne. by apply (H (c :: p0)).
Qed.

Lemma sub_go_exhausted r repl a t :
  sub_go r repl (Some O) (a ++ t) (length a) = t.
Proof.
  induction a as [|c a IH]; simpl; [by destruct t|]. exact IH.
Qed.

End RegexProps.


Module XmlnsProps.
Import Generate GenerateNotions RegexProps.

Section Props.
Context `{U : Unicode}.

Lemma xmlns_match_inv t r :
  re_match xmlns_re t = Some r ->
  exists sp t', t = sp ++ py "xmlns" ++ t' /\ sp <> [] /\ forallb isspace sp = true.
Proof.
  unfold re_match, xmlns_re, Plus. cbn [rmatch].
  destruct t as [|c t]; [done|]. destruct (isspace c) eqn:Hc; [|done].
  intros (a & b & -> & Ha & Hk)%star_k_inv.
  apply lit_inv in Hk as (t' & -> & _).
  exists (c :: a), t'. split; [done|]. split; [done|]. simpl. by rewrite Hc, Ha.
Qed.

(** X15.  A body in which the text [xmlns] does not occur is passed to the
    XML parser as it is. *)
Theorem strip_xmlns_without_declaration (body : str) :
  contains (py "xmlns") body = false -> strip_xmlns body = body.
Proof.
  intros Hc. unfold strip_xmlns, re_sub. apply sub_go_no_match.
  intros a b -> . destruct (re_match xmlns_re b) as [r|] eqn:Hm; [|done].
  apply xmlns_match_inv in Hm as (sp & t' & -> & _ & _).
  rewrite app_assoc, contains_infix in Hc. done.
Qed.

Lemma xmlns_match_declaration ws ws1 ws2 v post :
  ws <> [] -> forallb isspace ws = true ->
  forallb isspace ws1 = true -> forallb isspace ws2 = true ->
  forallb (fun c => negb (c =? 34)) v = true ->
  re_match xmlns_re
    (ws ++ py "xmlns" ++ ws1 ++ py "=" ++ ws2 ++ [34] ++ v ++ [34] ++ post)
  = Some post.
Proof.
  intros Hne Hws Hws1 Hws2 Hv. destruct ws as [|c ws]; [done|].
  simpl in Hws. apply andb_true_iff in Hws as [Hc Hws].
  unfold re_match, xmlns_re, Plus. cbn [rmatch app]. rewrite Hc.
  change (py "xmlns") with [120; 109; 108; 110; 115].
  change (py "=") with [61].
  apply star_k_greedy; [done|reflexivity|].
  change ([120; 109; 108; 110; 115] ++ ?x) with (120 :: 109 :: 108 :: 110 :: 115 :: x).
  cbn [rmatch Lit Chr]. rewrite !N.eqb_refl.
  apply star_k_greedy; [done|reflexivity|].
  cbn [app rmatch]. rewrite N.eqb_refl.
  apply star_k_greedy; [done|reflexivity|].
  cbn [app rmatch]. rewrite N.eqb_refl.
  apply star_k_greedy; [done|reflexivity|].
  cbn [app rmatch]. by rewrite N.eqb_refl.
Qed.

Lemma forallb_last (p : N -> bool) (l : list N) c :
  forallb p l = true -> last l = Some c -> p c = true.
Proof.
  intros H Hl. apply last_Some in Hl as [l' ->].
  rewrite forallb_app in H. apply andb_true_iff in H as [_ H].
  simpl in H. by apply andb_true_iff in H as [H _].
Qed.

Lemma chr_inv c s k r :
  rmatch (Chr c) s k = Some r -> exists s', s = c :: s' /\ k s' = Some r.
Proof.
  unfold Chr. cbn [rmatch]. destruct s as [|x s]; [done|].
  destruct (c =? x) eqn:E; [|done]. apply N.eqb_eq in E as ->. eauto.
Qed.

(** What the pattern matches is a declaration, and conversely. *)
Lemma xmlns_match_shape t r :
  re_match xmlns_re t = Some r -> declaration_at t.
Proof.
  unfold re_match, xmlns_re, Plus. cbn [rmatch].
  destruct t as [|c t]; [done|]. destruct (isspace c) eqn:Hc; [|done].
  intros (a & b & -> & Ha & Hk)%star_k_inv.
  apply lit_inv in Hk as (t1 & -> & Hk).
  apply star_k_inv in Hk as (ws1 & t2 & -> & Hws1 & Hk).
  apply chr_inv in Hk as (t3 & -> & Hk).
  apply star_k_inv in Hk as (ws2 & t4 & -> & Hws2 & Hk).
  apply chr_inv in Hk as (t5 & -> & Hk).
  apply star_k_inv in Hk as (v & t6 & -> & Hv & Hk).
  apply chr_inv in Hk as (t7 & -> & Hk).
  exists (c :: a), ws1, ws2, v, t7.
  split; [reflexivity|]. split; [done|]. split; [simpl; by rewrite Hc, Ha|].
  done.
Qed.

Lemma declaration_at_match s :
  declaration_at s -> exists r, re_match xmlns_re s = Some r.
Proof.
  intros (ws & ws1 & ws2 & v & post & -> & Hne & Hws & Hws1 & Hws2 & Hv).
  exists post. by apply xmlns_match_declaration.
Qed.

Lemma elem_of_tails (s a b : str) : s = a ++ b -> b <> [] -> b ∈ tails s.
Proof.
  intros -> Hb. induction a as [|c a IH]; simpl.
  - destruct b; [done|]. simpl. by left.
  - destruct (a ++ b) eqn:E.
    + apply app_eq_nil in E as [_ ->]. done.
    + rewrite <- E. right. rewrite E. exact IH.
Qed.

(** X16.  The leftmost declaration, that is the first text made of
    whitespace, [xmlns], an equals sign and a double-quoted value, is
    removed together with that whitespace, and nothing else changes: what
    stands before it (prefixed declarations such as [xmlns:xsi] and a
    declaration glued to what precedes it included) and everything after
    it, later declarations included, is kept. *)
Theorem strip_xmlns_removes_declaration pre ws ws1 ws2 v post :
  (forall a b, pre = a ++ b -> b <> [] ->
     ~ declaration_at
         (b ++ ws ++ py "xmlns" ++ ws1 ++ py "=" ++ ws2 ++ [34] ++ v ++ [34] ++ post)) ->
  ws <> [] -> forallb isspace ws = true ->
  forallb isspace ws1 = true -> forallb isspace ws2 = true ->
  forallb (fun c => negb (c =? 34)) v = true ->
  strip_xmlns
    (pre ++ ws ++ py "xmlns" ++ ws1 ++ py "=" ++ ws2 ++ [34] ++ v ++ [34] ++ post)
  = pre ++ post.
Proof.
  intros Hfirst Hne Hws Hws1 Hws2 Hv.
  pose proof (xmlns_match_declaration ws ws1 ws2 v post Hne Hws Hws1 Hws2 Hv) as Hm.
  unfold strip_xmlns, re_sub.
  rewrite sub_go_prefix; [f_equal|discriminate|].
  - set (D := ws ++ _) in *.
    assert (HD : exists d a, D = d :: a ++ post /\
                   (length D - length post)%nat = S (length a)).
    { destruct ws as [|c ws]; [done|].
      exists c, (ws ++ py "xmlns" ++ ws1 ++ py "=" ++ ws2 ++ [34] ++ v ++ [34]).
      subst D. rewrite <- !app_assoc. split; [done|].
      cbn [app length]. rewrite !length_app. cbn [length]. rewrite !length_app.
      cbn [length]. lia. }
    destruct HD as (d & a & HD & Hlen). rewrite HD in *.
    cbn [sub_go]. rewrite Hm, Hlen. cbn [fmap option_fmap option_map pred app].
    apply sub_go_exhausted.
  - clear Hm. intros p0 p' -> Hp'.
    destruct (re_match xmlns_re _) as [r|] eqn:Hr; [exfalso|done].
    apply xmlns_match_shape in Hr. exact (Hfirst p0 p' eq_refl Hp' Hr).
Qed.

End Props.

#[local] Existing Instance ascii_unicode.

(** X15 on the sitemap token of the sample host. *)
Lemma strip_xmlns_without_declaration_witness :
  strip_xmlns (py "<urlset><url><loc>https://docs.example/</loc></url></urlset>")
  = py "<urlset><url><loc>https://docs.example/</loc></url></urlset>".
Proof.
  apply (strip_xmlns_without_declaration
           (py "<urlset><url><loc>https://docs.example/</loc></url></urlset>")).
  vm_compute. reflexivity.
Defined.

(** X16 on a root tag that declares a prefixed namespace before the
    default one. *)
Lemma strip_xmlns_removes_declaration_witness :
  strip_xmlns
    (xsi_header ++ py " " ++ py "xmlns" ++ [] ++ py "=" ++ [] ++ [34]
     ++ py "http://www.sitemaps.org/schemas/sitemap/0.9" ++ [34]
     ++ py "><url/></urlset>")
  = xsi_header ++ py "><url/></urlset>".
Proof.
  apply (strip_xmlns_removes_declaration xsi_header (py " ") [] []
           (py "http://www.sitemaps.org/schemas/sitemap/0.9")
           (py "><url/></urlset>")).
  - intros a b Hab Hb Hd. apply declaration_at_match in Hd as [r Hr].
    apply (elem_of_tails _ a b Hab) in Hb.
    vm_compute in Hb.
    repeat (apply elem_of_cons in Hb as [->|Hb]; [vm_compute in Hr; discriminate Hr|]).
    apply elem_of_nil in Hb. destruct Hb.
  - discriminate.
  - reflexivity.
  - reflexivity.
  - reflexivity.
  - vm_compute. reflexivity.
Defined.

End XmlnsProps.

(* ===================================================================== *)
(** ** The title patterns                                                  *)
(* ===================================================================== *)

Module TitleProps.
Import Generate GenerateProps GenerateNotions RegexProps.

(** ASCII classes. *)
Lemma ascii_space_classes `{U : Unicode} c :
  is_ascii c && ascii_isspace c = true ->
  isspace c = true /\ isdecimal c = false /\ (c =? 46) = false.
Proof.
  unfold isspace, isdecimal. intros [Ha Hs]%andb_true_iff. rewrite Ha, Hs.
  unfold ascii_isspace, ascii_isdigit in *.
  split; [done|].
  destruct (48 <=? c) eqn:H1, (c <=? 57) eqn:H2, (c =? 46) eqn:H3; try done;
    exfalso; rewrite ?N.leb_le, ?N.eqb_eq in *;
    repeat (apply orb_true_iff in Hs as [Hs|Hs]);
    rewrite ?andb_true_iff, ?N.leb_le, ?N.eqb_eq in Hs; lia.
Qed.

Lemma ascii_nonspace `{U : Unicode} c :
  is_ascii c && negb (ascii_isspace c) = true -> isspace c = false.
Proof.
  unfold isspace. intros [Ha Hs]%andb_true_iff. rewrite Ha.
  by apply negb_true_iff in Hs.
Qed.

Lemma lstrip_by_head p c s : p c = false -> lstrip_by p (c :: s) = c :: s.
Proof. intros H. simpl. by rewrite H. Qed.

Lemma rstrip_by_last p s c :
  last s = Some c -> p c = false -> rstrip_by p s = s.
Proof.
  intros Hl Hc. apply last_Some in Hl as [s' ->].
  induction s' as [|x s' IH]; simpl.
  - by rewrite Hc.
  - rewrite IH. destruct (s' ++ [c]) eqn:E; [by destruct s'|done].
Qed.

Lemma strip_id `{U : Unicode} s c0 c1 s' :
  s = c0 :: s' -> last s = Some c1 ->
  isspace c0 = false -> isspace c1 = false -> strip s = s.
Proof.
  intros -> Hl H0 H1. unfold strip. rewrite lstrip_by_head by done.
  by apply (rstrip_by_last _ _ c1).
Qed.

Lemma split1_at sep page rest :
  (forall p0 p', page = p0 ++ p' -> p' <> [] ->
                 startswith sep (p' ++ sep ++ rest) = false) ->
  split1 sep (page ++ sep ++ rest) = [page; rest].
Proof.
  induction page as [|c page IH]; intros H.
  - cbn [app]. assert (startswith sep (sep ++ rest) = true) as Hs
      by (apply startswith_spec; by exists rest).
    destruct (sep ++ rest) eqn:E.
    + apply app_eq_nil in E as [-> ->]. reflexivity.
    + cbn [split1]. rewrite Hs. by rewrite <- E, drop_app_length.
  - pose proof (H [] (c :: page) eq_refl) as Hs. cbn [app] in *.
    cbn [split1]. rewrite Hs by done.
    rewrite IH; [done|]. intros p0 p' -> Hp. by apply (H (c :: p0)).
Qed.

Lemma title_sep_first page rest p0 p' :
  8212 ∉ page -> page = p0 ++ p' -> p' <> [] ->
  startswith title_sep (p' ++ title_sep ++ rest) = false.
Proof.
  intros Hd -> Hp. change title_sep with [32; 8212; 32].
  destruct p' as [|c [|c2 p']]; [done| |].
  - cbn [app startswith]. change (8212 =? 32) with false.
    by rewrite andb_false_l, andb_false_r.
  - cbn [app startswith]. destruct (8212 =? c2) eqn:E;
      [|by rewrite andb_false_l, andb_false_r].
    apply N.eqb_eq in E. subst c2. exfalso. apply Hd.
    apply elem_of_app. right. right. left.
Qed.

Lemma sub_go_skip r repl count a t :
  sub_go r repl count (a ++ t) (length a) = sub_go r repl count t O.
Proof. induction a as [|c a IH]; simpl; [done|]. exact IH. Qed.

Lemma litI_inv `{U : Unicode} l s k r :
  rmatch (LitI l) s k = Some r ->
  exists m s', s = m ++ s' /\
               Forall2 (fun a c => caseless_eq a c = true) l m /\ k s' = Some r.
Proof.
  revert s. induction l as [|a l IH]; intros s; simpl.
  - intros H. exists [], s. split; [done|]. split; [constructor|done].
  - destruct s as [|c s]; [done|]. destruct (caseless_eq a c) eqn:Hc; [|done].
    intros (m & s' & -> & Hm & Hk)%IH. exists (c :: m), s'.
    split; [done|]. split; [by constructor|done].
Qed.

Lemma litI_match `{U : Unicode} l m s k :
  Forall2 (fun a c => caseless_eq a c = true) l m ->
  rmatch (LitI l) (m ++ s) k = k s.
Proof.
  induction 1 as [|a c l m Hc _ IH]; simpl; [done|]. by rewrite Hc.
Qed.

Lemma caseless_of_lower `{U : Unicode} (pat word : str) :
  forallb is_ascii word = true -> forallb is_ascii pat = true ->
  map ascii_lower pat = pat -> map ascii_lower word = pat ->
  Forall2 (fun a c => caseless_eq a c = true) pat word.
Proof.
  revert pat. induction word as [|c word IH]; intros pat Hw Hp Hlp Hlw;
    destruct pat as [|a pat]; simpl in *; try discriminate.
  - constructor.
  - apply andb_true_iff in Hw as [Hc Hw]. apply andb_true_iff in Hp as [Ha Hp].
    injection Hlp as Hla Hlp. injection Hlw as Hlc Hlw.
    constructor; [|by apply IH].
    unfold caseless_eq. rewrite Hc, Ha. simpl. rewrite Hla, Hlc. apply N.eqb_refl.
Qed.

Lemma star_k_none p s k :
  (forall a t, s = a ++ t -> forallb p a = true -> k t = None) ->
  star_k p s k = None.
Proof.
  intros H. destruct (star_k p s k) as [r|] eqn:E; [|done].
  apply star_k_inv in E as (a & b & -> & Ha & Hk).
  rewrite (H a b) in Hk; done.
Qed.

Lemma version_free_split l x b :
  version_free (l ++ x :: b) = true -> ascii_isspace x = true ->
  starts_version b = false.
Proof.
  induction l as [|y l IH]; cbn [app version_free].
  - intros [H _]%andb_true_iff Hx. rewrite Hx in H. cbn in H.
    by apply negb_true_iff in H.
  - intros [_ H]%andb_true_iff. by apply IH.
Qed.

Lemma forallb_elem {A} (p : A -> bool) (l : list A) x :
  forallb p l = true -> x ∈ l -> p x = true.
Proof. intros H Hx. rewrite forallb_forall in H. apply H. by apply list_elem_of_In. Qed.

Section Regexes.
Context `{U : Unicode}.

Lemma version_no_match c s :
  isspace c = false -> re_match version_re (c :: s) = None.
Proof. intros H. unfold re_match, version_re, Plus. cbn [rmatch]. by rewrite H. Qed.

Lemma version_match ws1 vopt d ver' ws2 w0 word' :
  ws1 <> [] -> forallb (fun c => is_ascii c && ascii_isspace c) ws1 = true ->
  vopt = [] \/ vopt = [118] ->
  is_ascii d && ascii_isdigit d = true ->
  forallb (fun c => isdecimal c || (c =? 46)) ver' = true ->
  forallb (fun c => is_ascii c && ascii_isspace c) ws2 = true ->
  isspace w0 = false -> isdecimal w0 = false -> (w0 =? 46) = false ->
  re_match version_re (ws1 ++ vopt ++ d :: ver' ++ ws2 ++ w0 :: word')
  = Some (w0 :: word').
Proof.
  intros Hne Hws1 Hv Hd Hver Hws2 Hw1 Hw2 Hw3.
  assert (Hsp : forall l, forallb (fun c => is_ascii c && ascii_isspace c) l = true ->
                          forallb isspace l = true).
  { intros l. induction l as [|x l IH]; simpl; [done|].
    intros [Hx Hl]%andb_true_iff. rewrite IH by done.
    by destruct (ascii_space_classes x Hx) as [-> _]. }
  assert (Hdd : isdecimal d = true /\ isspace d = false /\ (118 =? d) = false).
  { apply andb_true_iff in Hd as [Ha Hdig]. unfold isdecimal, isspace.
    rewrite Ha, Hdig. unfold ascii_isdigit, ascii_isspace in *.
    apply andb_true_iff in Hdig as [H1%N.leb_le H2%N.leb_le].
    split; [done|]. split.
    - repeat (apply orb_false_iff; split);
        rewrite ?andb_false_iff, ?N.leb_gt, ?N.eqb_neq; lia.
    - apply N.eqb_neq. lia. }
  destruct Hdd as (Hd1 & Hd2 & Hd3).
  destruct ws1 as [|c ws1]; [done|].
  simpl in Hws1. apply andb_true_iff in Hws1 as [Hc Hws1].
  destruct (ascii_space_classes c Hc) as [Hc' _].
  unfold re_match, version_re, Plus, Opt. cbn [rmatch app]. rewrite Hc'.
  apply star_k_greedy; [by apply Hsp| |].
  { destruct Hv as [->| ->]; cbn [app]; [exact Hd2|reflexivity]. }
  assert (Hrest : star_k (fun c0 => isdecimal c0 || (c0 =? 46))
                    (ver' ++ ws2 ++ w0 :: word')
                    (fun s' => star_k isspace s' Some) = Some (w0 :: word')).
  { apply star_k_greedy; [done| |].
    - destruct ws2 as [|x ws2]; cbn [app].
      + by rewrite Hw2, Hw3.
      + simpl in Hws2. apply andb_true_iff in Hws2 as [Hx _].
        destruct (ascii_space_classes x Hx) as (_ & -> & ->). done.
    - apply star_k_greedy; [by apply Hsp|exact Hw1|done]. }
  destruct Hv as [->| ->]; cbn [app rmatch Chr].
  - rewrite Hd3, Hd1. exact Hrest.
  - rewrite N.eqb_refl, Hd1, Hrest. done.
Qed.

Lemma version_removed name ws1 vopt d ver' ws2 w0 word' :
  forallb (fun c => is_ascii c && negb (ascii_isspace c)) name = true ->
  ws1 <> [] -> forallb (fun c => is_ascii c && ascii_isspace c) ws1 = true ->
  vopt = [] \/ vopt = [118] ->
  is_ascii d && ascii_isdigit d = true ->
  forallb (fun c => isdecimal c || (c =? 46)) ver' = true ->
  forallb (fun c => is_ascii c && ascii_isspace c) ws2 = true ->
  Forall (fun c => isspace c = false) (w0 :: word') ->
  isdecimal w0 = false -> (w0 =? 46) = false ->
  re_sub version_re (py " ")
    (name ++ ws1 ++ vopt ++ d :: ver' ++ ws2 ++ w0 :: word') None
  = name ++ py " " ++ w0 :: word'.
Proof.
  intros Hname Hne Hws1 Hv Hd Hver Hws2 Hword Hw2 Hw3.
  assert (Hw1 : isspace w0 = false) by (by inversion Hword).
  pose proof (version_match ws1 vopt d ver' ws2 w0 word'
                Hne Hws1 Hv Hd Hver Hws2 Hw1 Hw2 Hw3) as Hm.
  unfold re_sub. rewrite sub_go_prefix; [f_equal|discriminate|].
  - set (D := ws1 ++ _) in *.
    assert (HD : exists x a, D = x :: a ++ w0 :: word' /\
                   (length D - length (w0 :: word'))%nat = S (length a)).
    { destruct ws1 as [|x ws1]; [done|].
      exists x, (ws1 ++ vopt ++ d :: ver' ++ ws2). subst D.
      split.
      - cbn [app]. rewrite <- !app_assoc. cbn [app]. by rewrite <- !app_assoc.
      - cbn [app length]. rewrite !length_app. cbn [length]. rewrite !length_app.
        cbn [length]. lia. }
    destruct HD as (x & a & HD & Hlen). rewrite HD in *.
    cbn [sub_go]. rewrite Hm, Hlen. cbn [fmap option_fmap option_map].
    f_equal. rewrite sub_go_skip. apply sub_go_no_match.
    intros p b Hpb. destruct b as [|y b]; [reflexivity|].
    apply version_no_match.
    rewrite Forall_forall in Hword. apply Hword. rewrite Hpb.
    apply elem_of_app. right. left.
  - intros p0 p' -> Hp'. destruct p' as [|y p']; [done|]. cbn [app].
    apply version_no_match. rewrite forallb_app in Hname.
    apply andb_true_iff in Hname as [_ Hname]. simpl in Hname.
    apply andb_true_iff in Hname as [Hy _]. by apply ascii_nonspace.
Qed.

Lemma doc_word_caseless word :
  doc_word word ->
  Forall2 (fun a c => caseless_eq a c = true) (py "documentation") word \/
  (length word = 4%nat /\
   Forall2 (fun a c => caseless_eq a c = true) (py "docs") word).
Proof.
  intros [Ha [H|H]].
  - left. by apply caseless_of_lower.
  - right. split; [|by apply caseless_of_lower].
    rewrite <- (length_map ascii_lower), H. reflexivity.
Qed.

Lemma doc_word_nonspace word :
  doc_word word -> Forall (fun c => isspace c = false) word.
Proof.
  intros [Ha Hl]. apply Forall_forall. intros c Hc.
  assert (Hin : ascii_lower c ∈ map ascii_lower word)
    by (apply elem_of_map; eauto).
  assert (Hasc : is_ascii c = true).
  { rewrite forallb_forall in Ha. apply Ha. by apply list_elem_of_In. }
  unfold isspace. rewrite Hasc.
  assert (Hletter : 97 <= ascii_lower c).
  { generalize dependent (ascii_lower c). intros x Hin.
    destruct Hl as [Hl|Hl]; rewrite Hl in Hin; vm_compute in Hin;
      repeat (apply elem_of_cons in Hin as [Hin|Hin]; [rewrite Hin; lia|]);
      by apply elem_of_nil in Hin. }
  unfold ascii_isspace, ascii_lower in *.
  destruct ((65 <=? c) && (c <=? 90)) eqn:Hup.
  - apply andb_true_iff in Hup as [H1%N.leb_le H2%N.leb_le].
    repeat (apply orb_false_iff; split);
      rewrite ?andb_false_iff, ?N.leb_gt, ?N.eqb_neq; lia.
  - repeat (apply orb_false_iff; split);
      rewrite ?andb_false_iff, ?N.leb_gt, ?N.eqb_neq; lia.
Qed.

Lemma doc_pattern_not_space (pat : str) :
  pat = py "documentation" \/ pat = py "docs" ->
  Forall (fun a => caseless_eq a 32 = false) pat.
Proof. intros [->| ->]; repeat constructor. Qed.

Lemma eos_inv s r :
  rmatch Eos s Some = Some r -> s = r /\ forallb isspace r = true.
Proof.
  destruct s as [|c [|c2 s]]; simpl.
  - by intros [= <-].
  - destruct c as [|p]; [done|].
    repeat (destruct p as [p|p|]; try done). by intros [= <-].
  - destruct c as [|p]; [done|].
    repeat (destruct p as [p|p|]; try done).
Qed.

(** The tail of a documentation match is whitespace up to the end. *)
Lemma docs_tail_inv s r :
  rmatch (Seq (Star isspace) Eos) s Some = Some r ->
  forallb isspace s = true.
Proof.
  change (rmatch (Seq (Star isspace) Eos) s Some)
    with (star_k isspace s (fun s' => rmatch Eos s' Some)).
  intros (a & b & -> & Ha & Hb)%star_k_inv.
  apply eos_inv in Hb as [-> Hr]. by rewrite forallb_app, Ha, Hr.
Qed.

Lemma docs_re_unfold t :
  re_match docs_re t =
  star_k isspace t
    (fun s =>
       match rmatch (LitI (py "documentation")) s
               (fun s' => rmatch (Seq (Star isspace) Eos) s' Some) with
       | Some x => Some x
       | None => rmatch (LitI (py "docs")) s
                   (fun s' => rmatch (Seq (Star isspace) Eos) s' Some)
       end).
Proof. reflexivity. Qed.

Lemma docs_no_match_inside c n' word :
  isspace c = false -> doc_word word ->
  re_match docs_re ((c :: n') ++ 32 :: word) = None.
Proof.
  intros Hc Hw. rewrite docs_re_unfold. cbn [app star_k]. rewrite Hc.
  assert (Hlast : exists x, last ((c :: n') ++ 32 :: word) = Some x /\
                            isspace x = false).
  { pose proof (doc_word_nonspace word Hw) as Hns.
    destruct (last word) as [x|] eqn:Hl.
    - exists x. split.
      + rewrite last_app. cbn [last]. rewrite last_cons, Hl. done.
      + rewrite Forall_forall in Hns. apply Hns. by apply last_Some_elem_of.
    - exfalso. apply last_None in Hl. subst word.
      destruct Hw as [_ [H|H]]; discriminate H. }
  assert (Hlit : forall pat,
            pat = py "documentation" \/ pat = py "docs" ->
            rmatch (LitI pat) (c :: n' ++ 32 :: word)
              (fun s' => rmatch (Seq (Star isspace) Eos) s' Some) = None).
  { intros pat Hpat.
    destruct (rmatch (LitI pat) _ _) as [r|] eqn:Hm; [exfalso|done].
    apply litI_inv in Hm as (m & s' & Heq & Hm & Hk).
    apply docs_tail_inv in Hk.
    destruct Hlast as (x & Hx & Hxs).
    assert (s' = []) as ->.
    { destruct (last s') as [y|] eqn:Hy; [|by apply last_None in Hy].
      change (c :: n' ++ 32 :: word) with ((c :: n') ++ 32 :: word) in Heq.
      rewrite Heq, last_app, Hy in Hx. injection Hx as ->.
      pose proof (XmlnsProps.forallb_last _ _ _ Hk Hy). congruence. }
    rewrite app_nil_r in Heq. subst m.
    change (c :: n' ++ 32 :: word) with ((c :: n') ++ 32 :: word) in Hm.
    apply Forall2_app_inv_r in Hm as (l1 & l2 & _ & H2 & Hl).
    apply Forall2_cons_inv_r in H2 as (a & l2' & Ha & _ & ->).
    pose proof (doc_pattern_not_space pat Hpat) as Hns. rewrite Hl in Hns.
    apply Forall_app in Hns as [_ Hns]. inversion Hns; congruence. }
  rewrite (Hlit (py "documentation")) by (by left).
  apply Hlit. by right.
Qed.

Lemma docs_match_word word :
  doc_word word -> re_match docs_re (32 :: word) = Some [].
Proof.
  intros Hw. rewrite docs_re_unfold.
  pose proof (doc_word_nonspace word Hw) as Hns.
  change (32 :: word) with ([32] ++ word).
  apply star_k_greedy; [reflexivity| |].
  - destruct word as [|x word]; [done|]. by inversion Hns.
  - destruct (doc_word_caseless word Hw) as [H|[Hlen H]].
    + rewrite <- (app_nil_r word) at 1. rewrite (litI_match _ _ _ _ H). reflexivity.
    + destruct (rmatch (LitI (py "documentation")) word _) as [r|] eqn:Hm.
      * exfalso. apply litI_inv in Hm as (m & s' & Heq & Hm & _).
        apply Forall2_length in Hm. rewrite Heq, length_app in Hlen.
        change (length (py "documentation")) with 13%nat in Hm. lia.
      * rewrite <- (app_nil_r word) at 1. rewrite (litI_match _ _ _ _ H). reflexivity.
Qed.

Lemma docs_removed name word :
  forallb (fun c => is_ascii c && negb (ascii_isspace c)) name = true ->
  doc_word word ->
  re_sub docs_re [] (name ++ py " " ++ word) None = name.
Proof.
  intros Hname Hw. change (py " " ++ word) with (32 :: word).
  unfold re_sub. rewrite sub_go_prefix; [|discriminate|].
  - rewrite <- (app_nil_r name) at 2. f_equal.
    cbn [sub_go]. rewrite (docs_match_word word Hw).
    cbn [length fmap option_fmap option_map app]. rewrite Nat.sub_0_r.
    rewrite <- (app_nil_r word) at 1. rewrite sub_go_skip. reflexivity.
  - intros p0 p' -> Hp'. destruct p' as [|y p']; [done|].
    apply docs_no_match_inside; [|done].
    rewrite forallb_app in Hname. apply andb_true_iff in Hname as [_ Hname].
    simpl in Hname. apply andb_true_iff in Hname as [Hy _].
    by apply ascii_nonspace.
Qed.

Lemma doc_word_letters word :
  doc_word word ->
  Forall (fun c => isdecimal c = false /\ (c =? 46) = false) word.
Proof.
  intros [Ha Hl]. apply Forall_forall. intros c Hc.
  assert (Hin : ascii_lower c ∈ map ascii_lower word)
    by (apply elem_of_map; eauto).
  assert (Hasc : is_ascii c = true).
  { rewrite forallb_forall in Ha. apply Ha. by apply list_elem_of_In. }
  unfold isdecimal. rewrite Hasc.
  assert (Hletter : 97 <= ascii_lower c).
  { generalize dependent (ascii_lower c). intros x Hin.
    destruct Hl as [Hl|Hl]; rewrite Hl in Hin; vm_compute in Hin;
      repeat (apply elem_of_cons in Hin as [Hin|Hin]; [rewrite Hin; lia|]);
      by apply elem_of_nil in Hin. }
  unfold ascii_isdigit, ascii_lower in *.
  destruct ((65 <=? c) && (c <=? 90)) eqn:Hup.
  - apply andb_true_iff in Hup as [H1%N.leb_le H2%N.leb_le].
    split; [apply andb_false_iff; right; apply N.leb_gt; lia|].
    apply N.eqb_neq. lia.
  - split; [apply andb_false_iff; right; apply N.leb_gt; lia|].
    apply N.eqb_neq. lia.
Qed.

Lemma clean_sphinx_title page name ws1 vopt d ver' ws2 word :
  strip page = page -> 8212 ∉ page ->
  name <> [] ->
  forallb (fun c => is_ascii c && negb (ascii_isspace c)) name = true ->
  ws1 <> [] -> forallb (fun c => is_ascii c && ascii_isspace c) ws1 = true ->
  vopt = [] \/ vopt = [118] ->
  is_ascii d && ascii_isdigit d = true ->
  forallb (fun c => isdecimal c || (c =? 46)) ver' = true ->
  forallb (fun c => is_ascii c && ascii_isspace c) ws2 = true ->
  doc_word word ->
  clean_title
    (page ++ title_sep ++ name ++ ws1 ++ vopt ++ d :: ver' ++ ws2 ++ word)
  = if negb (str_eqb (lower name) (lower page))
    then page ++ py " - " ++ name else page.
Proof.
  intros Hpage Hdash Hne Hname Hws1ne Hws1 Hv Hd Hver Hws2 Hw.
  set (rest := name ++ ws1 ++ vopt ++ d :: ver' ++ ws2 ++ word).
  pose proof (doc_word_nonspace word Hw) as Hns.
  pose proof (doc_word_letters word Hw) as Hlet.
  destruct word as [|w0 word'].
  { destruct Hw as [_ [H|H]]; discriminate H. }
  assert (Hname_ns : Forall (fun c => isspace c = false) name).
  { apply Forall_forall. intros c Hc. apply ascii_nonspace.
    rewrite forallb_forall in Hname. apply Hname. by apply list_elem_of_In. }
  destruct name as [|c0 name']; [done|].
  assert (Hc0 : isspace c0 = false) by (by inversion Hname_ns).
  assert (Hstrip_name : strip (c0 :: name') = c0 :: name').
  { destruct (last (c0 :: name')) as [c1|] eqn:Hl;
      [|apply last_None in Hl; discriminate Hl].
    apply (strip_id _ c0 c1 name'); [done|done|done|].
    rewrite Forall_forall in Hname_ns. apply Hname_ns.
    by apply last_Some_elem_of. }
  assert (Hstrip_rest : strip rest = rest).
  { destruct (last (w0 :: word')) as [c1|] eqn:Hl;
      [|apply last_None in Hl; discriminate Hl].
    apply (strip_id rest c0 c1
             (name' ++ ws1 ++ vopt ++ d :: ver' ++ ws2 ++ w0 :: word')).
    - reflexivity.
    - subst rest. rewrite !last_app. cbn [last]. rewrite last_cons.
      rewrite !last_app, Hl. done.
    - done.
    - rewrite Forall_forall in Hns. apply Hns. by apply last_Some_elem_of. }
  assert (Hsplit : split1 title_sep (page ++ title_sep ++ rest) = [page; rest]).
  { apply split1_at. intros p0 p' Hpp Hp'. by apply (title_sep_first page rest p0). }
  unfold clean_title. rewrite contains_infix, Hsplit.
  change (default [] ([page; rest] !! 0%nat)) with page.
  change (default [] ([page; rest] !! 1%nat)) with rest.
  change ((1 <? length [page; rest])%nat) with true. cbv iota.
  rewrite Hpage, Hstrip_rest. subst rest.
  inversion Hlet as [|? ? [Hw2 Hw3] _]; subst.
  rewrite (version_removed (c0 :: name') ws1 vopt d ver' ws2 w0 word') by done.
  rewrite (docs_removed (c0 :: name') (w0 :: word')) by done.
  rewrite Hstrip_name. reflexivity.
Qed.

(** X23.  A Sphinx title, that is a page part, the separator, a project
    name of one ASCII word, a version number (with or without a leading
    [v]) and the word [documentation] or [docs] in any letter case, is
    cleaned to the page part, a dash and the project name; when the name
    equals the page part up to letter case the page part alone remains. *)
Theorem sphinx_title_cleanup page name ws1 vopt d ver' ws2 word :
  strip page = page -> 8212 ∉ page ->
  name <> [] ->
  forallb (fun c => is_ascii c && negb (ascii_isspace c)) name = true ->
  ws1 <> [] -> forallb (fun c => is_ascii c && ascii_isspace c) ws1 = true ->
  vopt = [] \/ vopt = [118] ->
  is_ascii d && ascii_isdigit d = true ->
  forallb (fun c => isdecimal c || (c =? 46)) ver' = true ->
  forallb (fun c => is_ascii c && ascii_isspace c) ws2 = true ->
  doc_word word ->
  clean_title
    (page ++ title_sep ++ name ++ ws1 ++ vopt ++ d :: ver' ++ ws2 ++ word)
  = if negb (str_eqb (lower name) (lower page))
    then page ++ py " - " ++ name else page.
Proof. apply clean_sphinx_title. Qed.


Lemma isspace_ascii c : is_ascii c = true -> isspace c = ascii_isspace c.
Proof. unfold isspace. by intros ->. Qed.

Lemma isdecimal_ascii c : is_ascii c = true -> isdecimal c = ascii_isdigit c.
Proof. unfold isdecimal. by intros ->. Qed.

Lemma space_not_digit c : ascii_isspace c = true -> ascii_isdigit c = false.
Proof.
  unfold ascii_isspace, ascii_isdigit. intros H.
  destruct (48 <=? c) eqn:H1, (c <=? 57) eqn:H2; try done. exfalso.
  rewrite ?N.leb_le in *.
  repeat (apply orb_true_iff in H as [H|H]);
    rewrite ?andb_true_iff, ?N.leb_le, ?N.eqb_eq in H; lia.
Qed.

(** A whitespace prefix of [p ++ tail] lies within [p] when [p] ends in a
    character that is not whitespace. *)
Lemma space_prefix_within (p tail a t : str) c :
  last p = Some c -> isspace c = false ->
  p ++ tail = a ++ t -> forallb isspace a = true ->
  exists k, p = a ++ k /\ t = k ++ tail /\ k <> [].
Proof.
  intros Hl Hc Heq Ha.
  apply app_eq_inv in Heq as [(k & -> & ->)|(k & -> & ->)].
  - exists k. split; [done|]. split; [done|]. intros ->.
    rewrite app_nil_r in Hl. pose proof (XmlnsProps.forallb_last _ _ _ Ha Hl). congruence.
  - exfalso. rewrite forallb_app in Ha. apply andb_true_iff in Ha as [Ha _].
    pose proof (XmlnsProps.forallb_last _ _ _ Ha Hl). congruence.
Qed.

Lemma version_no_match_name name p0 p' x tail :
  forallb is_ascii name = true ->
  (forall c, last name = Some c -> ascii_isspace c = false) ->
  version_free name = true ->
  name = p0 ++ p' -> p' <> [] ->
  is_ascii x && ascii_isspace x = true ->
  re_match version_re (p' ++ x :: tail) = None.
Proof.
  intros Hascii Hlast Hfree -> Hp' Hx.
  destruct p' as [|y p'']; [done|]. clear Hp'.
  destruct (isspace y) eqn:Hy; [|by apply version_no_match].
  assert (Hya : is_ascii y = true).
  { apply (forallb_elem _ _ _ Hascii). apply elem_of_app. right. by left. }
  destruct (last (y :: p'')) as [c|] eqn:Hl; [|by apply last_None in Hl].
  assert (Hc : isspace c = false).
  { assert (Hca : is_ascii c = true).
    { apply (forallb_elem _ _ _ Hascii). apply elem_of_app. right.
      by apply last_Some_elem_of. }
    rewrite isspace_ascii by done. apply Hlast. by rewrite last_app, Hl. }
  unfold re_match, version_re, Plus, Opt. cbn [rmatch app]. rewrite Hy.
  apply star_k_none. intros a t Heq Ha.
  assert (Hl' : last p'' = Some c).
  { destruct p'' as [|z p3]; [|by rewrite last_cons_cons in Hl].
    simpl in Hl. injection Hl as <-. congruence. }
  destruct (space_prefix_within p'' (x :: tail) a t c Hl' Hc Heq Ha)
    as (k & -> & -> & Hk).
  destruct k as [|c1 k']; [done|]. clear Hk.
  (* the whitespace character before [c1] *)
  assert (Hsv : starts_version (c1 :: k') = false).
  { destruct (last (y :: a)) as [z|] eqn:Hz; [|by apply last_None in Hz].
    apply last_Some in Hz as [l' Hz].
    assert (Hzs : ascii_isspace z = true).
    { assert (Hall : forallb isspace (y :: a) = true) by (simpl; by rewrite Hy, Ha).
      rewrite Hz, forallb_app in Hall. apply andb_true_iff in Hall as [_ Hall].
      simpl in Hall. apply andb_true_iff in Hall as [Hall _].
      rewrite isspace_ascii in Hall; [done|].
      apply (forallb_elem _ _ _ Hascii). apply elem_of_app. right.
      change (y :: a ++ c1 :: k') with ((y :: a) ++ c1 :: k').
      rewrite Hz. apply elem_of_app. left. apply elem_of_app. right. by left. }
    apply (version_free_split (p0 ++ l') z); [|done].
    rewrite <- Hfree. f_equal.
    change (y :: a ++ c1 :: k') with ((y :: a) ++ c1 :: k').
    rewrite Hz, <- !app_assoc. reflexivity. }
  assert (Hc1a : is_ascii c1 = true).
  { apply (forallb_elem _ _ _ Hascii). apply elem_of_app. right. right.
    apply elem_of_app. right. by left. }
  cbn [starts_version] in Hsv. apply orb_false_iff in Hsv as [Hd1 Hv].
  cbn [app rmatch Chr]. rewrite (isdecimal_ascii c1 Hc1a), Hd1.
  destruct (118 =? c1) eqn:Hv1; [|done].
  apply N.eqb_eq in Hv1 as <-. rewrite N.eqb_refl in Hv. cbn [andb] in Hv.
  destruct k' as [|c2 k'']; cbn [app].
  - apply andb_true_iff in Hx as [Hxa Hxs].
    rewrite (isdecimal_ascii x Hxa), (space_not_digit x Hxs). done.
  - assert (Hc2a : is_ascii c2 = true).
    { apply (forallb_elem _ _ _ Hascii). apply elem_of_app. right. right.
      apply elem_of_app. right. right. by left. }
    rewrite (isdecimal_ascii c2 Hc2a), Hv. done.
Qed.


Lemma doc_literal_no_match pat t0 word :
  pat = py "documentation" \/ pat = py "docs" -> doc_word word ->
  rmatch (LitI pat) (t0 ++ 32 :: word)
    (fun s' => rmatch (Seq (Star isspace) Eos) s' Some) = None.
Proof.
  intros Hpat Hw.
  assert (Hlast : exists x, last (t0 ++ 32 :: word) = Some x /\ isspace x = false).
  { pose proof (doc_word_nonspace word Hw) as Hns.
    destruct (last word) as [x|] eqn:Hl.
    - exists x. split.
      + rewrite last_app. cbn [last]. rewrite last_cons, Hl. done.
      + rewrite Forall_forall in Hns. apply Hns. by apply last_Some_elem_of.
    - exfalso. apply last_None in Hl. subst word.
      destruct Hw as [_ [H|H]]; discriminate H. }
  destruct (rmatch (LitI pat) _ _) as [r|] eqn:Hm; [exfalso|done].
  apply litI_inv in Hm as (m & s' & Heq & Hm & Hk).
  apply docs_tail_inv in Hk.
  destruct Hlast as (x & Hx & Hxs).
  assert (s' = []) as ->.
  { destruct (last s') as [y|] eqn:Hy; [|by apply last_None in Hy].
    rewrite Heq, last_app, Hy in Hx. injection Hx as ->.
    pose proof (XmlnsProps.forallb_last _ _ _ Hk Hy). congruence. }
  rewrite app_nil_r in Heq. subst m.
  apply Forall2_app_inv_r in Hm as (l1 & l2 & _ & H2 & Hl).
  apply Forall2_cons_inv_r in H2 as (a & l2' & Ha & _ & ->).
  pose proof (doc_pattern_not_space pat Hpat) as Hns. rewrite Hl in Hns.
  apply Forall_app in Hns as [_ Hns]. inversion Hns; congruence.
Qed.

Lemma docs_no_match_name p' c word :
  last p' = Some c -> isspace c = false -> doc_word word ->
  re_match docs_re (p' ++ 32 :: word) = None.
Proof.
  intros Hl Hc Hw. rewrite docs_re_unfold. apply star_k_none.
  intros a t Heq Ha.
  destruct (space_prefix_within p' (32 :: word) a t c Hl Hc Heq Ha)
    as (k & _ & -> & _).
  rewrite (doc_literal_no_match (py "documentation")) by (done || by left).
  apply doc_literal_no_match; [by right|done].
Qed.

Lemma version_removed_text name ws1 vopt d ver' ws2 w0 word' :
  forallb is_ascii name = true ->
  (forall c, last name = Some c -> ascii_isspace c = false) ->
  version_free name = true ->
  ws1 <> [] -> forallb (fun c => is_ascii c && ascii_isspace c) ws1 = true ->
  vopt = [] \/ vopt = [118] ->
  is_ascii d && ascii_isdigit d = true ->
  forallb (fun c => isdecimal c || (c =? 46)) ver' = true ->
  forallb (fun c => is_ascii c && ascii_isspace c) ws2 = true ->
  Forall (fun c => isspace c = false) (w0 :: word') ->
  isdecimal w0 = false -> (w0 =? 46) = false ->
  re_sub version_re (py " ")
    (name ++ ws1 ++ vopt ++ d :: ver' ++ ws2 ++ w0 :: word') None
  = name ++ py " " ++ w0 :: word'.
Proof.
  intros Hascii Hlast Hfree Hne Hws1 Hv Hd Hver Hws2 Hword Hw2 Hw3.
  assert (Hw1 : isspace w0 = false) by (by inversion Hword).
  pose proof (version_match ws1 vopt d ver' ws2 w0 word'
                Hne Hws1 Hv Hd Hver Hws2 Hw1 Hw2 Hw3) as Hm.
  unfold re_sub. rewrite sub_go_prefix; [f_equal|discriminate|].
  - set (D := ws1 ++ _) in *.
    assert (HD : exists x a, D = x :: a ++ w0 :: word' /\
                   (length D - length (w0 :: word'))%nat = S (length a)).
    { destruct ws1 as [|x ws1]; [done|].
      exists x, (ws1 ++ vopt ++ d :: ver' ++ ws2). subst D.
      split.
      - cbn [app]. rewrite <- !app_assoc. cbn [app]. by rewrite <- !app_assoc.
      - cbn [app length]. rewrite !length_app. cbn [length]. rewrite !length_app.
        cbn [length]. lia. }
    destruct HD as (x & a & HD & Hlen). rewrite HD in *.
    cbn [sub_go]. rewrite Hm, Hlen. cbn [fmap option_fmap option_map].
    f_equal. rewrite sub_go_skip. apply sub_go_no_match.
    intros p b Hpb. destruct b as [|y b]; [reflexivity|].
    apply version_no_match.
    rewrite Forall_forall in Hword. apply Hword. rewrite Hpb.
    apply elem_of_app. right. left.
  - clear Hm. intros p0 p' Hsplit Hp'.
    destruct ws1 as [|x ws1']; [done|]. cbn [app].
    simpl in Hws1. apply andb_true_iff in Hws1 as [Hx _].
    by apply (version_no_match_name name p0).
Qed.

Lemma docs_removed_text name c word :
  last name = Some c -> isspace c = false -> doc_word word ->
  re_sub docs_re [] (name ++ py " " ++ word) None = name.
Proof.
  intros Hl Hc Hw. change (py " " ++ word) with (32 :: word).
  unfold re_sub. rewrite sub_go_prefix; [|discriminate|].
  - rewrite <- (app_nil_r name) at 2. f_equal.
    cbn [sub_go]. rewrite (docs_match_word word Hw).
    cbn [length fmap option_fmap option_map app]. rewrite Nat.sub_0_r.
    rewrite <- (app_nil_r word) at 1. rewrite sub_go_skip. reflexivity.
  - intros p0 p' -> Hp'. apply (docs_no_match_name p' c); [|done..].
    rewrite last_app in Hl. destruct (last p') as [z|] eqn:Hz; [done|].
    by apply last_None in Hz.
Qed.

(** The clean-up of a Sphinx title whose project name may hold several
    words. *)
Lemma clean_sphinx_title_text page name ws1 vopt d ver' ws2 word :
  strip page = page -> 8212 ∉ page ->
  project_name name = true ->
  ws1 <> [] -> forallb (fun c => is_ascii c && ascii_isspace c) ws1 = true ->
  vopt = [] \/ vopt = [118] ->
  is_ascii d && ascii_isdigit d = true ->
  forallb (fun c => isdecimal c || (c =? 46)) ver' = true ->
  forallb (fun c => is_ascii c && ascii_isspace c) ws2 = true ->
  doc_word word ->
  clean_title
    (page ++ title_sep ++ name ++ ws1 ++ vopt ++ d :: ver' ++ ws2 ++ word)
  = if negb (str_eqb (lower name) (lower page))
    then page ++ py " - " ++ name else page.
Proof.
  intros Hpage Hdash Hname Hws1ne Hws1 Hv Hd Hver Hws2 Hw.
  unfold project_name in Hname.
  apply andb_true_iff in Hname as [[[Hascii Hhead]%andb_true_iff Hlast]%andb_true_iff Hfree].
  set (rest := name ++ ws1 ++ vopt ++ d :: ver' ++ ws2 ++ word).
  pose proof (doc_word_nonspace word Hw) as Hns.
  pose proof (doc_word_letters word Hw) as Hlet.
  destruct word as [|w0 word'].
  { destruct Hw as [_ [H|H]]; discriminate H. }
  destruct name as [|c0 name']; [done|].
  apply negb_true_iff in Hhead.
  destruct (last (c0 :: name')) as [cl|] eqn:Hl; [|done].
  apply negb_true_iff in Hlast.
  assert (Hc0 : isspace c0 = false).
  { rewrite isspace_ascii; [done|]. apply (forallb_elem _ _ _ Hascii). by left. }
  assert (Hcl : isspace cl = false).
  { rewrite isspace_ascii; [done|]. apply (forallb_elem _ _ _ Hascii).
    by apply last_Some_elem_of. }
  assert (Hstrip_name : strip (c0 :: name') = c0 :: name')
    by (by apply (strip_id _ c0 cl name')).
  assert (Hstrip_rest : strip rest = rest).
  { destruct (last (w0 :: word')) as [c1|] eqn:Hlw;
      [|apply last_None in Hlw; discriminate Hlw].
    apply (strip_id rest c0 c1
             (name' ++ ws1 ++ vopt ++ d :: ver' ++ ws2 ++ w0 :: word')).
    - reflexivity.
    - subst rest. rewrite !last_app. cbn [last]. rewrite last_cons.
      rewrite !last_app, Hlw. done.
    - done.
    - rewrite Forall_forall in Hns. apply Hns. by apply last_Some_elem_of. }
  assert (Hsplit : split1 title_sep (page ++ title_sep ++ rest) = [page; rest]).
  { apply split1_at. intros p0 p' Hpp Hp'. by apply (title_sep_first page rest p0). }
  unfold clean_title. rewrite contains_infix, Hsplit.
  change (default [] ([page; rest] !! 0%nat)) with page.
  change (default [] ([page; rest] !! 1%nat)) with rest.
  change ((1 <? length [page; rest])%nat) with true. cbv iota.
  rewrite Hpage, Hstrip_rest. subst rest.
  inversion Hlet as [|? ? [Hw2 Hw3] _]; subst.
  rewrite (version_removed_text (c0 :: name') ws1 vopt d ver' ws2 w0 word');
    [|done| |done..].
  2:{ intros c Hc. rewrite Hl in Hc. by injection Hc as <-. }
  rewrite (docs_removed_text (c0 :: name') cl (w0 :: word')) by done.
  rewrite Hstrip_name. reflexivity.
Qed.

(** X30.  For a page fetched with status 200 whose title, stripped, is a
    Sphinx title (page part, separator, project name of one or more ASCII
    words, version number, [documentation] or [docs])
    [_extract_page_info] returns the page part, a dash and the project name
    as the title, or the page part alone when the name equals it up to
    letter case. *)
Theorem page_title_cleanup (w : World) url body page name ws1 vopt d ver' ws2 word :
  urlopen w url = Some (200, body) ->
  last_description (processed (html_events w body)) <> None ->
  strip (title (feed MetaExtractor_init (html_events w body)))
    = page ++ title_sep ++ name ++ ws1 ++ vopt ++ d :: ver' ++ ws2 ++ word ->
  strip page = page -> 8212 ∉ page ->
  project_name name = true ->
  ws1 <> [] -> forallb (fun c => is_ascii c && ascii_isspace c) ws1 = true ->
  vopt = [] \/ vopt = [118] ->
  is_ascii d && ascii_isdigit d = true ->
  forallb (fun c => isdecimal c || (c =? 46)) ver' = true ->
  forallb (fun c => is_ascii c && ascii_isspace c) ws2 = true ->
  doc_word word ->
  exists desc,
    result (_extract_page_info w url) =
      Some (Some (if negb (str_eqb (lower name) (lower page))
                  then page ++ py " - " ++ name else page), desc).
Proof.
  intros Hopen Hdesc Htitle Hpage Hdash Hname Hws1ne Hws1 Hv Hd Hver Hws2 Hw.
  unfold _extract_page_info. rewrite bind_result.
  unfold _fetch. cbn [result snd]. rewrite Hopen. cbn [negb N.eqb Pos.eqb].
  rewrite feed_description. unfold last_description in Hdesc.
  change (description MetaExtractor_init) with (Some (@nil N)).
  destruct (default _ _) as [dsc|]; [|done].
  rewrite Htitle, clean_sphinx_title_text by done.
  exists (or_None (strip dsc)). cbn [result snd ret]. do 3 f_equal.
  unfold or_None.
  destruct (negb (str_eqb (lower name) (lower page))) eqn:Hcmp.
  - by destruct page.
  - destruct page as [|c page']; [|done]. exfalso.
    apply negb_false_iff in Hcmp. unfold str_eqb in Hcmp.
    apply bool_decide_eq_true in Hcmp.
    unfold project_name in Hname.
    apply andb_true_iff in Hname as [[[Hascii Hhead]%andb_true_iff _]%andb_true_iff _].
    unfold lower in Hcmp. rewrite Hascii in Hcmp. cbn in Hcmp.
    by destruct name.
Qed.

End Regexes.

#[local] Existing Instance ascii_unicode.

(** X23 on a title with a prefixed version and a capitalised suffix. *)
Lemma sphinx_title_cleanup_witness :
  clean_title
    (py "Install" ++ title_sep ++ py "TorchComms" ++ py " " ++ [118]
     ++ 48 :: py ".1" ++ py " " ++ py "Docs")
  = py "Install - TorchComms".
Proof.
  rewrite (sphinx_title_cleanup (py "Install") (py "TorchComms") (py " ") [118]
             48 (py ".1") (py " ") (py "Docs")).
  - vm_compute. reflexivity.
  - vm_compute. reflexivity.
  - intros H. vm_compute in H.
    repeat (apply elem_of_cons in H as [H|H]; [discriminate H|]).
    apply elem_of_nil in H. destruct H.
  - discriminate.
  - vm_compute. reflexivity.
  - discriminate.
  - reflexivity.
  - right. reflexivity.
  - reflexivity.
  - vm_compute. reflexivity.
  - reflexivity.
  - split; [vm_compute; reflexivity|]. right. vm_compute. reflexivity.
Defined.

(** X30 on a page whose title names a project of two words. *)
Lemma page_title_cleanup_witness :
  exists desc,
    result (_extract_page_info versions_world (py "https://docs.example/install")) =
      Some (Some (py "Install - Torch Comms"), desc).
Proof.
  apply (page_title_cleanup versions_world (py "https://docs.example/install")
           (py "INSTALL") (py "Install") (py "Torch Comms") (py " ") [118] 48
           (py ".1") (py " ") (py "Docs")).
  - reflexivity.
  - vm_compute. discriminate.
  - vm_compute. reflexivity.
  - vm_compute. reflexivity.
  - intros H. vm_compute in H.
    repeat (apply elem_of_cons in H as [H|H]; [discriminate H|]).
    apply elem_of_nil in H. destruct H.
  - vm_compute. reflexivity.
  - discriminate.
  - reflexivity.
  - right. reflexivity.
  - reflexivity.
  - vm_compute. reflexivity.
  - reflexivity.
  - split; [vm_compute; reflexivity|]. right. vm_compute. reflexivity.
Defined.

End TitleProps.

(* ===================================================================== *)
(** ** [generate.py], further                                              *)
(* ===================================================================== *)

Module GenerateMore.
Import Generate GenerateProps GenerateNotions.

Lemma forallb_replicate (c : N) (t : list N) :
  forallb (N.eqb c) t = true -> t = replicate (length t) c.
Proof.
  induction t as [|x t IH]; simpl; [done|].
  rewrite andb_true_iff, N.eqb_eq. intros [-> H]. by rewrite <- IH.
Qed.

Lemma rstrip_by_all p t : forallb p t = true -> rstrip_by p t = [].
Proof.
  induction t as [|x t IH]; simpl; [done|].
  rewrite andb_true_iff. intros [Hx H]. by rewrite IH, Hx.
Qed.

Lemma rstrip_by_app p s t :
  forallb p t = true -> rstrip_by p (s ++ t) = rstrip_by p s.
Proof.
  intros H. induction s as [|c r IH]; simpl.
  - by apply rstrip_by_all.
  - by rewrite IH.
Qed.

(** X13.  Two URLs have the same deduplication key exactly when they
    differ only in the number of their trailing slashes. *)
Theorem same_key_iff (a b : str) :
  rstrip_slash a = rstrip_slash b <->
  exists s n m, a = s ++ replicate n 47 /\ b = s ++ replicate m 47.
Proof.
  unfold rstrip_slash. split.
  - intros Heq.
    destruct (rstrip_by_spec (N.eqb 47) a) as (ta & Ha & Hta & _).
    destruct (rstrip_by_spec (N.eqb 47) b) as (tb & Hb & Htb & _).
    exists (rstrip_by (N.eqb 47) a), (length ta), (length tb).
    rewrite <- (forallb_replicate _ _ Hta). split; [done|].
    rewrite Heq, <- (forallb_replicate _ _ Htb). done.
  - intros (s & n & m & -> & ->).
    rewrite !rstrip_by_app; [done| |].
    + clear. induction m; simpl; [done|]. done.
    + clear. induction n; simpl; [done|]. done.
Qed.

Section Props.
Context `{U : Unicode} (w : World).

Lemma dedup_loop_distinct pages seen :
  NoDup (map norm_url pages) ->
  (forall x, x ∈ pages -> norm_url x ∉ seen) ->
  dedup_loop pages seen [] = pages.
Proof.
  revert seen. induction pages as [|pg rest IH]; intros seen Hnd Hseen; [done|].
  rewrite dedup_loop_cons. simpl in Hnd. apply NoDup_cons in Hnd as [Hpg Hnd].
  case_bool_decide as Hin.
  - exfalso. eapply Hseen; [|exact Hin]. by left.
  - f_equal. apply IH; [done|].
    intros x Hx [Heq%elem_of_singleton|Hs]%elem_of_union.
    + apply Hpg. rewrite <- Heq. apply elem_of_map. eauto.
    + eapply Hseen; [|exact Hs]. by right.
Qed.

(** X14.  Deduplication returns a list of pages with pairwise distinct
    keys as it is, and deduplicating twice is deduplicating once. *)
Theorem dedup_idempotent (pages : list page) :
  (NoDup (map norm_url pages) -> dedup_loop pages ∅ [] = pages) /\
  dedup_loop (dedup_loop pages ∅ []) ∅ [] = dedup_loop pages ∅ [].
Proof.
  split.
  - intros Hnd. apply dedup_loop_distinct; [done|].
    intros x _. apply not_elem_of_empty.
  - apply dedup_loop_distinct; [apply dedup_loop_NoDup|].
    intros x _. apply not_elem_of_empty.
Qed.

Lemma extract_requests url : requests (_extract_page_info w url) = [url].
Proof.
  unfold _extract_page_info. rewrite bind_requests. simpl.
  destruct (urlopen w url) as [[st body]|]; simpl.
  - destruct (negb (st =? 200)); simpl; [done|]. by destruct (description _).
  - done.
Qed.

(** The sitemap URLs the crawl fetches: neither manual nor skipped. *)
Lemma crawl_loop_requests proj mu urls pages :
  requests (crawl_loop w proj mu urls pages) `prefix_of`
    filter (fun u => (rstrip_slash u ∉ mu) /\ _should_skip_url u = false) urls /\
  (is_Some (result (crawl_loop w proj mu urls pages)) ->
   requests (crawl_loop w proj mu urls pages) =
     filter (fun u => (rstrip_slash u ∉ mu) /\ _should_skip_url u = false) urls).
Proof.
  revert pages. induction urls as [|u rest IH]; intros pages; simpl.
  - split; [done|]. by rewrite filter_nil.
  - rewrite filter_cons. case_bool_decide as Hm.
    + rewrite decide_False by tauto. apply IH.
    + destruct (_should_skip_url u) eqn:Hskip.
      * rewrite decide_False by (intros [_ ?]; done). apply IH.
      * rewrite decide_True by done.
        rewrite bind_requests, bind_result, extract_requests. simpl.
        destruct (result (_extract_page_info w u)) as [[[t|] d]|]; simpl.
        -- split; [apply prefix_cons, IH|]. intros H. f_equal. by apply IH.
        -- split; [apply prefix_cons, IH|]. intros H. f_equal. by apply IH.
        -- split; [apply prefix_cons, prefix_nil|]. by intros [? ?].
Qed.

Lemma crawl_loop_origin proj mu urls pages pages' :
  result (crawl_loop w proj mu urls pages) = Some pages' ->
  exists crawled,
    pages' = pages ++ crawled /\
    map pg_url crawled `sublist_of` urls /\
    Forall (fun pg =>
              (norm_url pg ∉ mu) /\ _should_skip_url (pg_url pg) = false /\
              pg_title pg <> [] /\
              exists t d, result (_extract_page_info w (pg_url pg)) = Some (Some t, d) /\
                          pg_content pg = default [] d /\
                          pg_title pg =
                            if contains (lower (p_title proj)) (lower t) then t
                            else t ++ py " - " ++ p_title proj) crawled.
Proof.
  revert pages. induction urls as [|u rest IH]; intros pages; simpl.
  - intros [= <-]. exists []. rewrite app_nil_r. split; [done|]. split; constructor.
  - case_bool_decide as Hm.
    { intros H. apply IH in H as (cr & -> & Hsub & Hall). exists cr.
      split; [done|]. split; [by apply sublist_cons|done]. }
    destruct (_should_skip_url u) eqn:Hskip.
    { intros H. apply IH in H as (cr & -> & Hsub & Hall). exists cr.
      split; [done|]. split; [by apply sublist_cons|done]. }
    rewrite bind_result.
    destruct (result (_extract_page_info w u)) as [[[t|] d]|] eqn:He; [| |done].
    + intros H. apply IH in H as (crawled & -> & Hsub & Hall).
      eexists (_ :: crawled). rewrite <- app_assoc. split; [reflexivity|].
      split; [simpl; by apply sublist_skip|].
      constructor; [|done]. simpl. split; [done|]. split; [done|].
      pose proof (extract_title_nonempty _ _ _ _ He) as Ht.
      split.
      * destruct (negb _); [|done]. by destruct t.
      * exists t, d. split; [done|]. split; [done|].
        by destruct (contains _ _).
    + intros H. apply IH in H as (cr & -> & Hsub & Hall). exists cr.
      split; [done|]. split; [by apply sublist_cons|done].
Qed.

(** X1.  Every page of a search entry is either a declared manual page or
    comes from the crawl: then its URL is one the sitemap discovery
    returned, contains no skip pattern, its key is not that of a manual
    page, and its title is not empty. *)
Theorem emitted_pages_origin offline proj c e pg :
  result (generate_project w offline proj) = Some (c, e) ->
  pg ∈ s_pages e ->
  pg ∈ map manual_entry (default [] (p_pages proj)) \/
  (crawls offline proj = true /\
   (forall pat, pat ∈ _SKIP_PATTERNS -> contains pat (pg_url pg) = false) /\
   pg_title pg <> [] /\
   (norm_url pg ∉ map norm_url (map manual_entry (default [] (p_pages proj)))) /\
   exists sitemap_urls,
     result (_fetch_sitemap_urls w (docs_url_of proj)) = Some sitemap_urls /\
     pg_url pg ∈ sitemap_urls).
Proof.
  intros Hres Hpg. apply generate_project_pages in Hres. simpl in Hres.
  destruct (crawls offline proj); [|left; by rewrite <- Hres].
  destruct Hres as (sitemap_urls & pages' & Hs & Hloop & Hp). rewrite Hp in Hpg.
  apply crawl_loop_origin in Hloop as (crawled & -> & Hsub & Hall).
  eapply elem_of_sublist in Hpg; [|apply dedup_loop_sublist].
  apply elem_of_app in Hpg as [Hpg|Hpg]; [by left|right].
  rewrite Forall_forall in Hall. destruct (Hall pg Hpg) as (Hn & Hskip & Ht & _).
  split; [done|]. split; [|split; [done|split]].
  - intros pat Hpat. unfold _should_skip_url in Hskip.
    destruct (contains pat (pg_url pg)) eqn:Hc; [|done].
    rewrite <- Hskip. symmetry. apply existsb_exists. exists pat.
    split; [by apply list_elem_of_In|done].
  - intros Hin. apply Hn. by apply manual_urls_spec.
  - exists sitemap_urls. split; [done|].
    eapply elem_of_sublist; [|exact Hsub]. apply elem_of_map. eauto.
Qed.

(** X3.  A project that is not crawled (offline run, or docs on a code
    host) costs no request and always yields its card and search entry. *)
Theorem uncrawled_project_no_requests offline proj :
  crawls offline proj = false ->
  requests (generate_project w offline proj) = [] /\
  exists e, result (generate_project w offline proj) = Some (card_of proj, e).
Proof.
  unfold crawls, docs_url_of. intros Hc. unfold generate_project.
  destruct (manual_loop _ _ _) as [pages mu]. rewrite Hc.
  rewrite bind_ret_l. simpl. split; [done|]. eexists. reflexivity.
Qed.




(** X2.  The title of a crawled page, when it is ASCII, contains the
    project title up to letter case. *)
Theorem crawled_title_names_project offline proj c e pg :
  result (generate_project w offline proj) = Some (c, e) ->
  pg ∈ s_pages e ->
  pg ∉ map manual_entry (default [] (p_pages proj)) ->
  forallb is_ascii (pg_title pg) = true ->
  contains (lower (p_title proj)) (lower (pg_title pg)) = true.
Proof.
  intros Hres Hpg Hnm Hascii. apply generate_project_pages in Hres. simpl in Hres.
  destruct (crawls offline proj); [|by rewrite Hres in Hpg].
  destruct Hres as (sitemap_urls & pages' & Hs & Hloop & Hp). rewrite Hp in Hpg.
  apply crawl_loop_origin in Hloop as (crawled & -> & Hsub & Hall).
  eapply elem_of_sublist in Hpg; [|apply dedup_loop_sublist].
  apply elem_of_app in Hpg as [Hpg|Hpg]; [done|].
  rewrite Forall_forall in Hall.
  destruct (Hall pg Hpg) as (_ & _ & _ & t & d & _ & _ & Ht).
  destruct (contains (lower (p_title proj)) (lower t)) eqn:Hc; [by rewrite Ht|].
  rewrite Ht in *. rewrite !forallb_app in Hascii.
  apply andb_true_iff in Hascii as [Ha1 [Ha2 Ha3]%andb_true_iff].
  unfold lower. rewrite !forallb_app, Ha1, Ha2, Ha3. cbn [andb].
  rewrite !map_app, app_assoc. apply contains_suffix.
Qed.

(** X5.  The requests of a crawled project are those of the sitemap
    discovery followed by one request per discovered URL that is neither a
    manual URL (up to trailing slashes) nor a build artifact, in sitemap
    order. *)
Theorem crawl_requests offline proj c e :
  crawls offline proj = true ->
  result (generate_project w offline proj) = Some (c, e) ->
  exists sitemap_urls,
    result (_fetch_sitemap_urls w (docs_url_of proj)) = Some sitemap_urls /\
    requests (generate_project w offline proj) =
      requests (_fetch_sitemap_urls w (docs_url_of proj)) ++
      filter (fun u =>
                (rstrip_slash u ∉
                   map (fun m => rstrip_slash (mp_url m)) (default [] (p_pages proj))) /\
                _should_skip_url u = false) sitemap_urls.
Proof.
  unfold crawls, docs_url_of, generate_project. intros Hc.
  pose proof (manual_loop_urls (default [] (p_pages proj)) [] ∅) as Hmu.
  destruct (manual_loop _ _ _) as [pages mu]. simpl in Hmu. rewrite Hc.
  rewrite !bind_result, !bind_requests, !bind_result.
  destruct (result (_fetch_sitemap_urls _ _)) as [sitemap_urls|]; [|done].
  rewrite bind_result, bind_requests.
  destruct (crawl_loop_requests proj mu sitemap_urls pages) as [_ Hreq].
  destruct (result (crawl_loop _ _ _ _ _)) as [pages'|]; [|done].
  intros _. exists sitemap_urls. split; [done|]. simpl. rewrite !app_nil_r.
  rewrite Hreq by done. f_equal. apply list_filter_iff. intros u.
  rewrite Hmu, elem_of_empty. tauto.
Qed.

(** X6.  When no candidate is usable the discovery requests every
    candidate path once, in the order of the list, and keeps the URLs it
    had. *)
Theorem discovery_requests_all_candidates base paths urls :
  (forall p, p ∈ paths ->
     candidate_unfetched w (base ++ p) \/ candidate_unparseable w (base ++ p)) ->
  sitemap_paths_loop w base paths urls = (map (app base) paths, Some urls).
Proof.
  induction paths as [|p rest IH]; intros H; [done|].
  assert (sitemap_paths_loop w base (p :: rest) urls =
          (r <- _fetch w (base ++ p) ;; sitemap_paths_loop w base rest urls)) as ->.
  { destruct (H p) as [Hu|Hu]; [by left| |].
    - by apply paths_loop_unfetched.
    - by apply paths_loop_unparseable. }
  rewrite bind_fetch, IH; [done|]. intros q Hq. apply H. by right.
Qed.

(** X7.  A flat sitemap found after unusable candidates costs one request
    per candidate tried, ends the search and yields the locations it lists. *)
Theorem discovery_flat_sitemap base skipped p rest body root :
  (forall q, q ∈ skipped ->
     candidate_unfetched w (base ++ q) \/ candidate_unparseable w (base ++ q)) ->
  fetched w (base ++ p) = (200, body) ->
  nonempty (strip body) = true ->
  xml_fromstring w (strip_xmlns body) = Some root ->
  iter (py "sitemap") root = [] ->
  url_locs root <> [] ->
  sitemap_paths_loop w base (skipped ++ p :: rest) [] =
    (map (app base) (skipped ++ [p]), Some (url_locs root)).
Proof.
  intros Hsk Hf Hb Hx Hit Hne.
  induction skipped as [|q sk IH]; simpl.
  - rewrite bind_fetch, Hf. simpl. rewrite Hb, Hx, Hit. simpl.
    rewrite bind_ret_l. simpl. by destruct (url_locs root).
  - assert (sitemap_paths_loop w base (q :: sk ++ p :: rest) [] =
            (r <- _fetch w (base ++ q) ;;
             sitemap_paths_loop w base (sk ++ p :: rest) [])) as Heq.
    { destruct (Hsk q) as [Hu|Hu]; [by left| |].
      - by apply paths_loop_unfetched.
      - by apply paths_loop_unparseable. }
    simpl in Heq. rewrite Heq, bind_fetch, IH; [done|].
    intros x Hx'. apply Hsk. by right.
Qed.

(** X11.  [_extract_page_info] makes exactly one request, answers
    [(None, None)] to any status other than 200, and never returns an empty
    string as title or description. *)
Theorem extract_page_info_shape url :
  requests (_extract_page_info w url) = [url] /\
  ((fetched w url).1 <> 200 -> result (_extract_page_info w url) = Some (None, None)) /\
  (forall t d, result (_extract_page_info w url) = Some (t, d) ->
               t <> Some [] /\ d <> Some []).
Proof.
  split; [apply extract_requests|].
  unfold _extract_page_info. rewrite bind_result. simpl. fold (fetched w url).
  destruct (fetched w url) as [st body]. simpl. split.
  - intros Hst. apply N.eqb_neq in Hst. by rewrite Hst.
  - intros t d. destruct (negb (st =? 200)); simpl; [by intros [= <- <-]|].
    destruct (description _); simpl; [|done]. intros [= <- <-].
    unfold or_None. split.
    + by destruct (clean_title _).
    + by destruct (strip _).
Qed.

Lemma feed_app self evs1 evs2 :
  Forall (fun e => raises e = false) evs1 ->
  feed self (evs1 ++ evs2) = feed (feed self evs1) evs2.
Proof.
  revert self. induction evs1 as [|e rest IH]; intros self Hr; simpl; [done|].
  inversion Hr as [|? ? He Hrest]; subst.
  destruct (handle self e) as [self'|] eqn:Hh.
  - by apply IH.
  - apply handle_raises in Hh. congruence.
Qed.

Lemma handle_outside_title self e self' :
  in_title self = false ->
  (forall a, e <> StartTag (py "title") a) ->
  handle self e = Some self' ->
  title self' = title self /\ in_title self' = false.
Proof.
  intros Hin Hne. destruct e as [t attrs|t|d]; simpl.
  - unfold handle_starttag.
    destruct (decide (t = py "title")) as [->|Ht].
    { exfalso. apply (Hne attrs). reflexivity. }
    assert (str_eqb t (py "title") = false) as ->
      by (apply bool_decide_eq_false_2; exact Ht).
    destruct (str_eqb t (py "meta")).
    + destruct (get_or_empty _ _) as [name|]; [|done].
      destruct (str_eqb _ _); by intros [= <-].
    + by intros [= <-].
  - intros [= <-]. unfold handle_endtag. by destruct (str_eqb _ _).
  - intros [= <-]. unfold handle_data. by rewrite Hin.
Qed.

Lemma feed_outside_title self evs :
  in_title self = false ->
  Forall (fun e => forall a, e <> StartTag (py "title") a) evs ->
  title (feed self evs) = title self /\ in_title (feed self evs) = false.
Proof.
  revert self. induction evs as [|e rest IH]; intros self Hin Hall; simpl; [done|].
  inversion Hall as [|? ? He Hrest]; subst.
  destruct (handle self e) as [self'|] eqn:Hh; [|done].
  destruct (handle_outside_title _ _ _ Hin He Hh) as [Ht Hi].
  destruct (IH self' Hi Hrest) as [Ht' Hi']. by rewrite Ht', Ht.
Qed.

Lemma handle_inside_title self e self' :
  in_title self = true ->
  (e <> EndTag (py "title")) ->
  handle self e = Some self' ->
  title self' = title self ++ match e with Data d => d | _ => [] end /\
  in_title self' = true.
Proof.
  intros Hin Hne. destruct e as [t attrs|t|d]; simpl.
  - unfold handle_starttag.
    destruct (str_eqb t (py "meta")).
    + destruct (get_or_empty _ _) as [name|]; [|done].
      destruct (str_eqb _ _); intros [= <-]; simpl;
        destruct (str_eqb t (py "title")); simpl; by rewrite ?app_nil_r.
    + intros [= <-]. destruct (str_eqb t (py "title")); simpl; by rewrite ?app_nil_r.
  - intros [= <-]. unfold handle_endtag.
    destruct (decide (t = py "title")) as [->|Ht].
    { exfalso. apply Hne. reflexivity. }
    assert (str_eqb t (py "title") = false) as ->
      by (apply bool_decide_eq_false_2; exact Ht).
    by rewrite app_nil_r.
  - intros [= <-]. unfold handle_data. by rewrite Hin.
Qed.

Lemma feed_inside_title self evs :
  in_title self = true ->
  Forall (fun e => raises e = false /\ e <> EndTag (py "title")) evs ->
  title (feed self evs) =
    title self ++ concat (map (fun e => match e with Data d => d | _ => [] end) evs) /\
  in_title (feed self evs) = true.
Proof.
  revert self. induction evs as [|e rest IH]; intros self Hin Hall; simpl.
  - by rewrite app_nil_r.
  - inversion Hall as [|? ? [Hr He] Hrest]; subst.
    destruct (handle self e) as [self'|] eqn:Hh.
    + destruct (handle_inside_title _ _ _ Hin He Hh) as [Ht Hi].
      destruct (IH self' Hi Hrest) as [Ht' Hi']. by rewrite Ht', Ht, <- app_assoc.
    + apply handle_raises in Hh. congruence.
Qed.

(** X10.  The title is the concatenation of the text fragments between
    the title start tag and its end tag, nested tags ignored; text before
    and after the title element is left out. *)
Theorem title_is_concatenated_text pre attrs inner post :
  Forall (fun e => raises e = false /\ forall a, e <> StartTag (py "title") a) pre ->
  Forall (fun e => raises e = false /\ e <> EndTag (py "title")) inner ->
  Forall (fun e => forall a, e <> StartTag (py "title") a) post ->
  title (feed MetaExtractor_init
           (pre ++ StartTag (py "title") attrs :: inner ++ EndTag (py "title") :: post))
  = concat (map (fun e => match e with Data d => d | _ => [] end) inner).
Proof.
  intros Hpre Hinner Hpost.
  rewrite feed_app by (eapply Forall_impl; [exact Hpre|]; by intros ? [? _]).
  destruct (feed_outside_title MetaExtractor_init pre eq_refl) as [Ht Hi].
  { eapply Forall_impl; [exact Hpre|]. by intros ? [_ ?]. }
  set (s0 := feed MetaExtractor_init pre) in *.
  change (feed s0 (?e :: ?l)) with
    (match handle s0 e with Some s' => feed s' l | None => s0 end).
  assert (handle s0 (StartTag (py "title") attrs) =
          Some {| title := title s0; description := description s0;
                  in_title := true |}) as -> by reflexivity.
  rewrite feed_app by (eapply Forall_impl; [exact Hinner|]; by intros ? [? _]).
  match goal with |- context [feed ?s inner] =>
    destruct (feed_inside_title s inner eq_refl Hinner) as [Ht1 Hi1];
    set (s1 := feed s inner) in *
  end.
  change (feed s1 (?e :: ?l)) with
    (match handle s1 e with Some s' => feed s' l | None => s1 end).
  assert (handle s1 (EndTag (py "title")) =
          Some {| title := title s1; description := description s1;
                  in_title := false |}) as -> by reflexivity.
  match goal with |- context [feed ?s post] =>
    destruct (feed_outside_title s post eq_refl Hpost) as [Ht2 _]; rewrite Ht2
  end.
  simpl. rewrite Ht1. simpl. by rewrite Ht.
Qed.

Lemma sitemap_index_loop_flat (els : list element) (urls : list str) :
  sitemap_index_loop w els urls =
    (omap nested_loc els,
     Some (urls ++ flat_map (nested_urls w) (omap nested_loc els))).
Proof.
  revert urls. induction els as [|el rest IH]; intros urls.
  - simpl. by rewrite app_nil_r.
  - cbn [sitemap_index_loop]. rewrite !omap_cons_match.
    destruct (findtext (py "loc") el) as [loc|] eqn:Hf.
    2: { assert (nested_loc el = None) as ->
           by (unfold nested_loc; by rewrite Hf). apply IH. }
    destruct (nonempty loc) eqn:Hn.
    2: { assert (nested_loc el = None) as ->
           by (unfold nested_loc; by rewrite Hf, Hn). apply IH. }
    assert (nested_loc el = Some loc) as ->
      by (unfold nested_loc; by rewrite Hf, Hn).
    rewrite bind_fetch. cbn [flat_map]. unfold nested_urls at 1.
    destruct (fetched w loc) as [st body]. cbn [fst snd].
    destruct ((st =? 200) && nonempty body).
    + destruct (xml_fromstring w (strip_xmlns body)) as [sub_root|];
        rewrite IH; cbn [requests result fst snd]; by rewrite <- ?app_assoc.
    + rewrite IH. done.
Qed.

(** X8.  For a sitemap index, every nested sitemap with a non-empty
    location is requested once, in document order, and the page URLs of
    those that are fetched and parse are appended in that order; the others
    contribute nothing. *)
Theorem nested_sitemaps_collected (els : list element) (urls : list str) :
  sitemap_index_loop w els urls =
    (omap nested_loc els,
     Some (urls ++ flat_map (nested_urls w) (omap nested_loc els))).
Proof. apply sitemap_index_loop_flat. Qed.

Lemma url_locs_nonempty root : Forall (fun u => u <> []) (url_locs root).
Proof.
  unfold url_locs. apply Forall_forall. intros u Hu.
  apply list_elem_of_In, in_flat_map in Hu as (el & _ & Hin).
  destruct (findtext (py "loc") el) as [loc|]; [|done].
  destruct loc; simpl in Hin; [done|]. destruct Hin as [<-|[]]. done.
Qed.

(** X9.  The sitemap discovery never returns an empty URL. *)
Theorem discovered_urls_nonempty (docs_url : str) (urls : list str) :
  result (_fetch_sitemap_urls w docs_url) = Some urls ->
  Forall (fun u => u <> []) urls.
Proof.
  unfold _fetch_sitemap_urls.
  assert (H : forall base paths acc,
            Forall (fun u => u <> []) acc ->
            result (sitemap_paths_loop w base paths acc) = Some urls ->
            Forall (fun u => u <> []) urls).
  { intros base paths. induction paths as [|p rest IH]; intros acc Hacc.
    - simpl. by intros [= <-].
    - cbn [sitemap_paths_loop]. rewrite bind_fetch. cbn [result snd].
      destruct (fetched w (base ++ p)) as [st body].
      destruct (negb (st =? 200) || negb (nonempty (strip body))); [by apply IH|].
      destruct (xml_fromstring w (strip_xmlns body)) as [root|]; [|by apply IH].
      rewrite sitemap_index_loop_flat, bind_ret_l'.
      assert (Hnew : Forall (fun u => u <> [])
                ((acc ++ flat_map (nested_urls w)
                           (omap nested_loc (iter (py "sitemap") root)))
                 ++ url_locs root)).
      { apply Forall_app. split; [apply Forall_app; split; [done|]|apply url_locs_nonempty].
        apply Forall_forall. intros u Hu.
        apply list_elem_of_In, in_flat_map in Hu as (loc & _ & Hin).
        unfold nested_urls in Hin.
        destruct ((_ =? 200) && _); [|done].
        destruct (xml_fromstring w _) as [sr|]; [|done].
        pose proof (url_locs_nonempty sr) as Hf. rewrite Forall_forall in Hf.
        apply Hf. by apply list_elem_of_In. }
      destruct (nonempty _); [|by apply IH].
      simpl. by intros [= <-]. }
  apply H. constructor.
Qed.

(** X24.  Projects are processed independently: in a completed run the
    card and the search entry of every project are those the project yields
    on its own, and the requests of the run are those of the projects, one
    project after the other. *)
Theorem projects_processed_independently offline projects search_index projects_out :
  result (generate_data w offline projects) = Some (search_index, projects_out) ->
  Forall2 (fun proj ce => result (generate_project w offline proj) = Some ce)
          projects (zip projects_out search_index) /\
  requests (generate_data w offline projects) =
    concat (map (fun proj => requests (generate_project w offline proj)) projects).
Proof.
  unfold generate_data.
  assert (H : forall si po si' po',
    length si = length po ->
    result (projects_loop w offline projects si po) = Some (si', po') ->
    exists idx cards, si' = si ++ idx /\ po' = po ++ cards /\
      length idx = length cards /\
      Forall2 (fun proj ce => result (generate_project w offline proj) = Some ce)
              projects (zip cards idx) /\
      requests (projects_loop w offline projects si po) =
        concat (map (fun proj => requests (generate_project w offline proj)) projects)).
  { induction projects as [|proj rest IH]; intros si po si' po' Hlen; simpl.
    - intros [= <- <-]. exists [], []. rewrite !app_nil_r.
      repeat split; constructor.
    - rewrite bind_result, bind_requests.
      destruct (result (generate_project w offline proj)) as [[c e]|] eqn:Hp; [|done].
      intros H. apply IH in H as (idx & cards & -> & -> & Hl & Hall & Hreq);
        [|rewrite !length_app; simpl; lia].
      exists (e :: idx), (c :: cards). rewrite <- !app_assoc.
      split; [done|]. split; [done|]. split; [simpl; lia|]. split.
      + simpl. by constructor.
      + by rewrite Hreq. }
  intros Hr. apply H in Hr as (idx & cards & -> & -> & _ & Hall & Hreq); done.
Qed.

End Props.

#[local] Existing Instance ascii_unicode.

(** X13 on a URL with one and with two trailing slashes. *)
Lemma same_key_iff_witness :
  rstrip_slash (py "https://docs.example/guide/")
  = rstrip_slash (py "https://docs.example/guide//").
Proof.
  apply (proj2 (same_key_iff (py "https://docs.example/guide/")
                  (py "https://docs.example/guide//"))).
  exists (py "https://docs.example/guide"), 1%nat, 2%nat.
  split; reflexivity.
Defined.

(** X14 on two pages with distinct keys. *)
Lemma dedup_idempotent_witness :
  dedup_loop [manual_entry page_a; guide_page] ∅ [] = [manual_entry page_a; guide_page].
Proof.
  apply (proj1 (dedup_idempotent [manual_entry page_a; guide_page])).
  vm_compute. repeat constructor.
  - intros H. apply list_elem_of_singleton in H. discriminate H.
  - intros H. apply elem_of_nil in H. destruct H.
Defined.

(** X1 on the guide page of the sample host. *)
Lemma emitted_pages_origin_witness :
  crawls false dup_project = true /\ pg_title guide_page <> [].
Proof.
  destruct (result (generate_project sample_world false dup_project))
    as [[c e]|] eqn:E; [|vm_compute in E; discriminate E].
  destruct (emitted_pages_origin sample_world false dup_project c e guide_page E)
    as [H|(H1 & _ & H2 & _)].
  - vm_compute in E. injection E as _ <-. vm_compute.
    apply list_elem_of_further, list_elem_of_here.
  - exfalso. vm_compute in H.
    apply elem_of_cons in H as [H|H]; [discriminate H|].
    apply list_elem_of_singleton in H. discriminate H.
  - split; [exact H1|exact H2].
Defined.

(** X2 on the guide page of the sample host. *)
Lemma crawled_title_names_project_witness :
  contains (lower (p_title dup_project)) (lower (pg_title guide_page)) = true.
Proof.
  destruct (result (generate_project sample_world false dup_project))
    as [[c e]|] eqn:E; [|vm_compute in E; discriminate E].
  apply (crawled_title_names_project sample_world false dup_project c e guide_page E).
  - vm_compute in E. injection E as _ <-. vm_compute.
    apply list_elem_of_further, list_elem_of_here.
  - intros H. vm_compute in H.
    apply elem_of_cons in H as [H|H]; [discriminate H|].
    apply list_elem_of_singleton in H. discriminate H.
  - vm_compute. reflexivity.
Defined.

(** X3 on an offline run. *)
Lemma uncrawled_project_no_requests_witness :
  requests (generate_project sample_world true dup_project) = [] /\
  exists e, result (generate_project sample_world true dup_project)
            = Some (card_of dup_project, e).
Proof.
  apply (uncrawled_project_no_requests sample_world true dup_project).
  reflexivity.
Defined.


(** X5 on the sample host. *)
Lemma crawl_requests_witness :
  exists sitemap_urls,
    result (_fetch_sitemap_urls sample_world (docs_url_of dup_project))
      = Some sitemap_urls /\
    requests (generate_project sample_world false dup_project) =
      requests (_fetch_sitemap_urls sample_world (docs_url_of dup_project)) ++
      filter (fun u =>
                (rstrip_slash u ∉
                   map (fun m => rstrip_slash (mp_url m))
                       (default [] (p_pages dup_project))) /\
                _should_skip_url u = false) sitemap_urls.
Proof.
  destruct (result (generate_project sample_world false dup_project))
    as [[c e]|] eqn:E; [|vm_compute in E; discriminate E].
  apply (crawl_requests sample_world false dup_project c e); [|exact E].
  vm_compute. reflexivity.
Defined.

(** X6 on hosts that are down. *)
Lemma discovery_requests_all_candidates_witness :
  sitemap_paths_loop down_world (py "https://docs.example") sitemap_paths []
  = (map (app (py "https://docs.example")) sitemap_paths, Some []).
Proof.
  apply (discovery_requests_all_candidates down_world (py "https://docs.example")
           sitemap_paths []).
  intros p _. left. reflexivity.
Defined.

(** X7 on the sample host, whose second candidate is a flat sitemap. *)
Lemma discovery_flat_sitemap_witness :
  sitemap_paths_loop sample_world (py "https://docs.example")
    ([py "/sitemap.xml"] ++ py "/stable/sitemap.xml" :: drop 2 sitemap_paths) []
  = (map (app (py "https://docs.example"))
         ([py "/sitemap.xml"] ++ [py "/stable/sitemap.xml"]),
     Some (url_locs sample_sitemap)).
Proof.
  apply (discovery_flat_sitemap sample_world (py "https://docs.example")
           [py "/sitemap.xml"] (py "/stable/sitemap.xml") (drop 2 sitemap_paths)
           (py "SITEMAP") sample_sitemap).
  - intros q Hq. apply list_elem_of_singleton in Hq. subst q. right.
    unfold candidate_unparseable. vm_compute. split; [|split]; reflexivity.
  - vm_compute. reflexivity.
  - vm_compute. reflexivity.
  - vm_compute. reflexivity.
  - vm_compute. reflexivity.
  - vm_compute. discriminate.
Defined.

(** X9 on the sample host. *)
Lemma discovered_urls_nonempty_witness :
  exists urls,
    result (_fetch_sitemap_urls sample_world (py "https://docs.example/")) = Some urls /\
    Forall (fun u => u <> []) urls.
Proof.
  destruct (result (_fetch_sitemap_urls sample_world (py "https://docs.example/")))
    as [urls|] eqn:E; [|vm_compute in E; discriminate E].
  exists urls. split; [reflexivity|].
  apply (discovered_urls_nonempty sample_world (py "https://docs.example/") urls E).
Defined.

(** X10 on a document whose title holds a nested tag. *)
Lemma title_is_concatenated_text_witness :
  title (feed MetaExtractor_init titled_document) = py "User Guide".
Proof.
  unfold titled_document.
  rewrite (title_is_concatenated_text [] []
             [Data (py "User "); StartTag (py "b") []; Data (py "Guide"); EndTag (py "b")]
             [StartTag (py "meta") [(py "charset", Some (py "utf-8"))]; Data (py "body")]).
  - vm_compute. reflexivity.
  - constructor.
  - repeat constructor; try discriminate.
  - repeat constructor; intros a H; discriminate H.
Defined.

(** X11 on a host that does not answer. *)
Lemma extract_page_info_shape_witness :
  result (_extract_page_info sample_world (py "https://nowhere.example/"))
  = Some (None, None).
Proof.
  apply (proj1 (proj2 (extract_page_info_shape sample_world
                         (py "https://nowhere.example/")))).
  vm_compute. intros H. discriminate H.
Defined.

(** X24 on the sample registry. *)
Lemma projects_processed_independently_witness :
  requests (generate_data sample_world false [dup_project; dup_project]) =
    concat (map (fun proj => requests (generate_project sample_world false proj))
                [dup_project; dup_project]).
Proof.
  destruct (result (generate_data sample_world false [dup_project; dup_project]))
    as [[si po]|] eqn:E; [|vm_compute in E; discriminate E].
  apply (projects_processed_independently sample_world false
           [dup_project; dup_project] si po E).
Defined.

End GenerateMore.

(* ===================================================================== *)
(** ** [scripts/generate_sitemap.py], further                              *)
(* ===================================================================== *)

Module SitemapMore.
Import GenerateSitemap SitemapProps SitemapNotions.

Lemma replace_go_skip old new a t :
  replace_go old new (a ++ t) (length a) = replace_go old new t O.
Proof. induction a as [|c a IH]; simpl; [done|]. exact IH. Qed.

Lemma replace_prefix old new t :
  old <> [] -> replace old new (old ++ t) = new ++ replace old new t.
Proof.
  intros Hne. destruct old as [|c o]; [done|]. unfold replace.
  change (replace_go (c :: o) new ((c :: o) ++ t) 0)
    with (if startswith (c :: o) ((c :: o) ++ t)
          then new ++ replace_go (c :: o) new (o ++ t) (length (c :: o) - 1)%nat
          else c :: replace_go (c :: o) new (o ++ t) 0).
  assert (startswith (c :: o) ((c :: o) ++ t) = true) as ->
    by (apply GenerateProps.startswith_spec; by exists t).
  replace (length (c :: o) - 1)%nat with (length o) by (simpl; lia).
  rewrite replace_go_skip. done.
Qed.

Lemma replace_absent old new s :
  contains old s = false -> replace old new s = s.
Proof.
  unfold replace. induction s as [|c r IH]; [done|].
  cbn [contains replace_go]. intros [Hs Hr]%orb_false_iff.
  rewrite Hs, IH; done.
Qed.

Section Props.
Context (w : World).

(** X20.  A copied child loses the sitemap namespace prefix of its tag and
    keeps its text; a tag without the prefix is kept as it is. *)
Theorem namespace_prefix_removed (name : str) (x : option str) :
  contains NS_PREFIX name = false ->
  copied_child (Element (NS_PREFIX ++ name) x []) = Element name x [] /\
  copied_child (Element name x []) = Element name x [].
Proof.
  intros H. unfold copied_child. cbn [tag text].
  rewrite replace_prefix by (vm_compute; discriminate).
  rewrite !replace_absent by exact H. done.
Qed.

Lemma clone_children_spec cs new_url has :
  clone_children cs new_url has =
  (Element (tag new_url) (text new_url) (children new_url ++ map copied_child cs),
   has || existsb (fun child => str_eqb (replace NS_PREFIX [] (tag child)) (py "lastmod")) cs).
Proof.
  revert new_url has. induction cs as [|c cs IH]; intros new_url has; simpl.
  - rewrite app_nil_r, orb_false_r. by destruct new_url.
  - rewrite IH. destruct new_url as [t x ch]. simpl. rewrite <- app_assoc. simpl.
    f_equal. fold NS_PREFIX.
    destruct (str_eqb _ _); simpl; [by rewrite orb_true_r|done].
Qed.

Lemma clone_entry_spec (url_entry : element) :
  clone_entry w url_entry =
  Element (py "url") None
    (map copied_child (children url_entry) ++
     if has_lastmod_child url_entry then []
     else [Element (py "lastmod") (Some (today w)) []]).
Proof.
  unfold clone_entry, has_lastmod_child. rewrite clone_children_spec. simpl.
  destruct (existsb _ _); simpl; [by rewrite app_nil_r|done].
Qed.

(** X19.  A copied [url] entry holds the copies of the children of the
    source entry, in order and without their own children, and a [lastmod]
    with the date of the run only when no child is a [lastmod]. *)
Theorem clone_entry_children (url_entry : element) :
  clone_entry w url_entry =
  Element (py "url") None
    (map copied_child (children url_entry) ++
     if has_lastmod_child url_entry then []
     else [Element (py "lastmod") (Some (today w)) []]).
Proof. apply clone_entry_spec. Qed.

(** X17.  The sitemap index lists the main sitemap (when asked to) and then
    the resolved sitemap URL of every project that has one, in registry
    order; every entry carries the date of the run. *)
Theorem index_lists_resolved_sitemaps (projects : list project) (include_main : bool) :
  map (findtext (py "loc")) (children (sitemap_index_root w projects include_main)) =
    map Some
      ((if include_main then [BASE_URL ++ py "/" ++ MAIN_SITEMAP_PATH] else [])
       ++ omap get_project_sitemap_url projects) /\
  Forall (fun e => tag e = py "sitemap" /\
                   findtext (py "lastmod") e = Some (today w))
         (children (sitemap_index_root w projects include_main)).
Proof.
  unfold sitemap_index_root. rewrite index_loop_children.
  assert (Hloc : forall u, findtext (py "loc") (sitemap_entry w u) = Some u)
    by (intros u; vm_compute; reflexivity).
  assert (Hmod : forall u, findtext (py "lastmod") (sitemap_entry w u) = Some (today w))
    by (intros u; vm_compute; reflexivity).
  assert (Hps : map (findtext (py "loc")) (flat_map (index_entries w) projects) =
                map Some (omap get_project_sitemap_url projects) /\
                Forall (fun e => tag e = py "sitemap" /\
                                 findtext (py "lastmod") e = Some (today w))
                       (flat_map (index_entries w) projects)).
  { induction projects as [|p ps [IH1 IH2]]; [split; [done|constructor]|].
    cbn [flat_map]. rewrite omap_cons_match. unfold index_entries at 1 3.
    destruct (get_project_sitemap_url p) as [u|];
      [|cbn [app]; split; [exact IH1|exact IH2]].
    cbn [app map]. rewrite Hloc, IH1. split; [done|].
    constructor; [|done]. split; [reflexivity|apply Hmod]. }
  destruct Hps as [H1 H2].
  rewrite map_app, H1, map_app. split.
  - f_equal. destruct include_main; [|done].
    cbn [sub_element children app map]. by rewrite Hloc.
  - apply Forall_app. split; [|done].
    destruct include_main; cbn [sub_element children app]; [|constructor].
    constructor; [|constructor]. split; [reflexivity|apply Hmod].
Qed.

Lemma unified_entries_lastmod (p : project) :
  Forall (fun e => tag e = py "url" /\
                   exists c, c ∈ children e /\ tag c = py "lastmod")
         (unified_entries w p).
Proof.
  assert (Hdocs : Forall (fun e => tag e = py "url" /\
                   exists c, c ∈ children e /\ tag c = py "lastmod")
                   [docs_root_entry w p]).
  { constructor; [|constructor]. split; [reflexivity|].
    exists (leaf (py "lastmod") (today w)). split; [|reflexivity].
    unfold docs_root_entry. cbn [children]. right. by left. }
  unfold unified_entries.
  destruct (get_project_sitemap_url p) as [u|]; [|done].
  destruct (urlopen w u) as [content| |]; [|done..].
  destruct (xml_fromstring w content) as [sroot| |]; [|done..].
  apply Forall_forall. intros e (src & -> & _)%elem_of_map.
  rewrite clone_entry_spec. split; [reflexivity|]. cbn [children].
  unfold has_lastmod_child. destruct (existsb _ _) eqn:Hex.
  - apply existsb_exists in Hex as (c & Hc & Htag).
    exists (copied_child c). split.
    + rewrite app_nil_r. apply elem_of_map. exists c. split; [done|].
      by apply list_elem_of_In.
    + unfold copied_child. cbn [tag]. unfold str_eqb in Htag.
      by apply bool_decide_eq_true in Htag.
  - exists (Element (py "lastmod") (Some (today w)) []). split; [|reflexivity].
    apply elem_of_app. right. by left.
Qed.

(** X18.  In a unified sitemap every entry is a [url] element with a
    [lastmod] child. *)
Theorem unified_urls_have_lastmod (projects : list project) (root : element) :
  result (unified_root w projects) = Some root ->
  Forall (fun e => tag e = py "url" /\
                   exists c, c ∈ children e /\ tag c = py "lastmod")
         (children root).
Proof.
  intros H. unfold unified_root in H. apply unified_loop_children in H.
  rewrite H. cbn [sub_element children app]. constructor.
  - split; [reflexivity|]. exists (leaf (py "lastmod") (today w)).
    split; [|reflexivity]. unfold main_url_entry. cbn [children]. right. by left.
  - clear H. induction projects as [|p ps IH]; [constructor|].
    cbn [flat_map]. apply Forall_app. split; [apply unified_entries_lastmod|].
    apply IH.
Qed.

(** X21.  A project whose sitemap request raises [URLError] or
    [HTTPError], or whose content raises [ET.ParseError] (the exceptions
    [fetch_sitemap] catches), contributes to the unified sitemap what a
    project without sitemap does: its docs root entry. *)
Theorem failed_sitemap_falls_back (before after : list project) (p : project)
  (url : str) (doc : str) :
  get_project_sitemap_url p = Some url ->
  urlopen w url = UrlError \/
  (exists content, urlopen w url = Content content /\
                   xml_fromstring w content = ParseError) ->
  result (generate_unified_sitemap w (before ++ p :: after)) = Some doc ->
  doc = prettify_xml w
          (Element (py "urlset") None
             (main_url_entry w :: flat_map (unified_entries w) before
              ++ [docs_root_entry w p] ++ flat_map (unified_entries w) after)).
Proof.
  intros Hu Hfail H. apply unified_document in H. rewrite H.
  rewrite flat_map_app. cbn [flat_map].
  unfold unified_entries at 2. rewrite Hu.
  destruct Hfail as [->|(content & -> & ->)]; reflexivity.
Qed.

(** X31.  The document [generate_unified_sitemap] returns is the [urlset]
    that holds the entry of the main site and then, project by project in
    registry order, the entries of each project: the copies of the [url]
    entries of its sitemap when that is fetched and parsed, its docs root
    entry otherwise. *)
Theorem unified_sitemap_document (projects : list project) (doc : str) :
  result (generate_unified_sitemap w projects) = Some doc ->
  doc = prettify_xml w
          (Element (py "urlset") None
             (main_url_entry w :: flat_map (unified_entries w) projects)).
Proof. apply unified_document. Qed.

Lemma unified_loop_uncaught before after p url root :
  get_project_sitemap_url p = Some url ->
  result (fetch_sitemap w url) = None ->
  result (unified_loop w (before ++ p :: after) root) = None.
Proof.
  intros Hu Hf. revert root.
  induction before as [|q qs IH]; intros root; cbn [app unified_loop].
  - rewrite Hu, bind_result, Hf. reflexivity.
  - destruct (get_project_sitemap_url q) as [u|]; [|apply IH].
    rewrite bind_result.
    destruct (result (fetch_sitemap w u)) as [[sroot|]|]; [apply IH..|done].
Qed.

Lemma validate_loop_uncaught before after p url b :
  get_project_sitemap_url p = Some url ->
  result (fetch_sitemap w url) = None ->
  result (validate_loop w (before ++ p :: after) b) = None.
Proof.
  intros Hu Hf. revert b.
  induction before as [|q qs IH]; intros b; cbn [app validate_loop].
  - rewrite Hu, bind_result, Hf. reflexivity.
  - destruct (get_project_sitemap_url q) as [u|]; [|apply IH].
    rewrite bind_result.
    destruct (result (fetch_sitemap w u)) as [[sroot|]|]; [apply IH..|done].
Qed.

(** X28.  An exception that [fetch_sitemap] does not catch, raised by the
    request for a project's sitemap or by the parser on its content, ends
    the run: no unified sitemap and no validation verdict is produced, the
    exit status is 1, and a [--unified] run has written the sitemap index
    only. *)
Theorem uncaught_sitemap_error_ends_run (before after : list project)
  (p : project) (url : str) (a : args) :
  get_project_sitemap_url p = Some url ->
  urlopen w url = OtherError \/
  (exists content, urlopen w url = Content content /\
                   xml_fromstring w content = OtherParseError) ->
  result (generate_unified_sitemap w (before ++ p :: after)) = None /\
  result (validate_sitemaps w (before ++ p :: after)) = None /\
  (a_validate a = true \/ a_unified a = true ->
   exit_code (main w a (before ++ p :: after)) = 1) /\
  (a_validate a = false -> a_unified a = true ->
   written (main w a (before ++ p :: after)) =
     [(a_output_dir a, SITEMAP_OUTPUT_PATH,
       generate_sitemap_index w (before ++ p :: after) true)]).
Proof.
  intros Hu Hfail.
  assert (Hf : result (fetch_sitemap w url) = None).
  { unfold fetch_sitemap. cbn [result snd].
    destruct Hfail as [->|(content & -> & ->)]; reflexivity. }
  assert (Hg : result (generate_unified_sitemap w (before ++ p :: after)) = None).
  { unfold generate_unified_sitemap, unified_root.
    by rewrite bind_result, (unified_loop_uncaught before after p url). }
  assert (Hv : result (validate_sitemaps w (before ++ p :: after)) = None)
    by apply (validate_loop_uncaught before after p url _ Hu Hf).
  split; [exact Hg|]. split; [exact Hv|].
  unfold main. unfold result in Hg, Hv.
  destruct (validate_sitemaps w (before ++ p :: after)) as [lv rv].
  destruct (generate_unified_sitemap w (before ++ p :: after)) as [lu ru].
  cbn [snd] in Hg, Hv. subst rv ru. split.
  - intros [Ha|Ha].
    + rewrite Ha. reflexivity.
    + destruct (a_validate a); [reflexivity|]. rewrite Ha. reflexivity.
  - intros Hva Hun. rewrite Hva, Hun. reflexivity.
Qed.

Lemma fetch_sitemap_requests url : requests (fetch_sitemap w url) = [url].
Proof. reflexivity. Qed.

Lemma validate_loop_requests projects b :
  requests (validate_loop w projects b) `prefix_of`
    omap get_project_sitemap_url projects /\
  (is_Some (result (validate_loop w projects b)) ->
   requests (validate_loop w projects b) = omap get_project_sitemap_url projects).
Proof.
  revert b. induction projects as [|p ps IH]; intros b; [done|].
  cbn [validate_loop].
  rewrite omap_cons_match.
  destruct (get_project_sitemap_url p) as [u|]; [|apply IH].
  rewrite bind_requests, bind_result, fetch_sitemap_requests.
  destruct (result (fetch_sitemap w u)) as [[r|]|]; cbn [app].
  - split; [apply prefix_cons, IH|]. intros H. f_equal. by apply IH.
  - split; [apply prefix_cons, IH|]. intros H. f_equal. by apply IH.
  - split; [apply prefix_cons, prefix_nil|]. by intros [? ?].
Qed.

Lemma unified_loop_requests projects root :
  requests (unified_loop w projects root) `prefix_of`
    omap get_project_sitemap_url projects /\
  (is_Some (result (unified_loop w projects root)) ->
   requests (unified_loop w projects root) = omap get_project_sitemap_url projects).
Proof.
  revert root. induction projects as [|p ps IH]; intros root; [done|].
  cbn [unified_loop].
  rewrite omap_cons_match.
  destruct (get_project_sitemap_url p) as [u|]; [|apply IH].
  rewrite bind_requests, bind_result, fetch_sitemap_requests.
  destruct (result (fetch_sitemap w u)) as [[r|]|]; cbn [app].
  - split; [apply prefix_cons, IH|]. intros H. f_equal. by apply IH.
  - split; [apply prefix_cons, IH|]. intros H. f_equal. by apply IH.
  - split; [apply prefix_cons, prefix_nil|]. by intros [? ?].
Qed.

(** X22.  A run requests nothing but resolved sitemap URLs, each project's
    at most once and in registry order; a run that exits with status 0 has
    requested all of them under [--validate] or [--unified] and none
    otherwise. *)
Theorem sitemaps_requested_once (a : args) (projects : list project) :
  requested (main w a projects) `prefix_of`
    omap get_project_sitemap_url projects /\
  (exit_code (main w a projects) = 0 ->
   requested (main w a projects) =
     if a_validate a || a_unified a
     then omap get_project_sitemap_url projects else []).
Proof.
  unfold main. destruct (a_validate a); cbn [orb].
  - unfold validate_sitemaps.
    destruct (validate_loop_requests projects true) as [Hp He].
    destruct (validate_loop w projects true) as [l [[|]|]]; cbn in *;
      (split; [exact Hp|]); [intros _; by apply He | done | done].
  - destruct (a_unified a); [|split; [apply prefix_nil|done]].
    unfold generate_unified_sitemap, unified_root.
    destruct (unified_loop_requests projects
                (sub_element (Element (py "urlset") None []) (main_url_entry w)))
      as [Hp He].
    rewrite (surjective_pairing (bind _ _)).
    change (fst ?m) with (requests m). change (snd ?m) with (result m).
    rewrite bind_requests, bind_result.
    destruct (result (unified_loop w projects _)) as [r|]; cbn in *.
    + rewrite app_nil_r. split; [exact Hp|]. intros _. by apply He.
    + rewrite app_nil_r. split; [exact Hp|done].
Qed.

Lemma validate_exit_binary a projects :
  a_validate a = true ->
  exit_code (main w a projects) =
    if bool_decide (result (validate_sitemaps w projects) = Some true) then 0 else 1.
Proof.
  intros Ha. unfold main. rewrite Ha.
  destruct (validate_sitemaps w projects) as [l [[|]|]]; reflexivity.
Qed.

(** X25.  The exit status of a validation run does not depend on the order
    of the registry. *)
Theorem validate_order_irrelevant a projects projects' :
  a_validate a = true -> projects ≡ₚ projects' ->
  exit_code (main w a projects) = exit_code (main w a projects').
Proof.
  intros Ha Hperm. rewrite !validate_exit_binary by done.
  unfold validate_sitemaps.
  pose proof (validate_loop_true w projects true) as H1.
  pose proof (validate_loop_true w projects' true) as H2.
  case_bool_decide as Hp1; case_bool_decide as Hp2; try done; exfalso.
  - apply Hp2, H2. split; [done|]. rewrite <- Hperm. by apply H1.
  - apply Hp1, H1. split; [done|]. rewrite Hperm. by apply H2.
Qed.

End Props.

(** X18 on the sample registry. *)
Lemma unified_urls_have_lastmod_witness :
  exists root,
    result (unified_root sample_world [proj_default; proj_null]) = Some root /\
    Forall (fun e => tag e = py "url" /\
                     exists c, c ∈ children e /\ tag c = py "lastmod")
           (children root).
Proof.
  destruct (result (unified_root sample_world [proj_default; proj_null]))
    as [root|] eqn:E; [|vm_compute in E; discriminate E].
  exists root. split; [reflexivity|].
  apply (unified_urls_have_lastmod sample_world [proj_default; proj_null] root E).
Defined.

(** X20 on the [lastmod] tag. *)
Lemma namespace_prefix_removed_witness :
  copied_child (Element (NS_PREFIX ++ py "lastmod") (Some (py "2024-01-01")) [])
    = Element (py "lastmod") (Some (py "2024-01-01")) [] /\
  copied_child (Element (py "lastmod") (Some (py "2024-01-01")) [])
    = Element (py "lastmod") (Some (py "2024-01-01")) [].
Proof.
  apply (namespace_prefix_removed (py "lastmod") (Some (py "2024-01-01"))).
  vm_compute. reflexivity.
Defined.

(** X21 on hosts that refuse every request. *)
Lemma failed_sitemap_falls_back_witness :
  exists doc,
    result (generate_unified_sitemap down_world ([proj_null] ++ proj_explicit :: []))
      = Some doc /\
    doc = prettify_xml down_world
            (Element (py "urlset") None
               (main_url_entry down_world
                :: flat_map (unified_entries down_world) [proj_null]
                ++ [docs_root_entry down_world proj_explicit]
                ++ flat_map (unified_entries down_world) [])).
Proof.
  destruct (result (generate_unified_sitemap down_world
                      ([proj_null] ++ proj_explicit :: [])))
    as [doc|] eqn:E; [|vm_compute in E; discriminate E].
  exists doc. split; [reflexivity|].
  apply (failed_sitemap_falls_back down_world [proj_null] [] proj_explicit
           (py "https://beta.example/map.xml") doc).
  - reflexivity.
  - left. reflexivity.
  - exact E.
Defined.

(** X31 on the sample registry. *)
Lemma unified_sitemap_document_witness :
  exists doc,
    result (generate_unified_sitemap sample_world [proj_default; proj_null])
      = Some doc /\
    doc = prettify_xml sample_world
            (Element (py "urlset") None
               (main_url_entry sample_world
                :: flat_map (unified_entries sample_world) [proj_default; proj_null])).
Proof.
  destruct (result (generate_unified_sitemap sample_world [proj_default; proj_null]))
    as [doc|] eqn:E; [|vm_compute in E; discriminate E].
  exists doc. split; [reflexivity|].
  apply (unified_sitemap_document sample_world [proj_default; proj_null] doc E).
Defined.

(** X28 on hosts whose requests end in an uncaught exception. *)
Lemma uncaught_sitemap_error_ends_run_witness :
  exit_code (main broken_world unified_args ([proj_null] ++ proj_explicit :: [])) = 1.
Proof.
  apply (uncaught_sitemap_error_ends_run broken_world [proj_null] [] proj_explicit
           (py "https://beta.example/map.xml") unified_args).
  - reflexivity.
  - left. reflexivity.
  - right. reflexivity.
Defined.

(** X25 on the sample registry and its reverse. *)
Lemma validate_order_irrelevant_witness :
  exit_code (main sample_world validate_args [proj_default; proj_null]) =
  exit_code (main sample_world validate_args [proj_null; proj_default]).
Proof.
  apply (validate_order_irrelevant sample_world validate_args
           [proj_default; proj_null] [proj_null; proj_default]).
  - reflexivity.
  - apply perm_swap.
Defined.

(** X22 on a validation run over the sample registry. *)
Lemma sitemaps_requested_once_witness :
  requested (main sample_world validate_args [proj_default; proj_null])
  = [py "https://alpha.example/docs/sitemap.xml"].
Proof.
  rewrite (proj2 (sitemaps_requested_once sample_world validate_args
                    [proj_default; proj_null])).
  - vm_compute. reflexivity.
  - vm_compute. reflexivity.
Defined.

End SitemapMore.
